(** * GazeNet training script ([gazenet.py]): a shallow embedding

    The script trains a SqueezeNet gaze classifier: [train] makes one pass
    over the training loader with an SGD step per batch, [val] makes one pass
    over the validation loader, keeps the best validation accuracy seen so
    far in the global [best_accuracy], and on a new best saves the model and
    renders a row-normalised confusion matrix.

    Conventions of the embedding.
    - A Python float is a binary64 number, modelled by the rational it
      denotes; every operation on floats rounds its exact result to the
      nearest double, ties to even ([Float.round]).  The numbers of the
      script are counts and sizes below 2^63, percentages and means of
      losses, far from the largest double, so overflow is left out; the
      scores of the network and the losses of its batches are taken to be
      finite; the non-finite values that numpy's division produces are
      explicit constructors of [Np.float64].
    - A raised exception is the left summand of [Py.result]; it carries the
      name of the exception class and the message.
    - Files and the console are a chronological [trace] of events in the
      [World]. *)

From Stdlib Require Import Ascii String DecimalString ZArith QArith Qreduction.
From Stdlib Require Import Qround Qabs Qpower List Bool Lia Lqa.
From Stdlib Require Import Permutation Sorted Morphisms.
Import ListNotations.

Open Scope Z_scope.

(* ------------------------------------------------------------------ *)
(** ** Doubles: rounding to binary64 *)

Module Float.

(** Bits of the significand and exponent of the smallest subnormal. *)
Definition prec : Z := 53.
Definition emin : Z := -1074.

Definition pow2 (e : Z) : Q := (2 ^ e)%Q.

(** The integer nearest to [q], the even one of two that are equally
    near. *)
Definition rne (q : Q) : Z :=
  let f := Qfloor q in
  match (q - inject_Z f ?= 1 # 2)%Q with
  | Lt => f
  | Gt => f + 1
  | Eq => if Z.even f then f else f + 1
  end.

(** [floor (log2 |q|)] for a non-zero [q]. *)
Definition ilog2 (q : Q) : Z :=
  let k := Z.log2 (Z.abs (Qnum q)) - Z.log2 (Z.pos (Qden q)) in
  if Qle_bool (pow2 k) (Qabs q) then k else k - 1.

(** The exponent of the unit in the last place of the doubles around [q]:
    53 significant bits, but no place below [2^emin]. *)
Definition exponent (q : Q) : Z := Z.max emin (ilog2 q - (prec - 1)).

(** The double nearest to [q], in lowest terms. *)
Definition round (q : Q) : Q :=
  let q := Qred q in
  if Qeq_bool q 0 then 0%Q
  else Qred (inject_Z (rne (q / pow2 (exponent q))) * pow2 (exponent q)).

Arguments round : simpl never.

End Float.

(* ------------------------------------------------------------------ *)
(** ** Python: exceptions and arithmetic on floats *)

Module Py.

Record exn : Type := Exception { exn_class : string; exn_msg : string }.

Definition result (A : Type) : Type := (exn + A)%type.

Definition ret {A : Type} (a : A) : result A := inr a.

Definition raise {A : Type} (cls msg : string) : result A :=
  inl {| exn_class := cls; exn_msg := msg |}.

Definition bind {A B : Type} (c : result A) (k : A -> result B) : result B :=
  match c with
  | inl e => inl e
  | inr a => k a
  end.

(** [range(a, b)] *)
Definition range (a b : Z) : list Z :=
  map (fun k => a + Z.of_nat k) (seq 0 (Z.to_nat (b - a))).

(** [str(n)] of an integer. *)
Definition str (n : Z) : string := NilZero.string_of_int (Z.to_int n).

(** [float(n)] of an integer: the nearest double. *)
Definition float (n : Z) : Q := Float.round (inject_Z n).

(** [x * y] on floats. *)
Definition mul (x y : Q) : Q := Float.round (x * y).

(** [x > y] on floats. *)
Definition gt (x y : Q) : bool := negb (Qle_bool x y).

(** [x / y] on floats: one rounded division; Python raises on a zero
    divisor. *)
Definition truediv (x y : Q) : result Q :=
  if Qeq_bool y 0 then raise "ZeroDivisionError" "float division by zero"
  else ret (Float.round (x / y)).

(** [b_idx % k == 0] for integers; [%] raises on a zero modulus. *)
Definition mod_is_zero (b_idx k : Z) : result bool :=
  if k =? 0 then raise "ZeroDivisionError" "integer modulo by zero"
  else ret (b_idx mod k =? 0).

Arguments float : simpl never.
Arguments mul : simpl never.
Arguments truediv : simpl never.

End Py.

Notation "x <- c ;; k" := (Py.bind c (fun x => k))
  (at level 61, c at next level, right associativity).
Notation "' pat <- c ;; k" := (Py.bind c (fun x => match x with pat => k end))
  (at level 61, pat pattern, c at next level, right associativity).

(* ------------------------------------------------------------------ *)
(** ** [statistics.mean] *)

Module Statistics.

(** The exact sum of the data: [statistics._sum] adds the values as
    fractions, so nothing is rounded while summing. *)
Definition Qsum (data : list Q) : Q := fold_right Qplus 0%Q data.

(** [mean(data)]: raises [StatisticsError] on no data; otherwise the exact
    sum is divided by the number of points, still as a fraction, and the
    quotient is converted to the nearest float. *)
Definition mean (data : list Q) : Py.result Q :=
  match data with
  | [] => Py.raise "StatisticsError" "mean requires at least one data point"
  | _ :: _ => Py.ret (Float.round (Qsum data / inject_Z (Z.of_nat (length data))))
  end.

End Statistics.

(* ------------------------------------------------------------------ *)
(** ** numpy: float64 values, division, maximum *)

Module Np.

(** A float64: a finite value, an infinity or not-a-number. *)
Inductive float64 : Type :=
| Fin (q : Q)
| PInf
| NInf
| NaN.

(** [float(a) / float(b)] for int64 counts: both are converted to the
    nearest double and divided with one rounding.  numpy does not raise on
    a zero divisor, it yields [nan] for [0/0] and a signed infinity
    otherwise. *)
Definition true_divide (a b : Z) : float64 :=
  if b =? 0 then
    if a =? 0 then NaN else if 0 <? a then PInf else NInf
  else Fin (Float.round (Py.float a / Py.float b)).

(** [x / 2.] *)
Definition halve (x : float64) : float64 :=
  match x with
  | Fin q => Fin (Float.round (q / 2))
  | other => other
  end.

(** [np.maximum]: a [nan] operand wins. *)
Definition maximum (x y : float64) : float64 :=
  match x, y with
  | NaN, _ | _, NaN => NaN
  | PInf, _ | _, PInf => PInf
  | NInf, z | z, NInf => z
  | Fin a, Fin b => if Qle_bool a b then Fin b else Fin a
  end.

(** [a.max()] over all the entries; a zero-size array has no maximum. *)
Definition amax (a : list float64) : Py.result float64 :=
  match a with
  | [] => Py.raise "ValueError"
            "zero-size array to reduction operation maximum which has no identity"
  | x :: rest => Py.ret (fold_left maximum rest x)
  end.

(** [x > y]: every comparison with [nan] is false. *)
Definition greater (x y : float64) : bool :=
  match x, y with
  | NaN, _ | _, NaN => false
  | Fin a, Fin b => Py.gt a b
  | PInf, PInf => false
  | PInf, _ => true
  | _, PInf => false
  | NInf, _ => false
  | Fin _, NInf => true
  end.

(** [cm.sum(axis=1)]: the sum of each row. *)
Definition row_sum (row : list Z) : Z := fold_right Z.add 0 row.

(** [cm.astype('float') / cm.sum(axis=1)[:, np.newaxis]]: every entry of a
    row divided by that row's sum. *)
Definition normalize_rows (cm : list (list Z)) : list (list float64) :=
  map (fun row => map (fun x => true_divide x (row_sum row)) row) cm.

(** [cm.astype('float')] alone. *)
Definition astype_float (cm : list (list Z)) : list (list float64) :=
  map (map (fun x => Fin (Py.float x))) cm.

(** [a.shape[1]] of a two-dimensional array held as its rows. *)
Definition shape1 {A : Type} (a : list (list A)) : nat :=
  match a with
  | [] => 0
  | row :: _ => length row
  end.

End Np.

(* ------------------------------------------------------------------ *)
(** ** scikit-learn: [unique_labels] and [confusion_matrix] *)

Module Sklearn.

(** Insertion into a strictly increasing list, dropping a duplicate. *)
Fixpoint insert_label (x : Z) (l : list Z) : list Z :=
  match l with
  | [] => [x]
  | y :: l' =>
      if x <? y then x :: y :: l'
      else if x =? y then y :: l'
      else y :: insert_label x l'
  end.

(** [np.unique]: the sorted distinct values. *)
Definition unique (l : list Z) : list Z := fold_right insert_label [] l.

(** [unique_labels(y_true, y_pred)]: the sorted union of the labels that
    occur in either array. *)
Definition unique_labels (y_true y_pred : list Z) : list Z :=
  unique (y_true ++ y_pred).

(** Number of examples with true label [t] and predicted label [p]. *)
Definition count_pair (t p : Z) (pairs : list (Z * Z)) : Z :=
  Z.of_nat (length (filter (fun tp => (fst tp =? t) && (snd tp =? p)) pairs)).

(** [confusion_matrix(y_true, y_pred)] with [labels=None]: entry [(i, j)]
    counts the examples whose true label is the [i]-th label and whose
    predicted label is the [j]-th label, over the labels that occur. *)

(** [confusion_matrix(y_true, y_pred)] with [labels=None]: entry [(i, j)]
    counts the examples whose true label is the [i]-th label and whose
    predicted label is the [j]-th label, over the labels that occur.  The
    two arrays must have one length, and there must be at least one
    sample. *)
Definition confusion_matrix (y_true y_pred : list Z) : Py.result (list (list Z)) :=
  if negb (length y_true =? length y_pred)%nat then
    Py.raise "ValueError"
      ("Found input variables with inconsistent numbers of samples: ["
       ++ Py.str (Z.of_nat (length y_true)) ++ ", "
       ++ Py.str (Z.of_nat (length y_pred)) ++ "]")%string
  else
    match y_true with
    | [] => Py.raise "ValueError"
              "zero-size array to reduction operation minimum which has no identity"
    | _ :: _ =>
        let labels := unique_labels y_true y_pred in
        let pairs := combine y_true y_pred in
        Py.ret (map (fun t => map (fun p => count_pair t p pairs) labels) labels)
    end.

End Sklearn.

(* ------------------------------------------------------------------ *)
(** ** matplotlib: tick labels *)

Module Plt.

(** [ax.set(xticks=np.arange(n), xticklabels=labels)] (and the same for
    the other axis): the ticks are fixed first, and the labels must then
    be as many as the ticks. *)
Definition set_ticklabels (nticks : nat) (labels : list string)
  : Py.result (list string) :=
  if (length labels =? nticks)%nat then Py.ret labels
  else Py.raise "ValueError"
         ("The number of FixedLocator locations ("
          ++ Py.str (Z.of_nat nticks)
          ++ "), usually from a call to set_ticks, does not match the number of labels ("
          ++ Py.str (Z.of_nat (length labels)) ++ ").")%string.

End Plt.

(* ------------------------------------------------------------------ *)
(** ** torch: loaders, batching, reshaping, arg-max, element-wise equality *)

Module Torch.

(** A constructed [DataLoader(dataset, shuffle=True, ...)].  Its random
    sampler refuses a dataset without samples, so a loader that exists
    holds at least one. *)
Record DataLoader (A : Type) : Type := {
  dataset : list A;
  dataset_nonempty : dataset <> []
}.

Arguments dataset {A}.
Arguments dataset_nonempty {A}.

(** The loader over the samples [x :: l]. *)
Definition loader_of {A : Type} (x : A) (l : list A) : DataLoader A :=
  {| dataset := x :: l; dataset_nonempty := not_eq_sym (@nil_cons A x l) |}.

(** [DataLoader(dataset, shuffle=True)]: building the random sampler
    raises on an empty dataset. *)
Definition new_DataLoader {A : Type} (dataset : list A) : Py.result (DataLoader A) :=
  match dataset with
  | [] => Py.raise "ValueError"
            "num_samples should be a positive integer value, but got num_samples=0"
  | x :: l => Py.ret (loader_of x l)
  end.

(** Consecutive groups of [n] elements, the last one possibly shorter.
    [fuel] bounds the number of groups. *)
Fixpoint chunk {A : Type} (fuel n : nat) (l : list A) : list (list A) :=
  match fuel with
  | O => []
  | S fuel' =>
      match l with
      | [] => []
      | _ :: _ => firstn n l :: chunk fuel' n (skipn n l)
      end
  end.

(** The batches a sampler order is cut into ([drop_last=False]). *)
Definition batched {A : Type} (n : nat) (l : list A) : list (list A) :=
  chunk (length l) n l.

(** [dataset[i]] for each index the sampler yields. *)
Definition take {A : Type} (dataset : list A) (indices : list nat) : list A :=
  flat_map (fun i => match nth_error dataset i with
                     | Some e => [e]
                     | None => []
                     end) indices.

(** [t.view(-1, ncols)] on the flat data of a tensor: rows of [ncols]
    entries; the row count cannot be inferred for an empty tensor or when
    [ncols] does not divide the size. *)
Definition view (ncols : nat) (flat : list Q) : Py.result (list (list Q)) :=
  if ((0 <? length flat) && (length flat mod ncols =? 0))%nat
  then Py.ret (batched ncols flat)
  else if (length flat =? 0)%nat then
    Py.raise "RuntimeError"
      ("cannot reshape tensor of 0 elements into shape [-1, "
       ++ Py.str (Z.of_nat ncols)
       ++ "] because the unspecified dimension size -1 can be any value and is ambiguous")%string
  else
    Py.raise "RuntimeError"
      ("shape '[-1, " ++ Py.str (Z.of_nat ncols) ++ "]' is invalid for input of size "
       ++ Py.str (Z.of_nat (length flat)))%string.

Fixpoint argmax_from (best : Q) (best_i i : Z) (row : list Q) : Z :=
  match row with
  | [] => best_i
  | x :: row' =>
      if Py.gt x best then argmax_from x i (i + 1) row'
      else argmax_from best best_i (i + 1) row'
  end.

(** [row.max()[1]]: the index of the first maximal entry.  Rows produced by
    [view] with a positive column count are never empty. *)
Definition argmax (row : list Q) : Z :=
  match row with
  | [] => 0
  | x :: row' => argmax_from x 0 1 row'
  end.

(** [pred.eq(target)] on one-dimensional tensors: element-wise, a tensor of
    one element is broadcast, any other size mismatch raises. *)
Definition eq (pred target : list Z) : Py.result (list bool) :=
  if (length pred =? length target)%nat then
    Py.ret (map (fun pt => fst pt =? snd pt) (combine pred target))
  else
    match pred, target with
    | [p], _ => Py.ret (map (fun t => p =? t) target)
    | _, [t] => Py.ret (map (fun p => p =? t) pred)
    | _, _ => Py.raise "RuntimeError"
                ("The size of tensor a (" ++ Py.str (Z.of_nat (length pred))
                 ++ ") must match the size of tensor b ("
                 ++ Py.str (Z.of_nat (length target))
                 ++ ") at non-singleton dimension 0")%string
    end.

(** [t.sum()] of a boolean tensor: the number of true entries. *)
Definition sum (hits : list bool) : Z :=
  Z.of_nat (length (filter (fun b => b) hits)).

End Torch.

(* ------------------------------------------------------------------ *)
(** ** Start-up: the checks on the arguments and the output directory *)

Module Startup.

Fixpoint ends_with (c : Ascii.ascii) (s : string) : bool :=
  match s with
  | EmptyString => false
  | String x EmptyString => Ascii.eqb x c
  | String _ rest => ends_with c rest
  end.

(** [os.path.join(a, b)] on POSIX paths: an absolute [b] replaces [a], and
    no separator is added after an empty [a] or one that ends in a slash. *)
Definition path_join (a b : string) : string :=
  if String.prefix "/" b then b
  else if String.eqb a EmptyString || ends_with "/"%char a then (a ++ b)%string
  else (a ++ "/" ++ b)%string.

(** [activity_classes] *)
Definition activity_classes : list string :=
  ["Eyes Closed"; "Forward"; "Shoulder"; "Left Mirror"; "Lap"; "Speedometer";
   "Radio"; "Rearview"; "Right Mirror"]%string.

(** [args], the namespace of the parsed command line; [num_classes] and
    [cuda] are the attributes that the script adds to it. *)
Record Namespace : Type := {
  dataset_root_path : option string;
  version : option string;
  output_dir : option string;
  snapshot : option string;
  batch_size : Z;
  epochs : Z;
  learning_rate : Q;
  momentum : Q;
  weight_decay : Q;
  log_schedule : Z;
  seed : Z;
  no_cuda : bool;
  random_transforms : bool;
  num_classes : option Z;
  cuda : option bool
}.

Definition set_num_classes (n : Z) (a : Namespace) : Namespace :=
  {| dataset_root_path := dataset_root_path a; version := version a;
     output_dir := output_dir a; snapshot := snapshot a;
     batch_size := batch_size a; epochs := epochs a;
     learning_rate := learning_rate a; momentum := momentum a;
     weight_decay := weight_decay a; log_schedule := log_schedule a;
     seed := seed a; no_cuda := no_cuda a;
     random_transforms := random_transforms a;
     num_classes := Some n; cuda := cuda a |}.

Definition set_cuda (b : bool) (a : Namespace) : Namespace :=
  {| dataset_root_path := dataset_root_path a; version := version a;
     output_dir := output_dir a; snapshot := snapshot a;
     batch_size := batch_size a; epochs := epochs a;
     learning_rate := learning_rate a; momentum := momentum a;
     weight_decay := weight_decay a; log_schedule := log_schedule a;
     seed := seed a; no_cuda := no_cuda a;
     random_transforms := random_transforms a;
     num_classes := num_classes a; cuda := Some b |}.

Definition set_output_dir (d : string) (a : Namespace) : Namespace :=
  {| dataset_root_path := dataset_root_path a; version := version a;
     output_dir := Some d; snapshot := snapshot a;
     batch_size := batch_size a; epochs := epochs a;
     learning_rate := learning_rate a; momentum := momentum a;
     weight_decay := weight_decay a; log_schedule := log_schedule a;
     seed := seed a; no_cuda := no_cuda a;
     random_transforms := random_transforms a;
     num_classes := num_classes a; cuda := cuda a |}.

(** [not all(args.version != x for x in ['1_0', '1_1'])] *)
Definition version_recognized (v : option string) : bool :=
  match v with
  | Some s => String.eqb s "1_0" || String.eqb s "1_1"
  | None => false
  end.

(** The output directory the script settles on: the one given, or
    [./experiments/gazenet/<now>] with [now] the start time to the minute. *)
Definition chosen_output_dir (now : string) (a : Namespace) : string :=
  match output_dir a with
  | Some d => d
  | None => path_join (path_join (path_join "." "experiments") "gazenet") now
  end.

Section Setup.

(** The file system: [os.path.exists], [os.makedirs] and writing a text
    file; the last two may fail and leave the file system in some state. *)
Variable FS : Type.
Variable path_exists : FS -> string -> bool.
Variable makedirs : FS -> string -> FS * Py.result unit.
Variable write_text : FS -> string -> string -> FS * Py.result unit.
(** [json.dumps(vars(args))] *)
Variable json_dump : Namespace -> string.

(** The module-level code between [parser.parse_args()] and
    [torch.manual_seed]: the checks, the output directory, [config.json],
    run with assertions enabled.  [now] is
    [datetime.now().strftime("%Y-%m-%d-%H:%M")]. *)
Definition setup (now : string) (cuda_available : bool) (fs : FS) (args : Namespace)
  : FS * Py.result Namespace :=
  match dataset_root_path args with
  | None => (fs, Py.raise "AssertionError" "Path to dataset not provided!")
  | Some _ =>
      if version_recognized (version args) then
        let args := set_num_classes (Z.of_nat (length activity_classes)) args in
        let args := set_cuda (negb (no_cuda args) && cuda_available) args in
        let dir := chosen_output_dir now args in
        let args := set_output_dir dir args in
        if path_exists fs dir then
          (fs, Py.raise "AssertionError" "Output directory already exists!")
        else
          match makedirs fs dir with
          | (fs, inl e) => (fs, inl e)
          | (fs, inr _) =>
              match write_text fs (path_join dir "config.json") (json_dump args) with
              | (fs, inl e) => (fs, inl e)
              | (fs, inr _) => (fs, inr args)
              end
          end
      else (fs, Py.raise "AssertionError" "Model version not recognized!")
  end.

End Setup.

Arguments setup {FS}.

End Startup.

(* ------------------------------------------------------------------ *)
(** ** A small file system: the set of the paths that exist *)

Module Disk.

Definition FS : Type := list string.

Definition path_exists (fs : FS) (p : string) : bool :=
  existsb (String.eqb p) fs.

Definition makedirs (fs : FS) (p : string) : FS * Py.result unit :=
  (p :: fs, inr tt).

Definition write_text (fs : FS) (p content : string) : FS * Py.result unit :=
  (p :: fs, inr tt).

Definition json_dump (a : Startup.Namespace) : string :=
  match Startup.output_dir a with
  | Some d => d
  | None => EmptyString
  end.

(** The defaults of the parser, with a dataset path and a model version. *)
Definition args : Startup.Namespace :=
  {| Startup.dataset_root_path := Some "data"%string;
     Startup.version := Some "1_1"%string;
     Startup.output_dir := None;
     Startup.snapshot := None;
     Startup.batch_size := 64;
     Startup.epochs := 50;
     Startup.learning_rate := (5 # 10000)%Q;
     Startup.momentum := (9 # 10)%Q;
     Startup.weight_decay := (5 # 10000)%Q;
     Startup.log_schedule := 10;
     Startup.seed := 1;
     Startup.no_cuda := false;
     Startup.random_transforms := false;
     Startup.num_classes := None;
     Startup.cuda := None |}.

Abbreviation setup now fs a :=
  (Startup.setup path_exists makedirs write_text json_dump now false fs a).

End Disk.
(* ------------------------------------------------------------------ *)
(** ** The script *)

Module GazeNet.

(** [args.num_classes = len(activity_classes)] *)
Definition num_classes : nat := Eval cbv in length Startup.activity_classes.

(** What [plot_confusion_matrix] draws and saves: the matrix shown by
    [imshow], the labels of the ticks of both axes and, per cell, whether
    its annotation is white (otherwise black).  The title and the colour
    map are left out. *)
Record Figure : Type := {
  im : list (list Np.float64);
  ticklabels : list string;
  white_text : list (list bool)
}.

(** [plot_confusion_matrix(y_true, y_pred, classes, normalize)]: one tick
    per row and per column of the matrix, labelled with [classes]. *)
Definition plot_confusion_matrix (y_true y_pred : list Z) (classes : list string)
    (normalize : bool) : Py.result Figure :=
  cm <- Sklearn.confusion_matrix y_true y_pred ;;
  let cm := if normalize then Np.normalize_rows cm else Np.astype_float cm in
  _ <- Plt.set_ticklabels (Np.shape1 cm) classes ;;
  labels <- Plt.set_ticklabels (length cm) classes ;;
  top <- Np.amax (concat cm) ;;
  let thresh := Np.halve top in
  Py.ret {| im := cm;
            ticklabels := labels;
            white_text := map (map (fun c => Np.greater c thresh)) cm |}.

Section Script.

Variable X : Type.          (** one input image *)
Variable Params : Type.     (** [netGaze.state_dict()] *)
Variable OptState : Type.   (** the momentum buffers of [optim.SGD] *)
Variable Rng : Type.        (** torch's generator, seeded by [manual_seed] *)

(** [netGaze(data)[0]]: the flat data of the score tensor, a function of
    the parameters, the train/eval flag, the generator and the batch. *)
Variable forward : Params -> bool -> Rng -> list X -> list Q * Rng.
(** [F.nll_loss(scores, targets).item()], a finite float; torch raises on
    a target that is not a class index. *)
Variable nll_loss : list (list Q) -> list Z -> Py.result Q.
(** [loss.backward(); optimizer.step()] after [optimizer.zero_grad()]:
    the parameters and momentum buffers after one SGD step on the batch
    (the generator is the one the forward pass started from). *)
Variable sgd_step : Params -> OptState -> Rng -> list X -> list Z -> Params * OptState.
(** [torch.randperm(n)], drawn by the loader's random sampler. *)
Variable randperm : Rng -> nat -> list nat * Rng.

Record Args : Type := { batch_size : positive; epochs : Z; log_schedule : Z }.

Variable args : Args.

(** Writes to [logs.txt], to the checkpoint and to the figures, and the
    calls of the two passes, in the order they happen. *)
Inductive Event : Type :=
| Call_train (epoch : Z) (p : Params)
| Return_train (p : Params) (avg_loss acc : Q)
| Call_val (p : Params)
| Return_val (p : Params) (acc : Q)
| Forward (training : bool) (p : Params) (data : list X)
| Optimizer_step (p : Params)
| Log_batch (epoch b_idx : Z) (loss : Q)
| Log_avg_loss (avg_loss : Q)
| Log_accuracy (acc : Q)
| Log_val (correct : Z) (size : nat) (acc : Q)
| Torch_save (p : Params)
| Savefig_confusion_matrix (fig : Figure)
| Savefig_train_loss (train_loss : list Q)
| Savefig_trainval_accuracy (train_acc val_acc : list Q).

(** The mutable state the script shares between [train], [val] and the
    main loop. *)
Record World : Type := {
  netGaze : Params;
  training : bool;
  optimizer : OptState;
  rng : Rng;
  best_accuracy : Q;
  trace : list Event
}.

Definition emit (e : Event) (w : World) : World :=
  {| netGaze := netGaze w; training := training w; optimizer := optimizer w;
     rng := rng w; best_accuracy := best_accuracy w;
     trace := trace w ++ [e] |}.

Definition set_rng (g : Rng) (w : World) : World :=
  {| netGaze := netGaze w; training := training w; optimizer := optimizer w;
     rng := g; best_accuracy := best_accuracy w; trace := trace w |}.

Definition set_training (b : bool) (w : World) : World :=
  {| netGaze := netGaze w; training := b; optimizer := optimizer w;
     rng := rng w; best_accuracy := best_accuracy w; trace := trace w |}.

Definition set_net (p : Params) (o : OptState) (w : World) : World :=
  {| netGaze := p; training := training w; optimizer := o;
     rng := rng w; best_accuracy := best_accuracy w; trace := trace w |}.

Definition set_best (a : Q) (w : World) : World :=
  {| netGaze := netGaze w; training := training w; optimizer := optimizer w;
     rng := rng w; best_accuracy := a; trace := trace w |}.

(** One iteration over a loader built with [batch_size=args.batch_size]
    and [shuffle=True]: the dataset in the order of a fresh permutation,
    cut into batches and collated into (data, targets). *)
Definition iterate (loader : Torch.DataLoader (X * Z)) (g : Rng)
  : list (list X * list Z) * Rng :=
  let (perm, g') := randperm g (length (Torch.dataset loader)) in
  (map (@split X Z)
       (Torch.batched (Pos.to_nat (batch_size args))
                      (Torch.take (Torch.dataset loader) perm)),
   g').

(** The curves the main loop keeps. *)
Record Curves : Type := {
  train_loss : list Q;
  train_acc : list Q;
  val_acc : list Q
}.

Section Passes.

(** [train_loader] and [val_loader], once constructed. *)
Variables train_loader val_loader : Torch.DataLoader (X * Z).

(** The body of [train]'s loop over [enumerate(train_loader)]. *)
Fixpoint train_loop (epoch : Z) (batches : list (list X * list Z)) (b_idx : Z)
    (w : World) (correct : Z) (epoch_loss : list Q)
  : Py.result (World * Z * list Q) :=
  match batches with
  | [] => Py.ret (w, correct, epoch_loss)
  | (data, targets) :: rest =>
      let g := rng w in
      let (out, g') := forward (netGaze w) (training w) g data in
      let w := emit (Forward (training w) (netGaze w) data) (set_rng g' w) in
      scores <- Torch.view num_classes out ;;
      loss <- nll_loss scores targets ;;
      let pred := map Torch.argmax scores in
      hits <- Torch.eq pred targets ;;
      let correct := correct + Torch.sum hits in
      let epoch_loss := epoch_loss ++ [loss] in
      let (p', o') := sgd_step (netGaze w) (optimizer w) g data targets in
      let w := emit (Optimizer_step p') (set_net p' o' w) in
      log_now <- Py.mod_is_zero b_idx (log_schedule args) ;;
      let w := if log_now : bool then emit (Log_batch epoch b_idx loss) w else w in
      train_loop epoch rest (b_idx + 1) w correct epoch_loss
  end.

(** [train(netGaze, epoch)]: returns [(netGaze, avg_loss, train_accuracy)];
    the network is the one in the returned world. *)
Definition train (w : World) (epoch : Z) : Py.result (World * Q * Q) :=
  let w := emit (Call_train epoch (netGaze w)) w in
  let w := set_training true w in
  let (batches, g) := iterate train_loader (rng w) in
  '(w, correct, epoch_loss) <- train_loop epoch batches 0 (set_rng g w) 0 [] ;;
  avg_loss <- Statistics.mean epoch_loss ;;
  let w := emit (Log_avg_loss avg_loss) w in
  train_accuracy <-
    Py.truediv (Py.mul 100 (Py.float correct))
               (Py.float (Z.of_nat (length (Torch.dataset train_loader)))) ;;
  let w := emit (Log_accuracy train_accuracy) w in
  Py.ret (emit (Return_train (netGaze w) avg_loss train_accuracy) w,
          avg_loss, train_accuracy).

(** The body of [val]'s loop over [enumerate(val_loader)]. *)
Fixpoint val_loop (batches : list (list X * list Z)) (w : World)
    (correct : Z) (pred_all target_all : list Z)
  : Py.result (World * Z * list Z * list Z) :=
  match batches with
  | [] => Py.ret (w, correct, pred_all, target_all)
  | (data, target) :: rest =>
      let (out, g') := forward (netGaze w) (training w) (rng w) data in
      let w := emit (Forward (training w) (netGaze w) data) (set_rng g' w) in
      scores <- Torch.view num_classes out ;;
      let pred := map Torch.argmax scores in
      hits <- Torch.eq pred target ;;
      val_loop rest w (correct + Torch.sum hits)
               (pred_all ++ pred) (target_all ++ target)
  end.

(** [val(netGaze)]: returns [val_accuracy]. *)
Definition val (w : World) : Py.result (World * Q) :=
  let w := emit (Call_val (netGaze w)) w in
  let w := set_training false w in
  let (batches, g) := iterate val_loader (rng w) in
  '(w, correct, pred_all, target_all) <- val_loop batches (set_rng g w) 0 [] [] ;;
  val_accuracy <-
    Py.truediv (Py.mul 100 (Py.float correct))
               (Py.float (Z.of_nat (length (Torch.dataset val_loader)))) ;;
  let w := emit (Log_val correct (length (Torch.dataset val_loader)) val_accuracy) w in
  if Py.gt val_accuracy (best_accuracy w) then
    let w := set_best val_accuracy w in
    let w := emit (Torch_save (netGaze w)) w in
    fig <- plot_confusion_matrix target_all pred_all Startup.activity_classes true ;;
    let w := emit (Savefig_confusion_matrix fig) w in
    Py.ret (emit (Return_val (netGaze w) val_accuracy) w, val_accuracy)
  else
    Py.ret (emit (Return_val (netGaze w) val_accuracy) w, val_accuracy).

(** The body of [for i in range(1, args.epochs+1)]. *)
Fixpoint main_loop (indices : list Z) (w : World) (c : Curves)
  : Py.result (World * Curves) :=
  match indices with
  | [] => Py.ret (w, c)
  | i :: rest =>
      '(w, avg_loss, acc) <- train w i ;;
      let tl := train_loss c ++ [avg_loss] in
      let w := emit (Savefig_train_loss tl) w in
      let ta := train_acc c ++ [acc] in
      '(w, va) <- val w ;;
      let vs := val_acc c ++ [va] in
      let w := emit (Savefig_trainval_accuracy ta vs) w in
      main_loop rest w {| train_loss := tl; train_acc := ta; val_acc := vs |}
  end.

Definition main (w : World) : Py.result (World * Curves) :=
  main_loop (Py.range 1 (epochs args + 1)) w
            {| train_loss := []; train_acc := []; val_acc := [] |}.

End Passes.

(** The state when the main block starts: the freshly built network in
    training mode, a new optimizer, the seeded generator, and the global
    [best_accuracy = 0.0]. *)
Definition initial_world (p0 : Params) (o0 : OptState) (g0 : Rng) : World :=
  {| netGaze := p0; training := true; optimizer := o0; rng := g0;
     best_accuracy := 0; trace := [] |}.

(** The script from the construction of the two loaders on: the loaders
    are built over the two splits before anything else runs, then the main
    block starts. *)
Definition script (train_set val_set : list (X * Z)) (p0 : Params) (o0 : OptState)
    (g0 : Rng) : Py.result (World * Curves) :=
  train_loader <- Torch.new_DataLoader train_set ;;
  val_loader <- Torch.new_DataLoader val_set ;;
  main train_loader val_loader (initial_world p0 o0 g0).

End Script.

Arguments Call_train {X Params}.
Arguments Return_train {X Params}.
Arguments Call_val {X Params}.
Arguments Return_val {X Params}.
Arguments Forward {X Params}.
Arguments Optimizer_step {X Params}.
Arguments Log_batch {X Params}.
Arguments Log_avg_loss {X Params}.
Arguments Log_accuracy {X Params}.
Arguments Log_val {X Params}.
Arguments Torch_save {X Params}.
Arguments Savefig_confusion_matrix {X Params}.
Arguments Savefig_train_loss {X Params}.
Arguments Savefig_trainval_accuracy {X Params}.
Arguments netGaze {X Params OptState Rng}.
Arguments training {X Params OptState Rng}.
Arguments optimizer {X Params OptState Rng}.
Arguments rng {X Params OptState Rng}.
Arguments best_accuracy {X Params OptState Rng}.
Arguments trace {X Params OptState Rng}.
Arguments emit {X Params OptState Rng}.
Arguments set_rng {X Params OptState Rng}.
Arguments set_training {X Params OptState Rng}.
Arguments set_net {X Params OptState Rng}.
Arguments set_best {X Params OptState Rng}.
Arguments initial_world {X Params OptState Rng}.
Arguments iterate {X Rng}.
Arguments train_loop {X Params OptState Rng}.
Arguments train {X Params OptState Rng}.
Arguments val_loop {X Params OptState Rng}.
Arguments val {X Params OptState Rng}.
Arguments main_loop {X Params OptState Rng}.
Arguments main {X Params OptState Rng}.
Arguments script {X Params OptState Rng}.

End GazeNet.

(* ------------------------------------------------------------------ *)
(** ** A small concrete network and datasets

    Images are integers; the network reads the class off the image until
    its second SGD step and answers class 0 from then on.  The parameters
    count the steps taken. *)

Module Toy.

Definition one_hot (c : Z) : list Q :=
  map (fun k => if k =? c then 0%Q else (-1)%Q) (Py.range 0 9).

Definition classify (p x : Z) : Z := if p <=? 1 then x else 0.

Definition forward (p : Z) (training : bool) (g : unit) (data : list Z)
  : list Q * unit :=
  (flat_map (fun x => one_hot (classify p x)) data, g).

(** Mean over the batch of minus the score of the target class; a target
    that is not one of the nine classes is refused. *)
Definition nll_loss (scores : list (list Q)) (targets : list Z) : Py.result Q :=
  if negb (length scores =? length targets)%nat then
    Py.raise "ValueError"
      ("Expected input batch_size (" ++ Py.str (Z.of_nat (length scores))
       ++ ") to match target batch_size (" ++ Py.str (Z.of_nat (length targets))
       ++ ").")%string
  else
    match find (fun t => negb ((0 <=? t) && (t <? 9))) targets with
    | Some t => Py.raise "IndexError" ("Target " ++ Py.str t ++ " is out of bounds.")%string
    | None =>
        Py.ret (Float.round
                  (Statistics.Qsum
                     (map (fun rt => Qopp (nth (Z.to_nat (snd rt)) (fst rt) 0%Q))
                          (combine scores targets))
                   / inject_Z (Z.of_nat (length scores))))
    end.

Definition sgd_step (p : Z) (o : unit) (g : unit) (data targets : list Z)
  : Z * unit := (p + 1, o).

Definition randperm (g : unit) (n : nat) : list nat * unit := (seq 0 n, g).

Definition args (n : Z) : GazeNet.Args :=
  {| GazeNet.batch_size := 4; GazeNet.epochs := n; GazeNet.log_schedule := 10 |}.

Definition Loader : Type := Torch.DataLoader (Z * Z).

(** Two training examples. *)
Definition train_loader : Loader := Torch.loader_of (0, 0) [(1, 1)].

(** One validation example of each of the nine classes. *)
Definition val_loader : Loader :=
  Torch.loader_of (0, 0) [(1, 1); (2, 2); (3, 3); (4, 4); (5, 5); (6, 6); (7, 7); (8, 8)].

(** Five examples of class 0 and five of class 1. *)
Definition ten : Loader :=
  Torch.loader_of (0, 0)
    [(0, 0); (0, 0); (0, 0); (0, 0); (1, 1); (1, 1); (1, 1); (1, 1); (1, 1)].

(** Six examples of class 0, two of which look like classes 1 and 2, and
    one example of each other class. *)
Definition mixed : Loader :=
  Torch.loader_of (0, 0)
    [(0, 0); (0, 0); (0, 0); (1, 0); (2, 0);
     (1, 1); (2, 2); (3, 3); (4, 4); (5, 5); (6, 6); (7, 7); (8, 8)].

(** No example of class 0, but one example of class 1 looks like class
    0. *)
Definition unseen : Loader :=
  Torch.loader_of (0, 1) [(1, 1); (2, 2); (3, 3); (4, 4); (5, 5); (6, 6); (7, 7); (8, 8)].

Definition World : Type := GazeNet.World Z Z unit unit.

Definition start : World := GazeNet.initial_world 0 tt tt.

Abbreviation train tr :=
  (GazeNet.train forward nll_loss sgd_step randperm (args 3) tr).

Abbreviation val vs := (GazeNet.val forward randperm (args 3) vs).

Abbreviation main n :=
  (GazeNet.main forward nll_loss sgd_step randperm (args n) train_loader val_loader).

Abbreviation script n :=
  (GazeNet.script forward nll_loss sgd_step randperm (args n)).

Definition no_curves : GazeNet.Curves :=
  {| GazeNet.train_loss := []; GazeNet.train_acc := []; GazeNet.val_acc := [] |}.

Abbreviation main_loop indices :=
  (GazeNet.main_loop forward nll_loss sgd_step randperm (args 3)
                     train_loader val_loader indices).

(** A network that has taken two steps: it always answers class 0. *)
Definition always_zero : World :=
  GazeNet.set_net 2 tt start.

End Toy.

(* ------------------------------------------------------------------ *)
(** ** Vocabulary of the statements *)

Module Obs.

Section Events.

Variables X Params : Type.

(** Events that touch the network: a forward pass or an optimizer step. *)
Definition is_model_event (e : GazeNet.Event X Params) : bool :=
  match e with
  | GazeNet.Forward _ _ _ | GazeNet.Optimizer_step _ => true
  | _ => false
  end.

(** Calls and returns of the two passes, as the main loop sees them. *)
Definition is_call (e : GazeNet.Event X Params) : bool :=
  match e with
  | GazeNet.Call_train _ _ | GazeNet.Return_train _ _ _
  | GazeNet.Call_val _ | GazeNet.Return_val _ _ => true
  | _ => false
  end.

(** Writes of the checkpoint file. *)
Definition is_checkpoint (e : GazeNet.Event X Params) : bool :=
  match e with
  | GazeNet.Torch_save _ => true
  | _ => false
  end.

(** Renders of the confusion matrix. *)
Definition is_render (e : GazeNet.Event X Params) : bool :=
  match e with
  | GazeNet.Savefig_confusion_matrix _ => true
  | _ => false
  end.

(** Events of one batch of a pass: they are neither calls, nor
    checkpoint writes, nor renders. *)
Definition is_batch_event (e : GazeNet.Event X Params) : bool :=
  match e with
  | GazeNet.Forward _ _ _ | GazeNet.Optimizer_step _
  | GazeNet.Log_batch _ _ _ => true
  | _ => false
  end.

(** A collated batch: as many targets as images, and at least one. *)
Definition well_formed (b : list X * list Z) : Prop :=
  length (fst b) = length (snd b) /\ fst b <> [].

(** What [val] adds to the trace: the call, one forward pass in evaluation
    mode per batch, the summary line, what was saved, and the return. *)
Definition val_trace (p : Params) (batches : list (list X * list Z))
    (correct : Z) (size : nat) (acc : Q) (saved : list (GazeNet.Event X Params))
  : list (GazeNet.Event X Params) :=
  [GazeNet.Call_val p]
  ++ map (fun b => GazeNet.Forward false p (fst b)) batches
  ++ [GazeNet.Log_val correct size acc]
  ++ saved
  ++ [GazeNet.Return_val p acc].

(** What [train] adds to the trace: the call, the events of the batches,
    the two summary lines, and the return. *)
Definition train_trace (epoch : Z) (p p' : Params)
    (steps : list (GazeNet.Event X Params)) (avg_loss acc : Q)
  : list (GazeNet.Event X Params) :=
  [GazeNet.Call_train epoch p]
  ++ steps
  ++ [GazeNet.Log_avg_loss avg_loss; GazeNet.Log_accuracy acc;
      GazeNet.Return_train p' avg_loss acc].

Definition checkpoint_writes (t : list (GazeNet.Event X Params)) : nat :=
  length (filter is_checkpoint t).

Definition renders (t : list (GazeNet.Event X Params)) : nat :=
  length (filter is_render t).

(** What one epoch of the main loop looks like from outside: its index,
    the parameters [train] was called with, the parameters it returned,
    and the statistics of the two passes. *)
Record Epoch : Type := {
  index : Z;
  before : Params;
  trained : Params;
  avg_loss : Q;
  train_accuracy : Q;
  val_accuracy : Q
}.

Definition calls_of (e : Epoch) : list (GazeNet.Event X Params) :=
  [GazeNet.Call_train (index e) (before e);
   GazeNet.Return_train (trained e) (avg_loss e) (train_accuracy e);
   GazeNet.Call_val (trained e);
   GazeNet.Return_val (trained e) (val_accuracy e)].

(** Each epoch starts from the parameters the previous one ended with. *)
Fixpoint chained (p : Params) (es : list Epoch) : Prop :=
  match es with
  | [] => True
  | e :: es' => before e = p /\ chained (trained e) es'
  end.

End Events.

Arguments is_model_event {X Params}.
Arguments is_call {X Params}.
Arguments is_checkpoint {X Params}.
Arguments is_batch_event {X Params}.
Arguments val_trace {X Params}.
Arguments train_trace {X Params}.
Arguments well_formed {X}.
Arguments is_render {X Params}.
Arguments checkpoint_writes {X Params}.
Arguments renders {X Params}.
Arguments index {Params}.
Arguments before {Params}.
Arguments trained {Params}.
Arguments avg_loss {Params}.
Arguments train_accuracy {Params}.
Arguments val_accuracy {Params}.
Arguments calls_of {X Params}.
Arguments chained {Params}.


Section Contracts.

Variables X Params Rng : Type.
Variable forward : Params -> bool -> Rng -> list X -> list Q * Rng.
Variable nll_loss : list (list Q) -> list Z -> Py.result Q.
Variable randperm : Rng -> nat -> list nat * Rng.

(** The network returns one row of [num_classes] scores per example. *)
Definition one_row_per_example : Prop :=
  forall p b g data,
    length (fst (forward p b g data)) = (GazeNet.num_classes * length data)%nat.

(** [torch.randperm(n)] is a permutation of [0 .. n-1]. *)
Definition permutes : Prop :=
  forall g n, Permutation (fst (randperm g n)) (seq 0 n).

(** A label that is the index of one of the classes. *)
Definition is_class (t : Z) : Prop := 0 <= t < Z.of_nat GazeNet.num_classes.

(** [F.nll_loss] computes a loss for a batch of rows of [num_classes]
    scores with one target per row, each the index of a class. *)
Definition loss_defined : Prop :=
  forall scores targets,
    scores <> [] -> length scores = length targets ->
    Forall (fun row => length row = GazeNet.num_classes) scores ->
    Forall is_class targets ->
    exists loss, nll_loss scores targets = inr loss.

(** Every example of the dataset is labelled with the index of a class. *)
Definition labelled_with_classes (dataset : list (X * Z)) : Prop :=
  Forall (fun e => is_class (snd e)) dataset.

(** Every class labels some example of the dataset. *)
Definition every_class_occurs (dataset : list (X * Z)) : Prop :=
  forall t, is_class t -> In t (map snd dataset).

End Contracts.

Arguments one_row_per_example {X Params Rng}.
Arguments permutes {Rng}.
Arguments labelled_with_classes {X}.
Arguments every_class_occurs {X}.

(** The best-model policy in the words of the design: going through the
    validation accuracies of the epochs in order, a checkpoint is written
    exactly when an accuracy strictly exceeds the running best, which then
    becomes that accuracy. *)
Fixpoint best_after (best : Q) (accs : list Q) : Q :=
  match accs with
  | [] => best
  | a :: rest => if Py.gt a best then best_after a rest else best_after best rest
  end.

Fixpoint writes_expected (best : Q) (accs : list Q) : nat :=
  match accs with
  | [] => 0
  | a :: rest =>
      if Py.gt a best then S (writes_expected a rest)
      else writes_expected best rest
  end.

(** A row of finite zeros. *)
Definition all_zero (row : list Np.float64) : Prop :=
  Forall (fun c => exists q, c = Np.Fin q /\ q == 0) row.

(** Number of examples whose true label is [t]. *)
Definition true_count (t : Z) (y_true : list Z) : Z :=
  Z.of_nat (length (filter (fun y => y =? t) y_true)).

End Obs.

(* ------------------------------------------------------------------ *)
(** ** Progress figures of the two passes *)

Module Progress.

(** [min(args.batch_size*(idx+1), len(val_loader.dataset))]: the count in
    the line that [val] prints after batch [idx]. *)
Definition val_done (batch_size : positive) (idx size : nat) : nat :=
  Nat.min (Pos.to_nat batch_size * (idx + 1)) size.

(** [(b_idx+1) * len(data)]: the count in the line that [train] logs for
    batch [b_idx]. *)
Definition train_done {X : Type} (b_idx : nat) (data : list X) : nat :=
  (b_idx + 1) * length data.

(** Examples consumed once the batches up to index [idx] are done. *)
Definition consumed {X : Type} (batches : list (list X * list Z)) (idx : nat) : nat :=
  length (concat (map fst (firstn (S idx) batches))).

End Progress.

(* ------------------------------------------------------------------ *)
(** ** Reading the prediction log, the matrix and the trace *)

Module Reading.

(** Positions at which prediction and target agree. *)
Definition agreements (pred target : list Z) : Z :=
  Z.of_nat (length (filter (fun pt => fst pt =? snd pt) (combine pred target))).

(** Sum of the entries [cm[i][i]], [cm[i+1][i+1]], ... of the rows given. *)
Fixpoint diagonal_from (i : nat) (rows : list (list Z)) : Z :=
  match rows with
  | [] => 0
  | row :: rest => nth i row 0 + diagonal_from (S i) rest
  end.

Definition diagonal (cm : list (list Z)) : Z := diagonal_from 0 cm.

(** Sum of all the entries. *)
Definition total (cm : list (list Z)) : Z :=
  fold_right Z.add 0 (map Np.row_sum cm).

Section Events.

Variables X Params : Type.

Definition is_log_batch (e : GazeNet.Event X Params) : bool :=
  match e with
  | GazeNet.Log_batch _ _ _ => true
  | _ => false
  end.

Definition is_curve_render (e : GazeNet.Event X Params) : bool :=
  match e with
  | GazeNet.Savefig_train_loss _ | GazeNet.Savefig_trainval_accuracy _ _ => true
  | _ => false
  end.

(** A forward pass in training mode on [p] and an optimizer step per
    batch, each step leaving the parameters the next forward pass sees. *)
Fixpoint training_events (p : Params) (steps : list (list X * Params))
  : list (GazeNet.Event X Params) :=
  match steps with
  | [] => []
  | (data, p') :: rest =>
      GazeNet.Forward true p data :: GazeNet.Optimizer_step p'
        :: training_events p' rest
  end.

(** The lines that a pass of [epoch] writes for its batches when every
    batch whose index is a multiple of [period] is logged: [losses] are the
    losses of the batches from index [b_idx] on. *)
Fixpoint log_lines (epoch period b_idx : Z) (losses : list Q)
  : list (GazeNet.Event X Params) :=
  match losses with
  | [] => []
  | loss :: rest =>
      (if b_idx mod period =? 0 then [GazeNet.Log_batch epoch b_idx loss] else [])
      ++ log_lines epoch period (b_idx + 1) rest
  end.

(** The epochs whose validation accuracy strictly exceeds the best one
    before them. *)
Fixpoint improving (best : Q) (es : list (Obs.Epoch Params))
  : list (Obs.Epoch Params) :=
  match es with
  | [] => []
  | e :: rest =>
      if Py.gt (Obs.val_accuracy e) best
      then e :: improving (Obs.val_accuracy e) rest
      else improving best rest
  end.

(** The two curve figures as rendered after the [k]-th epoch of a run
    that started from curves of [n_loss], [n_train] and [n_val] points and
    ended with the curves [c]. *)
Definition curves_after (n_loss n_train n_val : nat) (c : GazeNet.Curves) (k : nat)
  : list (GazeNet.Event X Params) :=
  [GazeNet.Savefig_train_loss (firstn (n_loss + k) (GazeNet.train_loss c));
   GazeNet.Savefig_trainval_accuracy
     (firstn (n_train + k) (GazeNet.train_acc c))
     (firstn (n_val + k) (GazeNet.val_acc c))].

End Events.

Arguments is_log_batch {X Params}.
Arguments is_curve_render {X Params}.
Arguments training_events {X Params}.
Arguments log_lines {X Params}.
Arguments improving {Params}.
Arguments curves_after {X Params}.

End Reading.

(* ------------------------------------------------------------------ *)
(** ** What the network computes along a pass *)

Module Replay.

Section Network.

Variables X Params OptState Rng : Type.
Variable forward : Params -> bool -> Rng -> list X -> list Q * Rng.
Variable sgd_step : Params -> OptState -> Rng -> list X -> list Z -> Params * OptState.

(** The score tensors of a training pass over [batches], one per batch:
    each batch is scored in training mode by the network as the steps on
    the batches before it have left it. *)
Fixpoint training_outputs (batches : list (list X * list Z))
    (p : Params) (o : OptState) (g : Rng) : list (list Q) :=
  match batches with
  | [] => []
  | (data, targets) :: rest =>
      let (out, g') := forward p true g data in
      let (p', o') := sgd_step p o g data targets in
      out :: training_outputs rest p' o' g'
  end.

(** The score tensors of a validation pass: every batch is scored in
    evaluation mode by the same network. *)
Fixpoint eval_outputs (batches : list (list X * list Z)) (p : Params) (g : Rng)
  : list (list Q) :=
  match batches with
  | [] => []
  | (data, _) :: rest =>
      let (out, g') := forward p false g data in
      out :: eval_outputs rest p g'
  end.

End Network.

Arguments training_outputs {X Params OptState Rng}.
Arguments eval_outputs {X Params Rng}.

(** The rows of [num_classes] scores of each tensor. *)
Definition score_rows (outs : list (list Q)) : list (list (list Q)) :=
  map (Torch.batched GazeNet.num_classes) outs.

(** The class predicted for each example: the arg-max of its row. *)
Definition predictions (outs : list (list Q)) : list Z :=
  flat_map (map Torch.argmax) (score_rows outs).

End Replay.

(* ------------------------------------------------------------------ *)
(** ** Facts about rounding *)

Module FloatFacts.

Local Open Scope Q_scope.

Lemma pow2_pos (e : Z) : 0 < Float.pow2 e.
Proof. apply Qpower_0_lt. reflexivity. Qed.

Lemma pow2_add (a b : Z) : Float.pow2 (a + b) == Float.pow2 a * Float.pow2 b.
Proof. apply Qpower_plus. discriminate. Qed.

Lemma pow2_int (e : Z) : (0 <= e)%Z -> Float.pow2 e == inject_Z (2 ^ e).
Proof. intro H. unfold Float.pow2. now rewrite Zpower_Qpower. Qed.

Lemma pow2_lt (a b : Z) : (a < b)%Z -> Float.pow2 a < Float.pow2 b.
Proof. intro H. apply Qpower_lt_compat_l; [exact H|reflexivity]. Qed.

Lemma pow2_lt_inv (a b : Z) : Float.pow2 a < Float.pow2 b -> (a < b)%Z.
Proof. intro H. eapply Qpower_lt_compat_l_inv; [exact H|reflexivity]. Qed.

(** Dividing by a power of two is multiplying by the opposite power. *)
Lemma div_pow2 (q : Q) (e : Z) : q / Float.pow2 e == q * Float.pow2 (- e).
Proof. unfold Qdiv, Float.pow2. now rewrite Qpower_opp. Qed.

Lemma pow2_cancel (e : Z) : Float.pow2 (- e) * Float.pow2 e == 1.
Proof. rewrite <- pow2_add. now replace (- e + e)%Z with 0%Z by lia. Qed.

#[global] Instance rne_comp : Proper (Qeq ==> eq) Float.rne.
Proof.
  intros q q' E. unfold Float.rne.
  rewrite (Qfloor_comp _ _ E).
  assert (C : (q - inject_Z (Qfloor q') ?= 1 # 2) = (q' - inject_Z (Qfloor q') ?= 1 # 2)).
  { apply Qcompare_comp; [now rewrite E|reflexivity]. }
  now rewrite C.
Qed.

Lemma rne_int (n : Z) : Float.rne (inject_Z n) = n.
Proof.
  unfold Float.rne. rewrite Qfloor_Z.
  assert (C : (inject_Z n - inject_Z n ?= 1 # 2) = Lt).
  { apply (proj1 (Qlt_alt _ _)). lra. }
  now rewrite C.
Qed.

Lemma rne_between (q : Q) :
  (Qfloor q <= Float.rne q <= Qfloor q + 1)%Z.
Proof.
  unfold Float.rne.
  destruct (q - inject_Z (Qfloor q) ?= 1 # 2); [destruct (Z.even (Qfloor q))| |]; lia.
Qed.

Lemma rne_mono (q1 q2 : Q) : q1 <= q2 -> (Float.rne q1 <= Float.rne q2)%Z.
Proof.
  intro H. pose proof (Qfloor_resp_le _ _ H) as F.
  destruct (Z.eq_dec (Qfloor q1) (Qfloor q2)) as [E|N].
  - unfold Float.rne. rewrite E.
    destruct (q2 - inject_Z (Qfloor q2) ?= 1 # 2) eqn:C2;
      destruct (q1 - inject_Z (Qfloor q2) ?= 1 # 2) eqn:C1;
      try (apply (proj2 (Qeq_alt _ _)) in C1);
      try (apply (proj2 (Qlt_alt _ _)) in C1);
      try (apply (proj2 (Qgt_alt _ _)) in C1);
      try (apply (proj2 (Qeq_alt _ _)) in C2);
      try (apply (proj2 (Qlt_alt _ _)) in C2);
      try (apply (proj2 (Qgt_alt _ _)) in C2);
      try (destruct (Z.even (Qfloor q2))); try lia; exfalso; lra.
  - pose proof (rne_between q1). pose proof (rne_between q2). lia.
Qed.

Lemma rne_error (q : Q) : Qabs (inject_Z (Float.rne q) - q) <= 1 # 2.
Proof.
  pose proof (Qfloor_le q) as L. pose proof (Qlt_floor q) as U.
  rewrite inject_Z_plus in U.
  apply Qabs_case; intro S; unfold Float.rne in *;
    destruct (q - inject_Z (Qfloor q) ?= 1 # 2) eqn:C;
    try (apply (proj2 (Qeq_alt _ _)) in C); try (apply (proj2 (Qlt_alt _ _)) in C);
    try (apply (proj2 (Qgt_alt _ _)) in C);
    try destruct (Z.even (Qfloor q)); rewrite ?inject_Z_plus in *;
    change (inject_Z 1) with 1 in *; lra.
Qed.


Lemma ilog2_lower (q : Q) : ~ q == 0 -> Float.pow2 (Float.ilog2 q) <= Qabs q.
Proof.
  intro Hq. unfold Float.ilog2.
  destruct (Qle_bool _ (Qabs q)) eqn:C; [now apply Qle_bool_iff|].
  destruct q as [a b]. cbn [Qnum Qden Qabs] in *.
  assert (Ha : (0 < Z.abs a)%Z).
  { destruct a; [exfalso; apply Hq; reflexivity|lia|lia]. }
  pose proof (Z.log2_spec _ Ha) as (La & _).
  pose proof (Z.log2_spec (Z.pos b) (Pos2Z.is_pos b)) as (_ & Ub).
  pose proof (Z.log2_nonneg (Z.abs a)). pose proof (Z.log2_nonneg (Z.pos b)).
  replace (Z.log2 (Z.abs a) - Z.log2 (Z.pos b) - 1)%Z
    with (Z.log2 (Z.abs a) - Z.succ (Z.log2 (Z.pos b)))%Z by lia.
  unfold Float.pow2. rewrite Qpower_minus by discriminate.
  fold (Float.pow2 (Z.log2 (Z.abs a))).
  fold (Float.pow2 (Z.succ (Z.log2 (Z.pos b)))).
  rewrite !pow2_int by lia.
  rewrite (Qmake_Qdiv (Z.abs a) b).
  assert (Hb : 0 < inject_Z (Z.pos b)) by reflexivity.
  assert (Hy : 0 < inject_Z (2 ^ Z.succ (Z.log2 (Z.pos b)))).
  { change 0 with (inject_Z 0). rewrite <- Zlt_Qlt. lia. }
  apply Qle_shift_div_l; [exact Hb|].
  unfold Qdiv. rewrite <- Qmult_assoc, (Qmult_comm (/ _)), Qmult_assoc.
  apply Qle_shift_div_r; [exact Hy|].
  rewrite <- !inject_Z_mult, <- Zle_Qle. nia.
Qed.

(** A non-zero number below [2^m] has its last place at [2^(m - 53)] or
    lower (but never below the subnormal place). *)
Lemma exponent_le (q : Q) (m : Z) :
  ~ q == 0 -> Qabs q < Float.pow2 m ->
  (Float.exponent q <= Z.max Float.emin (m - Float.prec))%Z.
Proof.
  intros Hq Hm. unfold Float.exponent.
  assert (Float.ilog2 q < m)%Z.
  { apply pow2_lt_inv. eapply Qle_lt_trans; [apply ilog2_lower, Hq|exact Hm]. }
  lia.
Qed.

Lemma round_zero (q : Q) : q == 0 -> Float.round q = 0.
Proof.
  intro H. unfold Float.round.
  assert (E : Qeq_bool (Qred q) 0 = true).
  { apply Qeq_bool_iff. now rewrite Qred_correct. }
  cbv zeta. now rewrite E.
Qed.

Lemma round_nonzero (q : Q) :
  ~ q == 0 ->
  Float.round q
  == inject_Z (Float.rne (q / Float.pow2 (Float.exponent (Qred q))))
     * Float.pow2 (Float.exponent (Qred q)).
Proof.
  intro H. unfold Float.round. cbv zeta.
  destruct (Qeq_bool (Qred q) 0) eqn:E.
  - apply Qeq_bool_iff in E. rewrite Qred_correct in E. contradiction.
  - rewrite Qred_correct.
    now rewrite (Qred_correct q) at 1.
Qed.

#[global] Instance round_comp : Proper (Qeq ==> eq) Float.round.
Proof.
  intros q q' E. unfold Float.round. now rewrite (Qred_complete _ _ E).
Qed.

(** Rounding never crosses a multiple of a power of two that is itself
    a multiple of the last place. *)
Lemma round_le_int (q : Q) (N : Z) :
  Qabs q < Float.pow2 Float.prec -> q <= inject_Z N -> Float.round q <= inject_Z N.
Proof.
  intros Hb Hq.
  destruct (Qeq_dec q 0) as [Z0|NZ].
  - rewrite (round_zero q Z0). now rewrite <- Z0.
  - rewrite (round_nonzero q NZ).
    set (e := Float.exponent (Qred q)).
    assert (He : (e <= 0)%Z).
    { subst e. etransitivity; [apply (exponent_le _ Float.prec)|].
      - now rewrite Qred_correct.
      - now rewrite Qred_correct.
      - unfold Float.emin, Float.prec. lia. }
    assert (Hn : inject_Z N / Float.pow2 e == inject_Z (N * 2 ^ (- e))).
    { rewrite div_pow2, pow2_int by lia. now rewrite inject_Z_mult. }
    assert (Hr : (Float.rne (q / Float.pow2 e) <= N * 2 ^ (- e))%Z).
    { rewrite <- (rne_int (N * 2 ^ (- e))), <- Hn.
      apply rne_mono. unfold Qdiv.
      apply Qmult_le_compat_r; [exact Hq|].
      apply Qlt_le_weak, Qinv_lt_0_compat, pow2_pos. }
    apply (Qle_trans _ (inject_Z (N * 2 ^ (- e)) * Float.pow2 e)).
    + apply Qmult_le_compat_r; [now rewrite <- Zle_Qle|].
      apply Qlt_le_weak, pow2_pos.
    + rewrite <- Hn, div_pow2, <- Qmult_assoc, pow2_cancel. 
      rewrite Qmult_1_r. apply Qle_refl.
Qed.

Lemma round_ge_int (q : Q) (N : Z) :
  Qabs q < Float.pow2 Float.prec -> inject_Z N <= q -> inject_Z N <= Float.round q.
Proof.
  intros Hb Hq.
  destruct (Qeq_dec q 0) as [Z0|NZ].
  - rewrite (round_zero q Z0). now rewrite <- Z0.
  - rewrite (round_nonzero q NZ).
    set (e := Float.exponent (Qred q)).
    assert (He : (e <= 0)%Z).
    { subst e. etransitivity; [apply (exponent_le _ Float.prec)|].
      - now rewrite Qred_correct.
      - now rewrite Qred_correct.
      - unfold Float.emin, Float.prec. lia. }
    assert (Hn : inject_Z N / Float.pow2 e == inject_Z (N * 2 ^ (- e))).
    { rewrite div_pow2, pow2_int by lia. now rewrite inject_Z_mult. }
    assert (Hr : (N * 2 ^ (- e) <= Float.rne (q / Float.pow2 e))%Z).
    { rewrite <- (rne_int (N * 2 ^ (- e))), <- Hn.
      apply rne_mono. unfold Qdiv.
      apply Qmult_le_compat_r; [exact Hq|].
      apply Qlt_le_weak, Qinv_lt_0_compat, pow2_pos. }
    apply (Qle_trans _ (inject_Z (N * 2 ^ (- e)) * Float.pow2 e)).
    + rewrite <- Hn, div_pow2, <- Qmult_assoc, pow2_cancel. 
      rewrite Qmult_1_r. apply Qle_refl.
    + apply Qmult_le_compat_r; [now rewrite <- Zle_Qle|].
      apply Qlt_le_weak, pow2_pos.
Qed.

Lemma round_is_reduced (q : Q) : Qred (Float.round q) = Float.round q.
Proof.
  unfold Float.round. cbv zeta.
  destruct (Qeq_bool (Qred q) 0); [reflexivity|].
  apply Qred_complete, Qred_correct.
Qed.

Lemma Qred_inject_Z (N : Z) : Qred (inject_Z N) = inject_Z N.
Proof.
  unfold Qred, inject_Z.
  pose proof (Z.ggcd_gcd N 1) as G.
  pose proof (Z.ggcd_correct_divisors N 1) as D.
  destruct (Z.ggcd N 1) as (g & aa & bb). cbn [fst snd] in *.
  rewrite Z.gcd_1_r in G. subst g. destruct D as (D1 & D2).
  replace aa with N by lia. replace bb with 1%Z by lia. reflexivity.
Qed.

(** An integer of at most 53 bits is a double. *)
Lemma round_int_exact (N : Z) :
  (Z.abs N < 2 ^ 53)%Z -> Float.round (inject_Z N) = inject_Z N.
Proof.
  intro H.
  assert (Hb : Qabs (inject_Z N) < Float.pow2 Float.prec).
  { rewrite pow2_int by (unfold Float.prec; lia).
    change (Qabs (inject_Z N)) with (inject_Z (Z.abs N)).
    rewrite <- Zlt_Qlt. exact H. }
  rewrite <- round_is_reduced.
  rewrite <- (Qred_inject_Z N) at 2.
  apply Qred_complete, Qle_antisym.
  - apply round_le_int; [exact Hb|apply Qle_refl].
  - apply round_ge_int; [exact Hb|apply Qle_refl].
Qed.

(** The result is within half a unit in the last place. *)
Lemma round_error (q : Q) :
  Qabs (Float.round q - q) <= Float.pow2 (Float.exponent (Qred q)) * (1 # 2).
Proof.
  destruct (Qeq_dec q 0) as [Z0|NZ].
  - rewrite (round_zero q Z0).
    assert (E : Qabs (0 - q) == 0) by (rewrite Z0; reflexivity).
    rewrite E.
    apply Qmult_le_0_compat; [apply Qlt_le_weak, pow2_pos|discriminate].
  - rewrite (round_nonzero q NZ).
    set (e := Float.exponent (Qred q)).
    set (x := q / Float.pow2 e).
    assert (Hq : q == x * Float.pow2 e).
    { subst x. rewrite div_pow2, <- Qmult_assoc, pow2_cancel. ring. }
    setoid_replace (inject_Z (Float.rne x) * Float.pow2 e - q)
      with ((inject_Z (Float.rne x) - x) * Float.pow2 e)
      by (rewrite Hq at 1; ring).
    rewrite Qabs_Qmult, (Qabs_pos (Float.pow2 e)) by apply Qlt_le_weak, pow2_pos.
    rewrite (Qmult_comm (Float.pow2 e)).
    apply Qmult_le_compat_r; [apply rne_error|apply Qlt_le_weak, pow2_pos].
Qed.

(** Between 0 and 1 the error is at most [2^-53]. *)
Lemma round_error_unit (q : Q) :
  0 <= q -> q <= 1 -> Qabs (Float.round q - q) <= Float.pow2 (-53).
Proof.
  intros H0 H1.
  destruct (Qeq_dec q 0) as [Z0|NZ].
  - rewrite (round_zero q Z0).
    assert (E : Qabs (0 - q) == 0) by (rewrite Z0; reflexivity).
    rewrite E. apply Qlt_le_weak, pow2_pos.
  - eapply Qle_trans; [apply round_error|].
    assert (He : (Float.exponent (Qred q) <= -52)%Z).
    { etransitivity; [apply (exponent_le _ 1)|].
      - now rewrite Qred_correct.
      - rewrite Qred_correct, Qabs_pos by exact H0.
        eapply Qle_lt_trans; [exact H1|reflexivity].
      - unfold Float.emin, Float.prec. lia. }
    apply (Qle_trans _ (Float.pow2 (-52) * (1 # 2))).
    + apply Qmult_le_compat_r; [|discriminate].
      apply Qpower_le_compat_l; [exact He|discriminate].
    + apply Qle_lteq. right. reflexivity.
Qed.

Lemma round_unit (q : Q) : 0 <= q -> q <= 1 -> 0 <= Float.round q /\ Float.round q <= 1.
Proof.
  intros H0 H1.
  assert (Hb : Qabs q < Float.pow2 Float.prec).
  { rewrite Qabs_pos by exact H0. eapply Qle_lt_trans; [exact H1|reflexivity]. }
  split.
  - apply (round_ge_int q 0 Hb H0).
  - apply (round_le_int q 1 Hb H1).
Qed.

(** A number at or above the smallest subnormal does not round to zero. *)
Lemma round_pos (q : Q) : Float.pow2 Float.emin <= q -> 0 < Float.round q.
Proof.
  intro H.
  assert (Hq : 0 < q) by (eapply Qlt_le_trans; [apply pow2_pos|exact H]).
  assert (NZ : ~ q == 0) by (intro E; rewrite E in Hq; discriminate).
  rewrite (round_nonzero q NZ).
  set (e := Float.exponent (Qred q)).
  assert (He : Float.pow2 e <= q).
  { subst e. unfold Float.exponent.
    destruct (Z.max_spec Float.emin (Float.ilog2 (Qred q) - (Float.prec - 1)))
      as [(_ & ->)|(_ & ->)].
    - apply (Qle_trans _ (Float.pow2 (Float.ilog2 (Qred q)))).
      + apply Qpower_le_compat_l; [unfold Float.prec; lia|discriminate].
      + eapply Qle_trans; [apply ilog2_lower; now rewrite Qred_correct|].
        rewrite Qred_correct, Qabs_pos by now apply Qlt_le_weak.
        apply Qle_refl.
    - exact H. }
  assert (Hr : (1 <= Float.rne (q / Float.pow2 e))%Z).
  { rewrite <- (rne_int 1) at 1. apply rne_mono.
    apply Qle_shift_div_l; [apply pow2_pos|]. now rewrite Qmult_1_l. }
  apply (Qlt_le_trans _ (1 * Float.pow2 e)).
  - rewrite Qmult_1_l. apply pow2_pos.
  - apply Qmult_le_compat_r; [|apply Qlt_le_weak, pow2_pos].
    change 1 with (inject_Z 1). now rewrite <- Zle_Qle.
Qed.

End FloatFacts.

(* ------------------------------------------------------------------ *)
(** ** Facts about the library functions *)

Module PyFacts.

Local Open Scope Q_scope.

Lemma gt_true_iff (x y : Q) : Py.gt x y = true <-> y < x.
Proof.
  unfold Py.gt. rewrite negb_true_iff.
  split; intro H.
  - apply Qnot_le_lt. intro L. apply Qle_bool_iff in L. congruence.
  - destruct (Qle_bool x y) eqn:E; [|reflexivity].
    apply Qle_bool_iff in E. exfalso. exact (Qlt_not_le _ _ H E).
Qed.

Lemma gt_false_iff (x y : Q) : Py.gt x y = false <-> x <= y.
Proof.
  unfold Py.gt. rewrite negb_false_iff. apply Qle_bool_iff.
Qed.

Lemma truediv_inv (x y r : Q) :
  Py.truediv x y = inr r -> ~ y == 0 /\ r = Float.round (x / y).
Proof.
  unfold Py.truediv. destruct (Qeq_bool y 0) eqn:E; [discriminate|].
  intro H. injection H as <-. split; [|reflexivity].
  intro Z0. apply Qeq_bool_iff in Z0. congruence.
Qed.

Lemma truediv_nonzero (x y : Q) :
  ~ y == 0 -> Py.truediv x y = inr (Float.round (x / y)).
Proof.
  intro H. unfold Py.truediv.
  destruct (Qeq_bool y 0) eqn:E; [|reflexivity].
  apply Qeq_bool_iff in E. contradiction.
Qed.

Lemma range_length (a b : Z) : length (Py.range a b) = Z.to_nat (b - a)%Z.
Proof. unfold Py.range. now rewrite length_map, length_seq. Qed.

(** Integers of at most 53 bits convert to floats exactly. *)
Lemma float_exact (n : Z) : (Z.abs n < 2 ^ 53)%Z -> Py.float n = inject_Z n.
Proof. apply FloatFacts.round_int_exact. Qed.

(** The float of a positive integer is positive. *)
Lemma float_pos (n : Z) : (0 < n)%Z -> 0 < Py.float n.
Proof.
  intro H. apply FloatFacts.round_pos.
  apply (Qle_trans _ 1).
  - change 1 with (Float.pow2 0).
    apply Qpower_le_compat_l; [unfold Float.emin; lia|discriminate].
  - change 1 with (inject_Z 1). rewrite <- Zle_Qle. lia.
Qed.

(** [100.0 * float(c) / float(n)] is defined whenever [n] is positive. *)
Lemma percentage_returns (c : Z) (n : nat) :
  (0 < n)%nat ->
  exists acc,
    Py.truediv (Py.mul 100 (Py.float c)) (Py.float (Z.of_nat n)) = inr acc.
Proof.
  intro Hn. eexists. apply truediv_nonzero.
  intro E. pose proof (float_pos (Z.of_nat n) ltac:(lia)) as P.
  rewrite E in P. discriminate.
Qed.

(** For sizes whose hundredfold fits in 53 bits, the product and the two
    conversions are exact: the percentage is the exact quotient
    [100 * c / n], rounded once. *)
Lemma percentage_value (c : Z) (n : nat) :
  (0 < n)%nat -> (0 <= c <= Z.of_nat n)%Z -> (100 * Z.of_nat n < 2 ^ 53)%Z ->
  Py.truediv (Py.mul 100 (Py.float c)) (Py.float (Z.of_nat n))
  = inr (Float.round (100 * inject_Z c / inject_Z (Z.of_nat n))).
Proof.
  intros Hn Hc Hb.
  rewrite truediv_nonzero.
  - f_equal. unfold Py.mul.
    rewrite !float_exact by lia.
    assert (E : Float.round (100 * inject_Z c) = inject_Z (100 * c)).
    { rewrite <- (FloatFacts.round_int_exact (100 * c)) by lia.
      apply FloatFacts.round_comp. now rewrite inject_Z_mult. }
    rewrite E. apply FloatFacts.round_comp. now rewrite inject_Z_mult.
  - intro E. pose proof (float_pos (Z.of_nat n) ltac:(lia)) as P.
    rewrite E in P. discriminate.
Qed.

(** The rounded percentage of [0 <= c <= n] lies between 0 and 100, within
    [2^-47] of the exact one. *)
Lemma percentage_bounds (c : Z) (n : nat) :
  (0 < n)%nat -> (0 <= c <= Z.of_nat n)%Z ->
  let q := 100 * inject_Z c / inject_Z (Z.of_nat n) in
  0 <= Float.round q /\ Float.round q <= 100 /\
  Qabs (Float.round q - q) <= Float.pow2 (-47).
Proof.
  intros Hn [Hc0 Hcn]. cbv zeta.
  set (q := 100 * inject_Z c / inject_Z (Z.of_nat n)).
  assert (Hpos : 0 < inject_Z (Z.of_nat n)).
  { change 0%Q with (inject_Z 0). rewrite <- Zlt_Qlt. lia. }
  assert (H0 : 0 <= q).
  { apply Qle_shift_div_l; [exact Hpos|].
    rewrite Qmult_0_l.
    apply Qmult_le_0_compat; [discriminate|].
    change 0%Q with (inject_Z 0). rewrite <- Zle_Qle. exact Hc0. }
  assert (H100 : q <= 100).
  { apply Qle_shift_div_r; [exact Hpos|].
    apply Qmult_le_l; [reflexivity|].
    rewrite <- Zle_Qle. exact Hcn. }
  assert (Hb : Qabs q < Float.pow2 7).
  { rewrite Qabs_pos by exact H0. eapply Qle_lt_trans; [exact H100|reflexivity]. }
  split; [|split].
  - apply (FloatFacts.round_ge_int q 0); [|exact H0].
    eapply Qlt_trans; [exact Hb|reflexivity].
  - apply (FloatFacts.round_le_int q 100); [|exact H100].
    eapply Qlt_trans; [exact Hb|reflexivity].
  - destruct (Qeq_dec q 0) as [Z0|NZ].
    + rewrite (FloatFacts.round_zero q Z0).
      assert (E : Qabs (0 - q) == 0) by (rewrite Z0; reflexivity).
      rewrite E. apply Qlt_le_weak, FloatFacts.pow2_pos.
    + eapply Qle_trans; [apply FloatFacts.round_error|].
      assert (He : (Float.exponent (Qred q) <= -46)%Z).
      { etransitivity; [apply (FloatFacts.exponent_le _ 7)|].
        - now rewrite Qred_correct.
        - now rewrite Qred_correct.
        - unfold Float.emin, Float.prec. lia. }
      apply (Qle_trans _ (Float.pow2 (-46) * (1 # 2))).
      * apply Qmult_le_compat_r; [|discriminate].
        apply Qpower_le_compat_l; [exact He|discriminate].
      * apply Qle_lteq. right. reflexivity.
Qed.

End PyFacts.

Module StatisticsFacts.

Local Open Scope Q_scope.

Lemma Qsum_perm (l l' : list Q) :
  Permutation l l' -> Statistics.Qsum l == Statistics.Qsum l'.
Proof.
  induction 1; simpl.
  - reflexivity.
  - now rewrite IHPermutation.
  - ring.
  - now rewrite IHPermutation1.
Qed.

Lemma Qsum_app (l l' : list Q) :
  Statistics.Qsum (l ++ l') == Statistics.Qsum l + Statistics.Qsum l'.
Proof.
  induction l as [|x l IH]; simpl.
  - now rewrite Qplus_0_l.
  - rewrite IH. ring.
Qed.

(** On data the mean is the double nearest to the exact sum over the
    count. *)
Lemma mean_value (data : list Q) :
  data <> [] ->
  Statistics.mean data
  = inr (Float.round (Statistics.Qsum data / inject_Z (Z.of_nat (length data)))).
Proof. destruct data as [|x data]; [congruence|reflexivity]. Qed.

Lemma mean_inv (data : list Q) (m : Q) :
  Statistics.mean data = inr m ->
  data <> [] /\
  m = Float.round (Statistics.Qsum data / inject_Z (Z.of_nat (length data))).
Proof.
  destruct data as [|x data]; simpl; [discriminate|].
  intro H. injection H as <-. split; [discriminate|reflexivity].
Qed.

(** The mean does not depend on the order of the data. *)
Lemma mean_perm (l l' : list Q) :
  Permutation l l' -> Statistics.mean l = Statistics.mean l'.
Proof.
  intro P.
  destruct l as [|x l].
  - apply Permutation_nil in P. now subst.
  - destruct l' as [|y l'].
    + apply Permutation_sym, Permutation_nil in P. discriminate.
    + unfold Statistics.mean, Py.ret. f_equal.
      apply FloatFacts.round_comp.
      rewrite (Qsum_perm _ _ P), (Permutation_length P). reflexivity.
Qed.

End StatisticsFacts.

Module TorchFacts.

Section Chunks.

Context {A : Type}.
Variable n : nat.
Hypothesis n_pos : (0 < n)%nat.

(** With fuel for every element, the batches put end to end are the
    input: nothing is dropped or repeated. *)
Lemma chunk_concat (fuel : nat) : forall l : list A,
  (length l <= fuel)%nat -> concat (Torch.chunk fuel n l) = l.
Proof.
  induction fuel as [|fuel IH]; intros l Hl.
  - destruct l; [reflexivity|simpl in Hl; lia].
  - destruct l as [|a l]; [reflexivity|].
    cbn [Torch.chunk concat].
    rewrite IH.
    + apply firstn_skipn.
    + rewrite length_skipn. cbn [length] in Hl |- *. lia.
Qed.

Lemma chunk_nonempty (fuel : nat) : forall l : list A,
  Forall (fun b => b <> []) (Torch.chunk fuel n l).
Proof.
  induction fuel as [|fuel IH]; intros l; [constructor|].
  destruct l as [|a l]; [constructor|].
  cbn [Torch.chunk]. constructor; [|apply IH].
  destruct n; [lia|discriminate].
Qed.

(** A list of [n * k] elements is cut into exactly [k] groups. *)
Lemma chunk_length (k : nat) : forall (fuel : nat) (l : list A),
  length l = (n * k)%nat -> (length l <= fuel)%nat ->
  length (Torch.chunk fuel n l) = k.
Proof.
  induction k as [|k IH]; intros fuel l Hl Hf.
  - rewrite Nat.mul_0_r in Hl. apply length_zero_iff_nil in Hl. subst l.
    destruct fuel; reflexivity.
  - destruct l as [|a l]; [simpl in Hl; lia|].
    destruct fuel as [|fuel]; [simpl in Hf; lia|].
    cbn [Torch.chunk length]. f_equal.
    apply IH.
    + rewrite length_skipn, Hl. lia.
    + rewrite length_skipn. cbn [length] in Hf |- *. lia.
Qed.

Lemma batched_concat (l : list A) : concat (Torch.batched n l) = l.
Proof. apply chunk_concat. apply Nat.le_refl. Qed.

Lemma batched_nonempty (l : list A) :
  Forall (fun b => b <> []) (Torch.batched n l).
Proof. apply chunk_nonempty. Qed.

End Chunks.

(** A list of [n * k] elements is cut into groups of exactly [n]. *)
Lemma chunk_rows {A : Type} (n : nat) (k : nat) : forall (fuel : nat) (l : list A),
  (0 < n)%nat -> length l = (n * k)%nat -> (length l <= fuel)%nat ->
  Forall (fun r => length r = n) (Torch.chunk fuel n l).
Proof.
  induction k as [|k IH]; intros fuel l Hn Hl Hf.
  - rewrite Nat.mul_0_r in Hl. apply length_zero_iff_nil in Hl. subst l.
    destruct fuel; constructor.
  - destruct l as [|a l]; [simpl in Hl; lia|].
    destruct fuel as [|fuel]; [simpl in Hf; lia|].
    cbn [Torch.chunk]. constructor.
    + rewrite length_firstn, Hl. nia.
    + apply IH; [exact Hn| |].
      * rewrite length_skipn, Hl. lia.
      * rewrite length_skipn. cbn [length] in Hf |- *. lia.
Qed.

(** A flat tensor of [ncols * k] scores, [k > 0], reshapes to [k] rows of
    [ncols] scores. *)
Lemma view_rows (ncols k : nat) (flat : list Q) :
  (0 < ncols)%nat -> (0 < k)%nat -> length flat = (ncols * k)%nat ->
  Torch.view ncols flat = inr (Torch.batched ncols flat) /\
  length (Torch.batched ncols flat) = k /\
  Forall (fun r => length r = ncols) (Torch.batched ncols flat).
Proof.
  intros Hc Hk Hl. unfold Torch.view.
  assert (E1 : (0 <? length flat)%nat = true) by (apply Nat.ltb_lt; nia).
  assert (E2 : (length flat mod ncols =? 0)%nat = true).
  { apply Nat.eqb_eq. rewrite Hl, Nat.mul_comm. apply Nat.Div0.mod_mul. }
  rewrite E1, E2. cbn [andb].
  split; [reflexivity|]. split.
  - now apply chunk_length.
  - now apply (chunk_rows ncols k).
Qed.

(** A tensor that reshapes is cut into the rows of [batched]. *)
Lemma view_inv (ncols : nat) (flat : list Q) (rows : list (list Q)) :
  Torch.view ncols flat = inr rows -> rows = Torch.batched ncols flat.
Proof.
  unfold Torch.view.
  destruct ((0 <? length flat)%nat && (length flat mod ncols =? 0)%nat).
  - intro H. now injection H as <-.
  - destruct (length flat =? 0)%nat; discriminate.
Qed.

Lemma argmax_from_bound (row : list Q) : forall (best : Q) (best_i i : Z),
  0 <= best_i < i ->
  0 <= Torch.argmax_from best best_i i row < i + Z.of_nat (length row).
Proof.
  induction row as [|x row IH]; intros best best_i i H; cbn [Torch.argmax_from length].
  - lia.
  - destruct (Py.gt x best).
    + specialize (IH x i (i + 1) ltac:(lia)). lia.
    + specialize (IH best best_i (i + 1) ltac:(lia)). lia.
Qed.

(** The arg-max of a row is the index of one of its entries. *)
Lemma argmax_bound (row : list Q) :
  row <> [] -> 0 <= Torch.argmax row < Z.of_nat (length row).
Proof.
  destruct row as [|x row]; [congruence|]. intros _.
  unfold Torch.argmax.
  pose proof (argmax_from_bound row x 0 1 ltac:(lia)).
  cbn [length]. lia.
Qed.

Lemma sum_bounds (hits : list bool) :
  0 <= Torch.sum hits <= Z.of_nat (length hits).
Proof.
  unfold Torch.sum. split; [lia|].
  apply Nat2Z.inj_le, filter_length_le.
Qed.

(** Tensors of the same size compare element by element. *)
Lemma eq_same_size (pred target : list Z) :
  length pred = length target ->
  exists hits, Torch.eq pred target = inr hits /\ length hits = length target.
Proof.
  intro H. unfold Torch.eq.
  rewrite (proj2 (Nat.eqb_eq _ _) H).
  eexists. split; [reflexivity|].
  rewrite length_map, length_combine, H. apply Nat.min_id.
Qed.

Lemma take_cons {A : Type} (a : A) (ds : list A) (idx : list nat) :
  Torch.take (a :: ds) (map S idx) = Torch.take ds idx.
Proof.
  unfold Torch.take. induction idx as [|i idx IH]; [reflexivity|].
  cbn [map flat_map]. now rewrite IH.
Qed.

Lemma take_all {A : Type} (ds : list A) :
  Torch.take ds (seq 0 (length ds)) = ds.
Proof.
  induction ds as [|a ds IH]; [reflexivity|].
  cbn [length seq]. rewrite <- seq_shift.
  change (Torch.take (a :: ds) (0%nat :: map S (seq 0 (length ds))))
    with (a :: Torch.take (a :: ds) (map S (seq 0 (length ds)))).
  now rewrite take_cons, IH.
Qed.

(** Sampling by a permutation of the indices visits every example once. *)
Lemma take_permutation {A : Type} (ds : list A) (perm : list nat) :
  Permutation perm (seq 0 (length ds)) ->
  Permutation (Torch.take ds perm) ds.
Proof.
  intro P.
  rewrite <- (take_all ds) at 2.
  unfold Torch.take. now apply Permutation_flat_map.
Qed.

End TorchFacts.

Module SklearnFacts.

Lemma insert_label_in (x z : Z) (l : list Z) :
  In z (Sklearn.insert_label x l) <-> z = x \/ In z l.
Proof.
  induction l as [|y l IH]; simpl.
  - intuition.
  - destruct (x <? y) eqn:Lt; [simpl; intuition|].
    destruct (x =? y) eqn:Eq.
    + apply Z.eqb_eq in Eq. subst. simpl. intuition.
    + simpl. rewrite IH. intuition.
Qed.

Lemma insert_label_sorted (x : Z) (l : list Z) :
  StronglySorted Z.lt l -> StronglySorted Z.lt (Sklearn.insert_label x l).
Proof.
  induction 1 as [|y l S IH F]; simpl.
  - repeat constructor.
  - destruct (x <? y) eqn:Lt.
    + apply Z.ltb_lt in Lt.
      constructor; [now constructor|].
      constructor; [exact Lt|].
      eapply Forall_impl; [|exact F]. intros; simpl in *; lia.
    + destruct (x =? y) eqn:Eq; [now constructor|].
      apply Z.ltb_ge in Lt. apply Z.eqb_neq in Eq.
      constructor; [exact IH|].
      apply Forall_forall. intros z Hz.
      apply insert_label_in in Hz. destruct Hz as [->|Hz]; [lia|].
      rewrite Forall_forall in F. now apply F.
Qed.

Lemma unique_in (z : Z) (l : list Z) : In z (Sklearn.unique l) <-> In z l.
Proof.
  induction l as [|x l IH]; simpl; [tauto|].
  rewrite insert_label_in, IH. intuition.
Qed.

Lemma unique_sorted (l : list Z) : StronglySorted Z.lt (Sklearn.unique l).
Proof.
  induction l as [|x l IH]; simpl; [constructor|].
  now apply insert_label_sorted.
Qed.

Lemma sorted_NoDup (l : list Z) : StronglySorted Z.lt l -> NoDup l.
Proof.
  induction 1 as [|y l S IH F]; constructor; [|exact IH].
  intro Hin. rewrite Forall_forall in F. specialize (F _ Hin). lia.
Qed.

(** The labels of the matrix are exactly those that occur. *)
Lemma unique_labels_in (z : Z) (y_true y_pred : list Z) :
  In z (Sklearn.unique_labels y_true y_pred) <-> In z y_true \/ In z y_pred.
Proof. unfold Sklearn.unique_labels. now rewrite unique_in, in_app_iff. Qed.

Lemma unique_labels_NoDup (y_true y_pred : list Z) :
  NoDup (Sklearn.unique_labels y_true y_pred).
Proof. apply sorted_NoDup, unique_sorted. Qed.

Lemma count_pair_nonneg (t p : Z) (pairs : list (Z * Z)) :
  0 <= Sklearn.count_pair t p pairs.
Proof. unfold Sklearn.count_pair. lia. Qed.

Lemma count_pair_cons (t p a b : Z) (pairs : list (Z * Z)) :
  Sklearn.count_pair t p ((a, b) :: pairs) =
  (if (a =? t) && (b =? p) then 1 else 0) + Sklearn.count_pair t p pairs.
Proof.
  unfold Sklearn.count_pair. cbn [filter fst snd].
  destruct ((a =? t) && (b =? p)); cbn [length]; lia.
Qed.

Lemma row_sum_cons (x : Z) (row : list Z) :
  Np.row_sum (x :: row) = x + Np.row_sum row.
Proof. reflexivity. Qed.

Lemma row_sum_add (f g : Z -> Z) (l : list Z) :
  Np.row_sum (map (fun p => f p + g p) l) =
  Np.row_sum (map f l) + Np.row_sum (map g l).
Proof. induction l as [|x l IH]; simpl; [reflexivity|]. rewrite IH. lia. Qed.

Lemma row_sum_indicator_out (b : Z) (l : list Z) :
  ~ In b l -> Np.row_sum (map (fun p => if b =? p then 1 else 0) l) = 0.
Proof.
  induction l as [|x l IH]; simpl; [reflexivity|].
  intro H. destruct (b =? x) eqn:E.
  - apply Z.eqb_eq in E. subst. tauto.
  - rewrite IH; [reflexivity|tauto].
Qed.

Lemma row_sum_indicator (b : Z) (l : list Z) :
  NoDup l -> In b l ->
  Np.row_sum (map (fun p => if b =? p then 1 else 0) l) = 1.
Proof.
  induction 1 as [|x l Hx N IH]; simpl; [tauto|].
  intros [->|Hin].
  - rewrite Z.eqb_refl, row_sum_indicator_out; [reflexivity|exact Hx].
  - destruct (b =? x) eqn:E.
    + apply Z.eqb_eq in E. subst. tauto.
    + now rewrite IH.
Qed.

(** Over labels that cover every prediction, a row of the matrix sums to
    the number of examples with that true label. *)
Lemma row_sum_counts (t : Z) (labels : list Z) (pairs : list (Z * Z)) :
  NoDup labels ->
  (forall tp, In tp pairs -> In (snd tp) labels) ->
  Np.row_sum (map (fun p => Sklearn.count_pair t p pairs) labels) =
  Z.of_nat (length (filter (fun tp => fst tp =? t) pairs)).
Proof.
  intros N. induction pairs as [|[a b] pairs IH]; intros Hcov.
  - clear. induction labels as [|x l IHl]; [reflexivity|].
    cbn [map]. rewrite row_sum_cons, IHl. reflexivity.
  - rewrite (map_ext _ _ (fun p => count_pair_cons t p a b pairs)).
    rewrite row_sum_add, IH by (intros; apply Hcov; now right).
    cbn [filter fst].
    destruct (a =? t); cbn [andb length].
    + rewrite row_sum_indicator; [lia|exact N|].
      apply (Hcov (a, b)). now left.
    + replace (Np.row_sum (map (fun _ : Z => 0) labels)) with 0; [lia|].
      clear. induction labels; simpl; lia.
Qed.

Lemma filter_combine_fst (t : Z) : forall y_true y_pred : list Z,
  length y_true = length y_pred ->
  length (filter (fun tp => fst tp =? t) (combine y_true y_pred)) =
  length (filter (fun y => y =? t) y_true).
Proof.
  induction y_true as [|a yt IH]; intros [|b yp] H; simpl in *;
    try reflexivity; try discriminate.
  injection H as H. destruct (a =? t); simpl; now rewrite IH.
Qed.

Lemma true_count_pos (t : Z) (y_true : list Z) :
  In t y_true <-> 0 < Obs.true_count t y_true.
Proof.
  unfold Obs.true_count. induction y_true as [|a yt IH]; simpl.
  - split; [tauto|lia].
  - destruct (a =? t) eqn:E.
    + apply Z.eqb_eq in E. simpl. split; [lia|auto].
    + apply Z.eqb_neq in E. rewrite <- IH. intuition.
Qed.

Lemma confusion_matrix_inv (y_true y_pred : list Z) (cm : list (list Z)) :
  Sklearn.confusion_matrix y_true y_pred = inr cm ->
  length y_true = length y_pred /\ y_true <> [] /\
  cm = map (fun t => map (fun p => Sklearn.count_pair t p (combine y_true y_pred))
                         (Sklearn.unique_labels y_true y_pred))
           (Sklearn.unique_labels y_true y_pred).
Proof.
  unfold Sklearn.confusion_matrix.
  destruct (length y_true =? length y_pred)%nat eqn:E; [|discriminate].
  apply Nat.eqb_eq in E. cbn [negb].
  destruct y_true as [|t y_true]; [discriminate|].
  intro H. injection H as <-. repeat split; [exact E|discriminate].
Qed.

(** On a non-empty log of consistent length the matrix is computed. *)
Lemma confusion_matrix_returns (y_true y_pred : list Z) :
  length y_true = length y_pred -> y_true <> [] ->
  Sklearn.confusion_matrix y_true y_pred
  = inr (map (fun t => map (fun p => Sklearn.count_pair t p (combine y_true y_pred))
                           (Sklearn.unique_labels y_true y_pred))
             (Sklearn.unique_labels y_true y_pred)).
Proof.
  intros Hlen Hne. unfold Sklearn.confusion_matrix.
  rewrite (proj2 (Nat.eqb_eq _ _) Hlen). cbn [negb].
  destruct y_true; [congruence|reflexivity].
Qed.

(** The row of the [i]-th label sums to the number of examples of that
    true class. *)
Lemma confusion_row_sum (y_true y_pred : list Z) (cm : list (list Z))
    (i : nat) (l : Z) (row : list Z) :
  Sklearn.confusion_matrix y_true y_pred = inr cm ->
  nth_error (Sklearn.unique_labels y_true y_pred) i = Some l ->
  nth_error cm i = Some row ->
  Np.row_sum row = Obs.true_count l y_true /\
  length row = length (Sklearn.unique_labels y_true y_pred) /\
  Forall (fun x => 0 <= x) row.
Proof.
  intros Hcm Hl Hrow.
  apply confusion_matrix_inv in Hcm. destruct Hcm as (Hlen & _ & ->).
  rewrite nth_error_map, Hl in Hrow. injection Hrow as <-.
  split; [|split].
  - rewrite row_sum_counts.
    + unfold Obs.true_count. now rewrite filter_combine_fst.
    + apply unique_labels_NoDup.
    + intros [a b] Hin. apply unique_labels_in. right.
      eapply in_combine_r. exact Hin.
  - apply length_map.
  - apply Forall_forall. intros x Hx. apply in_map_iff in Hx.
    destruct Hx as [p [<- _]]. apply count_pair_nonneg.
Qed.

End SklearnFacts.

Module NpFacts.

Local Open Scope Q_scope.

Lemma row_sum_nonneg (row : list Z) :
  Forall (fun y => (0 <= y)%Z) row -> (0 <= Np.row_sum row)%Z.
Proof.
  induction 1 as [|y row Hy F IH]; [cbn; lia|].
  rewrite SklearnFacts.row_sum_cons. lia.
Qed.

Lemma entry_le_row_sum (row : list Z) (x : Z) :
  Forall (fun y => (0 <= y)%Z) row -> In x row -> (0 <= x <= Np.row_sum row)%Z.
Proof.
  induction 1 as [|y row Hy F IH]; [intros []|].
  rewrite SklearnFacts.row_sum_cons.
  pose proof (row_sum_nonneg row F).
  intros [->|Hin]; [lia|]. specialize (IH Hin). lia.
Qed.

(** A count divided by a sum of at most 53 bits: the conversions are exact
    and the quotient is rounded once. *)
Lemma true_divide_exact (a s : Z) :
  (0 <= a <= s)%Z -> s <> 0%Z -> (s < 2 ^ 53)%Z ->
  Np.true_divide a s = Np.Fin (Float.round (inject_Z a / inject_Z s)).
Proof.
  intros Ha Hs Hb. unfold Np.true_divide.
  rewrite (proj2 (Z.eqb_neq _ _) Hs).
  now rewrite !PyFacts.float_exact by lia.
Qed.

Lemma quotient_unit (a s : Z) :
  (0 <= a <= s)%Z -> (0 < s)%Z ->
  0 <= inject_Z a / inject_Z s /\ inject_Z a / inject_Z s <= 1.
Proof.
  intros Ha Hs.
  assert (Hq : 0 < inject_Z s).
  { change 0%Q with (inject_Z 0). now rewrite <- Zlt_Qlt. }
  split.
  - apply Qle_shift_div_l; [exact Hq|]. rewrite Qmult_0_l.
    change 0%Q with (inject_Z 0). rewrite <- Zle_Qle. lia.
  - apply Qle_shift_div_r; [exact Hq|]. rewrite Qmult_1_l.
    rewrite <- Zle_Qle. lia.
Qed.

(** The rounded quotients of counts by [s] add up to the exact quotient of
    their sum, up to [2^-53] per count. *)
Lemma rounded_quotients_sum (s : Z) (row : list Z) :
  (0 < s)%Z -> Forall (fun x => (0 <= x <= s)%Z) row ->
  Qabs (Statistics.Qsum (map (fun x => Float.round (inject_Z x / inject_Z s)) row)
        - inject_Z (Np.row_sum row) / inject_Z s)
  <= inject_Z (Z.of_nat (length row)) * Float.pow2 (-53).
Proof.
  intros Hs F. induction F as [|x row Hx F IH].
  - cbn. discriminate.
  - rewrite SklearnFacts.row_sum_cons.
    cbn [map Statistics.Qsum fold_right length].
    fold (Statistics.Qsum (map (fun x => Float.round (inject_Z x / inject_Z s)) row)).
    set (r := Float.round (inject_Z x / inject_Z s)) in *.
    set (R := Statistics.Qsum _) in *.
    setoid_replace (r + R - inject_Z (x + Np.row_sum row) / inject_Z s)
      with ((r - inject_Z x / inject_Z s)
            + (R - inject_Z (Np.row_sum row) / inject_Z s))
      by (rewrite inject_Z_plus; unfold Qdiv; ring).
    eapply Qle_trans; [apply Qabs_triangle|].
    rewrite Nat2Z.inj_succ, <- Z.add_1_l, inject_Z_plus.
    change (inject_Z 1) with 1.
    setoid_replace ((1 + inject_Z (Z.of_nat (length row))) * Float.pow2 (-53))
      with (Float.pow2 (-53) + inject_Z (Z.of_nat (length row)) * Float.pow2 (-53))
      by ring.
    apply Qplus_le_compat; [|exact IH].
    destruct (quotient_unit x s Hx Hs) as (H0 & H1).
    subst r. now apply FloatFacts.round_error_unit.
Qed.

(** Dividing a row of counts by its non-zero sum gives finite entries
    between 0 and 1, each the double nearest to the exact quotient; they add
    up to 1 within [2^-53] per entry. *)
Lemma normalized_row (row : list Z) :
  Forall (fun x => (0 <= x)%Z) row ->
  Np.row_sum row <> 0%Z -> (Np.row_sum row < 2 ^ 53)%Z ->
  let qs := map (fun x => Float.round (inject_Z x / inject_Z (Np.row_sum row))) row in
  map (fun x => Np.true_divide x (Np.row_sum row)) row = map Np.Fin qs /\
  Forall (fun q => 0 <= q /\ q <= 1) qs /\
  Qabs (Statistics.Qsum qs - 1)
  <= inject_Z (Z.of_nat (length qs)) * Float.pow2 (-53).
Proof.
  intros F Hs Hb. cbv zeta.
  pose proof (row_sum_nonneg row F) as Hn.
  assert (Fx : Forall (fun x => (0 <= x <= Np.row_sum row)%Z) row).
  { apply Forall_forall. intros x Hx. now apply entry_le_row_sum. }
  split; [|split].
  - rewrite map_map. apply map_ext_in. intros x Hx.
    rewrite Forall_forall in Fx.
    apply true_divide_exact; [now apply Fx|exact Hs|exact Hb].
  - apply Forall_map. eapply Forall_impl; [|exact Fx].
    intros x Hx. cbv beta.
    destruct (quotient_unit x (Np.row_sum row) Hx ltac:(lia)) as (H0 & H1).
    now apply FloatFacts.round_unit.
  - rewrite length_map.
    assert (E : inject_Z (Np.row_sum row) / inject_Z (Np.row_sum row) == 1).
    { unfold Qdiv. apply Qmult_inv_r. intro E. apply Hs.
      exact (proj1 (inject_Z_injective (Np.row_sum row) 0) E). }
    rewrite <- E at 1.
    apply rounded_quotients_sum; [lia|exact Fx].
Qed.

Lemma zero_sum_zero_row (row : list Z) :
  Forall (fun x => (0 <= x)%Z) row -> Np.row_sum row = 0%Z ->
  row = repeat 0%Z (length row).
Proof.
  induction 1 as [|x row Hx F IH]; [reflexivity|].
  cbn [Np.row_sum fold_right length repeat]. intro S.
  assert (Hs : (0 <= Np.row_sum row)%Z).
  { clear - F. induction F; simpl; [lia|]. unfold Np.row_sum in *. lia. }
  unfold Np.row_sum in Hs.
  assert (x = 0%Z) by lia. subst x.
  f_equal. apply IH. unfold Np.row_sum. lia.
Qed.

(** Dividing a row of counts by its zero sum gives [nan] in every cell. *)
Lemma zero_sum_row_is_nan (row : list Z) :
  Forall (fun x => (0 <= x)%Z) row -> Np.row_sum row = 0%Z ->
  map (fun x => Np.true_divide x (Np.row_sum row)) row =
  repeat Np.NaN (length row).
Proof.
  intros F S. rewrite S.
  rewrite (zero_sum_zero_row row F S) at 1.
  clear. induction (length row) as [|k IH]; [reflexivity|].
  cbn [repeat map]. now rewrite IH.
Qed.

Lemma maximum_nan_r (x : Np.float64) : Np.maximum x Np.NaN = Np.NaN.
Proof. destruct x; reflexivity. Qed.

Lemma fold_maximum_nan (l : list Np.float64) :
  fold_left Np.maximum l Np.NaN = Np.NaN.
Proof. induction l as [|y l IH]; [reflexivity|exact IH]. Qed.

(** One [nan] entry makes the maximum [nan]. *)
Lemma amax_nan (l : list Np.float64) :
  In Np.NaN l -> Np.amax l = inr Np.NaN.
Proof.
  destruct l as [|x l]; [intros []|].
  intro H. unfold Np.amax, Py.ret. f_equal.
  destruct H as [->|H]; [apply fold_maximum_nan|].
  revert x. induction l as [|y l IH]; [destruct H|].
  intro x. cbn [fold_left].
  destruct H as [->|H].
  - rewrite maximum_nan_r. apply fold_maximum_nan.
  - now apply IH.
Qed.

Lemma greater_nan_r (c : Np.float64) : Np.greater c Np.NaN = false.
Proof. destruct c; reflexivity. Qed.

End NpFacts.

Module PlotFacts.

Lemma shape1_normalize_rows (cm : list (list Z)) :
  Np.shape1 (Np.normalize_rows cm) = Np.shape1 cm.
Proof. destruct cm as [|row cm]; [reflexivity|]. cbn. apply length_map. Qed.

(** The matrix of a non-empty log is square: as many columns as rows, one
    per label. *)
Lemma confusion_matrix_shape (y_true y_pred : list Z) (cm : list (list Z)) :
  Sklearn.confusion_matrix y_true y_pred = inr cm ->
  length cm = length (Sklearn.unique_labels y_true y_pred) /\
  Np.shape1 cm = length (Sklearn.unique_labels y_true y_pred) /\
  cm <> [].
Proof.
  intro H. apply SklearnFacts.confusion_matrix_inv in H.
  destruct H as (Hlen & Hne & ->).
  assert (Hl : Sklearn.unique_labels y_true y_pred <> []).
  { destruct y_true as [|t y_true]; [congruence|].
    assert (Hin : In t (Sklearn.unique_labels (t :: y_true) y_pred)).
    { apply SklearnFacts.unique_labels_in. left. now left. }
    intro E. rewrite E in Hin. destruct Hin. }
  rewrite length_map.
  destruct (Sklearn.unique_labels y_true y_pred) as [|l labels] eqn:E;
    [congruence|].
  split; [reflexivity|]. split; [|discriminate].
  cbn [map Np.shape1 length]. f_equal. apply length_map.
Qed.

Lemma set_ticklabels_inv (n : nat) (labels r : list string) :
  Plt.set_ticklabels n labels = inr r -> length labels = n /\ r = labels.
Proof.
  unfold Plt.set_ticklabels.
  destruct (length labels =? n)%nat eqn:E; [|discriminate].
  apply Nat.eqb_eq in E. intro H. now injection H as <-.
Qed.

Lemma set_ticklabels_mismatch (n : nat) (labels : list string) :
  length labels <> n ->
  exists e, Plt.set_ticklabels n labels = inl e /\
            Py.exn_class e = "ValueError"%string.
Proof.
  intro H. unfold Plt.set_ticklabels.
  rewrite (proj2 (Nat.eqb_neq _ _) H). eexists. split; reflexivity.
Qed.

(** What a call of [plot_confusion_matrix] that returns has done. *)
Lemma plot_inv (y_true y_pred : list Z) (classes : list string)
    (fig : GazeNet.Figure) :
  GazeNet.plot_confusion_matrix y_true y_pred classes true = inr fig ->
  exists cm top,
    Sklearn.confusion_matrix y_true y_pred = inr cm /\
    length (Sklearn.unique_labels y_true y_pred) = length classes /\
    Np.amax (concat (Np.normalize_rows cm)) = inr top /\
    GazeNet.im fig = Np.normalize_rows cm /\
    GazeNet.ticklabels fig = classes /\
    GazeNet.white_text fig =
      map (map (fun c => Np.greater c (Np.halve top))) (Np.normalize_rows cm).
Proof.
  unfold GazeNet.plot_confusion_matrix.
  destruct (Sklearn.confusion_matrix y_true y_pred) as [e|cm] eqn:C;
    [discriminate|].
  cbn [Py.bind].
  destruct (Plt.set_ticklabels (Np.shape1 (Np.normalize_rows cm)) classes)
    as [e|l1] eqn:T1; cbn [Py.bind]; [discriminate|].
  destruct (Plt.set_ticklabels (length (Np.normalize_rows cm)) classes)
    as [e|l2] eqn:T2; cbn [Py.bind]; [discriminate|].
  destruct (Np.amax (concat (Np.normalize_rows cm))) as [e|top] eqn:E;
    [discriminate|].
  cbn [Py.bind]. intro H. injection H as <-.
  apply set_ticklabels_inv in T2. destruct T2 as (T2 & ->).
  destruct (confusion_matrix_shape _ _ _ C) as (Hrows & _ & _).
  unfold Np.normalize_rows in T2 at 1. rewrite length_map in T2.
  exists cm, top. repeat split; [congruence|exact E].
Qed.

(** On a non-empty log of consistent length the figure is drawn when
    there are as many class names as labels that occur. *)
Lemma plot_returns (y_true y_pred : list Z) (classes : list string) :
  length y_true = length y_pred -> y_true <> [] ->
  length (Sklearn.unique_labels y_true y_pred) = length classes ->
  exists fig, GazeNet.plot_confusion_matrix y_true y_pred classes true = inr fig.
Proof.
  intros Hlen Hne Hc.
  unfold GazeNet.plot_confusion_matrix.
  pose proof (SklearnFacts.confusion_matrix_returns _ _ Hlen Hne) as C.
  destruct (confusion_matrix_shape _ _ _ C) as (Hrows & Hcols & Hcm).
  rewrite C. cbn [Py.bind].
  set (cm := map _ (Sklearn.unique_labels y_true y_pred)) in *.
  unfold Plt.set_ticklabels.
  rewrite shape1_normalize_rows, Hcols.
  unfold Np.normalize_rows at 1 2. rewrite length_map, Hrows.
  rewrite (proj2 (Nat.eqb_eq _ _) (eq_sym Hc)). cbn [Py.bind Py.ret].
  destruct cm as [|row cm']; [congruence|].
  destruct row as [|x row].
  - cbn in Hcols. rewrite <- Hcols in Hrows. discriminate.
  - cbn [map Np.normalize_rows concat app Np.amax Py.bind Py.ret].
    eexists. reflexivity.
Qed.

(** With another number of class names the tick labels are refused. *)
Lemma plot_raises (y_true y_pred : list Z) (classes : list string) :
  length y_true = length y_pred -> y_true <> [] ->
  length (Sklearn.unique_labels y_true y_pred) <> length classes ->
  exists e, GazeNet.plot_confusion_matrix y_true y_pred classes true = inl e /\
            Py.exn_class e = "ValueError"%string.
Proof.
  intros Hlen Hne Hc.
  unfold GazeNet.plot_confusion_matrix.
  pose proof (SklearnFacts.confusion_matrix_returns _ _ Hlen Hne) as C.
  destruct (confusion_matrix_shape _ _ _ C) as (Hrows & Hcols & Hcm).
  rewrite C. cbn [Py.bind].
  set (cm := map _ (Sklearn.unique_labels y_true y_pred)) in *.
  destruct (set_ticklabels_mismatch (Np.shape1 (Np.normalize_rows cm)) classes)
    as (e & -> & He).
  - rewrite shape1_normalize_rows, Hcols. congruence.
  - exists e. split; [reflexivity|exact He].
Qed.

End PlotFacts.


Lemma nth_error_map_inv {A B : Type} (f : A -> B) (l : list A) (i : nat) (y : B) :
  nth_error (map f l) i = Some y -> exists x, nth_error l i = Some x /\ y = f x.
Proof.
  rewrite nth_error_map. destruct (nth_error l i) as [x|]; [|discriminate].
  intro H. injection H as <-. now exists x.
Qed.

(* ------------------------------------------------------------------ *)
(** ** The prediction log and the counts of the matrix *)

Module ReadingFacts.

Lemma agreements_cons (p t : Z) (pred target : list Z) :
  Reading.agreements (p :: pred) (t :: target) =
  (if p =? t then 1 else 0) + Reading.agreements pred target.
Proof.
  unfold Reading.agreements. cbn [combine filter fst snd].
  destruct (p =? t); cbn [length]; lia.
Qed.

Lemma agreements_app : forall pred1 target1 pred2 target2 : list Z,
  length pred1 = length target1 ->
  Reading.agreements (pred1 ++ pred2) (target1 ++ target2) =
  Reading.agreements pred1 target1 + Reading.agreements pred2 target2.
Proof.
  induction pred1 as [|p pred1 IH]; intros [|t target1] pred2 target2 H;
    try discriminate.
  - reflexivity.
  - cbn [app]. rewrite !agreements_cons, IH by (simpl in H; lia). lia.
Qed.

Lemma agreements_comm : forall pred target : list Z,
  Reading.agreements pred target = Reading.agreements target pred.
Proof.
  induction pred as [|p pred IH]; intros [|t target]; try reflexivity.
  rewrite !agreements_cons, IH, (Z.eqb_sym p t). reflexivity.
Qed.

(** The sum of [pred.eq(target)] on tensors of one size is the number of
    agreeing positions. *)
Lemma sum_eq_agreements (pred target : list Z) (hits : list bool) :
  length pred = length target ->
  Torch.eq pred target = inr hits ->
  Torch.sum hits = Reading.agreements pred target.
Proof.
  intros Hlen H. unfold Torch.eq in H.
  rewrite (proj2 (Nat.eqb_eq _ _) Hlen) in H. injection H as <-.
  unfold Torch.sum, Reading.agreements. f_equal.
  induction (combine pred target) as [|[p t] l IH]; [reflexivity|].
  cbn [map filter fst snd]. destruct (p =? t); cbn [length]; now rewrite IH.
Qed.

Lemma count_fst_cons (t a b : Z) (pairs : list (Z * Z)) :
  Z.of_nat (length (filter (fun tp => fst tp =? t) ((a, b) :: pairs))) =
  (if a =? t then 1 else 0)
  + Z.of_nat (length (filter (fun tp => fst tp =? t) pairs)).
Proof. cbn [filter fst]. destruct (a =? t); cbn [length]; lia. Qed.

Lemma row_sum_zero (l : list Z) : Np.row_sum (map (fun _ => 0) l) = 0.
Proof. induction l as [|x l IH]; [reflexivity|]. cbn. exact IH. Qed.

(** Over distinct labels that cover the true labels, the per-label counts
    add up to the number of examples. *)
Lemma counts_cover (labels : list Z) (pairs : list (Z * Z)) :
  NoDup labels ->
  (forall tp, In tp pairs -> In (fst tp) labels) ->
  Np.row_sum
    (map (fun t => Z.of_nat (length (filter (fun tp => fst tp =? t) pairs))) labels)
  = Z.of_nat (length pairs).
Proof.
  intro N. induction pairs as [|[a b] pairs IH]; intro Hcov.
  - apply row_sum_zero.
  - rewrite (map_ext _ _ (fun t => count_fst_cons t a b pairs)).
    rewrite SklearnFacts.row_sum_add, IH by (intros; apply Hcov; now right).
    rewrite SklearnFacts.row_sum_indicator;
      [cbn [length]; lia|exact N|apply (Hcov (a, b)); now left].
Qed.

Lemma diagonal_counts (labels : list Z) (pairs : list (Z * Z)) :
  NoDup labels ->
  (forall tp, In tp pairs -> In (fst tp) labels) ->
  Np.row_sum (map (fun t => Sklearn.count_pair t t pairs) labels)
  = Z.of_nat (length (filter (fun tp => fst tp =? snd tp) pairs)).
Proof.
  intro N. induction pairs as [|[a b] pairs IH]; intro Hcov.
  - apply row_sum_zero.
  - rewrite (map_ext _ _ (fun t => SklearnFacts.count_pair_cons t t a b pairs)).
    rewrite SklearnFacts.row_sum_add, IH by (intros; apply Hcov; now right).
    cbn [filter fst snd].
    destruct (a =? b) eqn:E.
    + apply Z.eqb_eq in E. subst b.
      rewrite (map_ext _ (fun p => if a =? p then 1 else 0))
        by (intro p; now destruct (a =? p)).
      rewrite SklearnFacts.row_sum_indicator;
        [cbn [length]; lia|exact N|apply (Hcov (a, a)); now left].
    + apply Z.eqb_neq in E.
      rewrite (map_ext _ (fun _ => 0)).
      * rewrite row_sum_zero. lia.
      * intro p. destruct (a =? p) eqn:A; [|reflexivity].
        apply Z.eqb_eq in A. subst p.
        now rewrite (proj2 (Z.eqb_neq _ _) (not_eq_sym E)).
Qed.

Lemma diagonal_from_rows (g : Z -> Z -> Z) : forall suf pre : list Z,
  Reading.diagonal_from (length pre)
    (map (fun t => map (g t) (pre ++ suf)) suf)
  = Np.row_sum (map (fun t => g t t) suf).
Proof.
  induction suf as [|t suf IH]; intro pre; [reflexivity|].
  cbn [map Reading.diagonal_from].
  rewrite SklearnFacts.row_sum_cons. f_equal.
  - rewrite map_app. cbn [map].
    rewrite <- (length_map (g t) pre). apply nth_middle.
  - specialize (IH (pre ++ [t])).
    rewrite <- app_assoc in IH. cbn [app] in IH.
    rewrite length_app in IH. cbn [length] in IH.
    rewrite Nat.add_1_r in IH. exact IH.
Qed.

Lemma matrix_total (y_true y_pred : list Z) (cm : list (list Z)) :
  Sklearn.confusion_matrix y_true y_pred = inr cm ->
  Reading.total cm = Z.of_nat (length y_true).
Proof.
  intro H. apply SklearnFacts.confusion_matrix_inv in H. destruct H as (Hlen & _ & ->).
  pose proof (SklearnFacts.unique_labels_NoDup y_true y_pred) as N.
  assert (Hcov : forall tp, In tp (combine y_true y_pred) ->
                            In (fst tp) (Sklearn.unique_labels y_true y_pred)).
  { intros [a b] Hin. apply SklearnFacts.unique_labels_in. left.
    eapply in_combine_l. exact Hin. }
  assert (Hcov' : forall tp, In tp (combine y_true y_pred) ->
                             In (snd tp) (Sklearn.unique_labels y_true y_pred)).
  { intros [a b] Hin. apply SklearnFacts.unique_labels_in. right.
    eapply in_combine_r. exact Hin. }
  unfold Reading.total. rewrite map_map.
  rewrite (map_ext _ (fun t => Z.of_nat
             (length (filter (fun tp => fst tp =? t) (combine y_true y_pred))))).
  - change (fold_right Z.add 0) with Np.row_sum.
    rewrite counts_cover by assumption.
    rewrite length_combine, Hlen, Nat.min_id. now rewrite <- Hlen.
  - intro t. now apply SklearnFacts.row_sum_counts.
Qed.

Lemma matrix_diagonal (y_true y_pred : list Z) (cm : list (list Z)) :
  Sklearn.confusion_matrix y_true y_pred = inr cm ->
  Reading.diagonal cm = Reading.agreements y_true y_pred.
Proof.
  intro H. apply SklearnFacts.confusion_matrix_inv in H. destruct H as (Hlen & _ & ->).
  pose proof (SklearnFacts.unique_labels_NoDup y_true y_pred) as N.
  assert (Hcov : forall tp, In tp (combine y_true y_pred) ->
                            In (fst tp) (Sklearn.unique_labels y_true y_pred)).
  { intros [a b] Hin. apply SklearnFacts.unique_labels_in. left.
    eapply in_combine_l. exact Hin. }
  unfold Reading.diagonal.
  pose proof (diagonal_from_rows
                (fun t p => Sklearn.count_pair t p (combine y_true y_pred))
                (Sklearn.unique_labels y_true y_pred) []) as D.
  cbn [length app] in D. etransitivity; [exact D|].
  now apply diagonal_counts.
Qed.

End ReadingFacts.

(* ------------------------------------------------------------------ *)
(** ** Sizes of the batches *)

Module ProgressFacts.

Section Chunks.

Context {A : Type}.
Variable n : nat.
Hypothesis n_pos : (0 < n)%nat.

(** The first [idx + 1] groups hold [n * (idx + 1)] elements, or all of
    them when the list is shorter. *)
Lemma chunk_prefix_length : forall (idx fuel : nat) (l : list A),
  (length l <= fuel)%nat ->
  (idx < length (Torch.chunk fuel n l))%nat ->
  length (concat (firstn (S idx) (Torch.chunk fuel n l)))
  = Nat.min (n * S idx) (length l).
Proof.
  induction idx as [|idx IH]; intros fuel l Hf Hi.
  - destruct fuel as [|fuel]; [simpl in Hi; lia|].
    destruct l as [|a l]; [simpl in Hi; lia|].
    cbn [Torch.chunk firstn concat]. rewrite app_nil_r, length_firstn. lia.
  - destruct fuel as [|fuel]; [simpl in Hi; lia|].
    destruct l as [|a l]; [simpl in Hi; lia|].
    cbn [Torch.chunk length] in Hi.
    change (firstn (S (S idx)) (Torch.chunk (S fuel) n (a :: l)))
      with (firstn n (a :: l)
            :: firstn (S idx) (Torch.chunk fuel n (skipn n (a :: l)))).
    cbn [concat]. rewrite length_app, length_firstn.
    assert (Hs : (length (skipn n (a :: l)) <= fuel)%nat).
    { rewrite length_skipn. cbn [length] in Hf |- *. lia. }
    rewrite IH; [|exact Hs|lia].
    assert (Hne : (0 < length (skipn n (a :: l)))%nat).
    { destruct (skipn n (a :: l)) eqn:E; [|simpl; lia].
      destruct fuel; simpl in Hi; lia. }
    rewrite length_skipn in *. nia.
Qed.

(** The group of index [idx] has [n] elements, or what is left. *)
Lemma chunk_nth_length : forall (idx fuel : nat) (l b : list A),
  (length l <= fuel)%nat ->
  nth_error (Torch.chunk fuel n l) idx = Some b ->
  length b = Nat.min n (length l - n * idx).
Proof.
  induction idx as [|idx IH]; intros fuel l b Hf Hb.
  - destruct fuel as [|fuel]; [discriminate|].
    destruct l as [|a l]; [discriminate|].
    cbn [Torch.chunk nth_error] in Hb. injection Hb as <-.
    rewrite length_firstn. lia.
  - destruct fuel as [|fuel]; [discriminate|].
    destruct l as [|a l]; [discriminate|].
    cbn [Torch.chunk nth_error] in Hb.
    apply IH in Hb.
    + rewrite Hb, length_skipn. nia.
    + rewrite length_skipn. cbn [length] in Hf |- *. lia.
Qed.

End Chunks.

End ProgressFacts.

(* ------------------------------------------------------------------ *)
(** ** The scores along a pass *)

Module ReplayFacts.

Section Network.

Variables X Params OptState Rng : Type.
Variable forward : Params -> bool -> Rng -> list X -> list Q * Rng.
Variable sgd_step : Params -> OptState -> Rng -> list X -> list Z -> Params * OptState.

Lemma training_outputs_length (batches : list (list X * list Z)) :
  forall (p : Params) (o : OptState) (g : Rng),
    length (Replay.training_outputs forward sgd_step batches p o g) = length batches.
Proof.
  induction batches as [|[data targets] batches IH]; intros p o g; [reflexivity|].
  cbn [Replay.training_outputs].
  destruct (forward p true g data) as [out g'].
  destruct (sgd_step p o g data targets) as [p' o'].
  cbn [length]. now rewrite IH.
Qed.

Lemma eval_outputs_length (batches : list (list X * list Z)) :
  forall (p : Params) (g : Rng),
    length (Replay.eval_outputs forward batches p g) = length batches.
Proof.
  induction batches as [|[data targets] batches IH]; intros p g; [reflexivity|].
  cbn [Replay.eval_outputs].
  destruct (forward p false g data) as [out g'].
  cbn [length]. now rewrite IH.
Qed.

End Network.

End ReplayFacts.

(* ------------------------------------------------------------------ *)
(** ** The script: loader, passes and main loop *)

Section ScriptFacts.

Variables X Params OptState Rng : Type.
Variable forward : Params -> bool -> Rng -> list X -> list Q * Rng.
Variable nll_loss : list (list Q) -> list Z -> Py.result Q.
Variable sgd_step : Params -> OptState -> Rng -> list X -> list Z -> Params * OptState.
Variable randperm : Rng -> nat -> list nat * Rng.
Variable args : GazeNet.Args.
Variables train_loader val_loader : Torch.DataLoader (X * Z).

Local Abbreviation World := (GazeNet.World X Params OptState Rng).
Local Abbreviation Event := (GazeNet.Event X Params).
Local Abbreviation iterate := (@GazeNet.iterate X Rng randperm args).
Local Abbreviation val_loop := (GazeNet.val_loop forward).
Local Abbreviation train_loop := (GazeNet.train_loop forward nll_loss sgd_step args).
Local Abbreviation val := (GazeNet.val forward randperm args val_loader).
Local Abbreviation train :=
  (GazeNet.train forward nll_loss sgd_step randperm args train_loader).
Local Abbreviation main_loop :=
  (GazeNet.main_loop forward nll_loss sgd_step randperm args train_loader val_loader).
Local Abbreviation main :=
  (GazeNet.main forward nll_loss sgd_step randperm args train_loader val_loader).
Local Abbreviation script :=
  (GazeNet.script forward nll_loss sgd_step randperm args).
Local Abbreviation train_set := (Torch.dataset train_loader).
Local Abbreviation val_set := (Torch.dataset val_loader).

(** *** The loader *)

Lemma split_fst {A B : Type} (l : list (A * B)) : fst (split l) = map fst l.
Proof.
  induction l as [|[a b] l IH]; [reflexivity|].
  simpl. destruct (split l). simpl in *. now rewrite IH.
Qed.

Lemma split_snd {A B : Type} (l : list (A * B)) : snd (split l) = map snd l.
Proof.
  induction l as [|[a b] l IH]; [reflexivity|].
  simpl. destruct (split l). simpl in *. now rewrite IH.
Qed.

Lemma iterate_unfold (loader : Torch.DataLoader (X * Z)) (g : Rng) :
  fst (iterate loader g) =
  map (@split X Z)
      (Torch.batched (Pos.to_nat (GazeNet.batch_size args))
         (Torch.take (Torch.dataset loader)
            (fst (randperm g (length (Torch.dataset loader)))))).
Proof.
  unfold GazeNet.iterate.
  now destruct (randperm g (length (Torch.dataset loader))).
Qed.

(** Every batch the loader yields is well formed. *)
Lemma iterate_well_formed (loader : Torch.DataLoader (X * Z)) (g : Rng) :
  Forall Obs.well_formed (fst (iterate loader g)).
Proof.
  rewrite iterate_unfold. apply Forall_map.
  eapply Forall_impl; [|apply TorchFacts.batched_nonempty; lia].
  intros b Hb. split.
  - now rewrite length_fst_split, length_snd_split.
  - rewrite split_fst. destruct b; [congruence|discriminate].
Qed.

Lemma concat_map_split_fst (chunks : list (list (X * Z))) :
  concat (map fst (map (@split X Z) chunks)) = map fst (concat chunks).
Proof.
  rewrite map_map, concat_map. f_equal.
  apply map_ext. intro. apply split_fst.
Qed.

Lemma concat_map_split_snd (chunks : list (list (X * Z))) :
  concat (map snd (map (@split X Z) chunks)) = map snd (concat chunks).
Proof.
  rewrite map_map, concat_map. f_equal.
  apply map_ext. intro. apply split_snd.
Qed.

(** One iteration of the loader visits every example exactly once. *)
Lemma iterate_permutation (loader : Torch.DataLoader (X * Z)) (g : Rng) :
  Obs.permutes randperm ->
  Permutation (concat (map fst (fst (iterate loader g))))
              (map fst (Torch.dataset loader)) /\
  Permutation (concat (map snd (fst (iterate loader g))))
              (map snd (Torch.dataset loader)).
Proof.
  intro P. rewrite iterate_unfold.
  rewrite concat_map_split_fst, concat_map_split_snd.
  rewrite !TorchFacts.batched_concat by lia.
  split; apply Permutation_map, TorchFacts.take_permutation, P.
Qed.

Lemma iterate_size (loader : Torch.DataLoader (X * Z)) (g : Rng) :
  Obs.permutes randperm ->
  length (concat (map snd (fst (iterate loader g))))
  = length (Torch.dataset loader).
Proof.
  intro P.
  rewrite (Permutation_length (proj2 (iterate_permutation loader g P))).
  apply length_map.
Qed.

Lemma loader_size (loader : Torch.DataLoader (X * Z)) :
  (0 < length (Torch.dataset loader))%nat.
Proof.
  pose proof (Torch.dataset_nonempty loader).
  destruct (Torch.dataset loader); [congruence|simpl; lia].
Qed.

(** A loader yields at least one batch in every pass. *)
Lemma iterate_nonempty (loader : Torch.DataLoader (X * Z)) (g : Rng) :
  Obs.permutes randperm -> fst (iterate loader g) <> [].
Proof.
  intros P E.
  pose proof (iterate_size loader g P) as S.
  pose proof (loader_size loader).
  rewrite E in S. simpl in S. lia.
Qed.

(** The targets of the batches are labels of the dataset. *)
Lemma iterate_targets (loader : Torch.DataLoader (X * Z)) (g : Rng) :
  Obs.permutes randperm ->
  Obs.labelled_with_classes (Torch.dataset loader) ->
  Forall (fun b => Forall Obs.is_class (snd b)) (fst (iterate loader g)).
Proof.
  intros P Hc.
  destruct (iterate_permutation loader g P) as (_ & Pt).
  apply Forall_forall. intros b Hb. apply Forall_forall. intros t Ht.
  assert (Hin : In t (map snd (Torch.dataset loader))).
  { eapply Permutation_in; [exact Pt|].
    apply in_concat. exists (snd b). split; [now apply in_map|exact Ht]. }
  apply in_map_iff in Hin. destruct Hin as (e & <- & He).
  unfold Obs.labelled_with_classes in Hc. rewrite Forall_forall in Hc.
  now apply Hc.
Qed.

(** *** The validation pass *)

(** The loop of [val] touches nothing but the generator and the trace: it
    adds one forward pass per batch, in stream order, and collects the
    targets in that order. *)
Lemma val_loop_frame (batches : list (list X * list Z)) :
  forall (w : World) (c : Z) (pa ta : list Z) w' c' pa' ta',
    val_loop batches w c pa ta = inr (w', c', pa', ta') ->
    GazeNet.netGaze w' = GazeNet.netGaze w /\
    GazeNet.training w' = GazeNet.training w /\
    GazeNet.optimizer w' = GazeNet.optimizer w /\
    GazeNet.best_accuracy w' = GazeNet.best_accuracy w /\
    GazeNet.trace w' =
      GazeNet.trace w
      ++ map (fun b => GazeNet.Forward (GazeNet.training w) (GazeNet.netGaze w) (fst b))
             batches /\
    ta' = ta ++ concat (map snd batches).
Proof.
  induction batches as [|[data target] batches IH]; intros w c pa ta w' c' pa' ta' H.
  - cbn in H. injection H as <- <- <- <-.
    cbn [map concat]. rewrite !app_nil_r. repeat split.
  - cbn [GazeNet.val_loop] in H.
    destruct (forward _ _ _ data) as [out g'].
    destruct (Torch.view GazeNet.num_classes out) as [e|scores];
      cbn [Py.bind] in H; [discriminate|].
    destruct (Torch.eq (map Torch.argmax scores) target) as [e|hits];
      cbn [Py.bind] in H; [discriminate|].
    apply IH in H. cbn in H.
    destruct H as (Hn & Ht & Ho & Hb & Htr & Hta).
    repeat split; try assumption.
    + rewrite Htr. cbn [map fst]. now rewrite <- app_assoc.
    + rewrite Hta. cbn [map snd concat]. now rewrite <- app_assoc.
Qed.

(** The predictions it logs are the arg-max classes of the scores that
    the network gives in evaluation mode, batch after batch. *)
Lemma val_loop_predictions (batches : list (list X * list Z)) :
  forall (w : World) (c : Z) (pa ta : list Z) w' c' pa' ta',
    GazeNet.training w = false ->
    val_loop batches w c pa ta = inr (w', c', pa', ta') ->
    pa' = pa ++ Replay.predictions
                  (Replay.eval_outputs forward batches (GazeNet.netGaze w)
                                       (GazeNet.rng w)).
Proof.
  induction batches as [|[data target] batches IH];
    intros w c pa ta w' c' pa' ta' Tr H.
  - cbn in H. injection H as <- <- <- <-. cbn. now rewrite app_nil_r.
  - cbn [GazeNet.val_loop] in H. rewrite Tr in H.
    cbn [Replay.eval_outputs].
    destruct (forward _ false _ data) as [out g'].
    destruct (Torch.view GazeNet.num_classes out) as [e|scores] eqn:V;
      cbn [Py.bind] in H; [discriminate|].
    apply TorchFacts.view_inv in V. subst scores.
    destruct (Torch.eq _ target) as [e|hits];
      cbn [Py.bind] in H; [discriminate|].
    apply IH in H; [|exact Tr]. cbn in H. rewrite H.
    unfold Replay.predictions, Replay.score_rows. cbn [map flat_map].
    now rewrite <- app_assoc.
Qed.

(** On well-formed batches, with one row of scores per example, the loop
    completes; it counts the positions at which prediction and target
    agree, at most one per example, and logs one prediction per target. *)
Lemma val_loop_returns (batches : list (list X * list Z)) :
  Obs.one_row_per_example forward ->
  Forall Obs.well_formed batches ->
  forall (w : World) (c : Z) (pa ta : list Z),
  exists w' c' preds,
    val_loop batches w c pa ta
      = inr (w', c', pa ++ preds, ta ++ concat (map snd batches)) /\
    c' = c + Reading.agreements preds (concat (map snd batches)) /\
    c <= c' <= c + Z.of_nat (length (concat (map snd batches))) /\
    length preds = length (concat (map snd batches)) /\
    Forall Obs.is_class preds.
Proof.
  intros Hrows W. induction W as [|[data target] batches [Hlen Hne] W IH];
    intros w c pa ta.
  - exists w, c, []. cbn. rewrite !app_nil_r. repeat split; try lia. constructor.
  - cbn [fst snd] in Hlen, Hne. cbn [GazeNet.val_loop].
    pose proof (Hrows (GazeNet.netGaze w) (GazeNet.training w)
                  (GazeNet.rng w) data) as Hout.
    destruct (forward _ _ _ data) as [out g']. cbn [fst] in Hout.
    destruct (TorchFacts.view_rows GazeNet.num_classes (length data) out)
      as (-> & Hscores & Hcols);
      [unfold GazeNet.num_classes; lia
      |destruct data; [congruence|simpl; lia]
      |exact Hout|].
    cbn [Py.bind].
    set (scores := Torch.batched GazeNet.num_classes out) in *.
    assert (Hp : length (map Torch.argmax scores) = length target)
      by (rewrite length_map; congruence).
    destruct (TorchFacts.eq_same_size (map Torch.argmax scores) target Hp)
      as (hits & E & Hhits).
    rewrite E. cbn [Py.bind].
    edestruct IH as (w' & c' & preds & -> & Hc & Hb & Hl & Hcl).
    exists w', c', (map Torch.argmax scores ++ preds).
    rewrite <- !app_assoc. cbn [map snd concat].
    split; [reflexivity|].
    pose proof (TorchFacts.sum_bounds hits).
    rewrite ReadingFacts.agreements_app by exact Hp.
    rewrite (ReadingFacts.sum_eq_agreements _ _ _ Hp E) in *.
    rewrite !length_app, length_map.
    split; [lia|]. split; [lia|]. split; [lia|].
    apply Forall_app. split; [|exact Hcl].
    apply Forall_map. eapply Forall_impl; [|exact Hcols].
    intros row Hr. cbv beta. unfold Obs.is_class.
    rewrite <- Hr. apply TorchFacts.argmax_bound.
    intros ->. discriminate Hr.
Qed.

(** *** The training pass *)

(** The loop of [train] leaves the train/eval flag and [best_accuracy]
    alone, adds only batch events to the trace, and appends one loss per
    batch, in stream order. *)
Lemma train_loop_frame (epoch : Z) (batches : list (list X * list Z)) :
  forall (b_idx : Z) (w : World) (c : Z) (el : list Q) w' c' el',
    train_loop epoch batches b_idx w c el = inr (w', c', el') ->
    GazeNet.training w' = GazeNet.training w /\
    GazeNet.best_accuracy w' = GazeNet.best_accuracy w /\
    exists steps losses,
      GazeNet.trace w' = GazeNet.trace w ++ steps /\
      Forall (fun e => Obs.is_batch_event e = true) steps /\
      el' = el ++ losses /\
      length losses = length batches.
Proof.
  induction batches as [|[data targets] batches IH];
    intros b_idx w c el w' c' el' H.
  - cbn in H. injection H as <- <- <-.
    split; [reflexivity|]. split; [reflexivity|].
    exists [], []. rewrite !app_nil_r. repeat split; constructor.
  - cbn [GazeNet.train_loop] in H.
    destruct (forward _ _ _ data) as [out g'].
    destruct (Torch.view GazeNet.num_classes out) as [e|scores] eqn:V;
      cbn [Py.bind] in H; [discriminate|].
    destruct (nll_loss scores targets) as [e|loss] eqn:N;
      cbn [Py.bind] in H; [discriminate|].
    destruct (Torch.eq (map Torch.argmax scores) targets) as [e|hits] eqn:E;
      cbn [Py.bind] in H; [discriminate|].
    destruct (sgd_step _ _ _ data targets) as [p' o'].
    unfold Py.mod_is_zero in H.
    destruct (GazeNet.log_schedule args =? 0); cbn [Py.bind Py.raise Py.ret] in H;
      [discriminate|].
    destruct (b_idx mod GazeNet.log_schedule args =? 0);
      apply IH in H; cbn in H;
      destruct H as (Ht & Hb & steps & losses & Htr & Hst & Hel & Hl);
      (split; [exact Ht|split; [exact Hb|]]);
      eexists; exists (loss :: losses);
      (split; [rewrite Htr, <- !app_assoc; cbn [app]; reflexivity|]);
      (split; [repeat (constructor; [reflexivity|]); exact Hst|]);
      (split; [rewrite Hel, <- app_assoc; reflexivity|]);
      cbn [length]; now rewrite Hl.
Qed.

(** The losses it collects are those of the scores that the network gives
    in training mode, each batch scored by the network as the steps before
    it have left it, against the targets of that batch. *)
Lemma train_loop_losses (epoch : Z) (batches : list (list X * list Z)) :
  forall (b_idx : Z) (w : World) (c : Z) (el : list Q) w' c' el',
    GazeNet.training w = true ->
    train_loop epoch batches b_idx w c el = inr (w', c', el') ->
    exists losses,
      el' = el ++ losses /\
      Forall2 (fun loss ot =>
                 nll_loss (Torch.batched GazeNet.num_classes (fst ot)) (snd ot)
                 = inr loss)
              losses
              (combine (Replay.training_outputs forward sgd_step batches
                          (GazeNet.netGaze w) (GazeNet.optimizer w) (GazeNet.rng w))
                       (map snd batches)).
Proof.
  induction batches as [|[data targets] batches IH];
    intros b_idx w c el w' c' el' Tr H.
  - cbn in H. injection H as <- <- <-.
    exists []. rewrite app_nil_r. split; [reflexivity|constructor].
  - cbn [GazeNet.train_loop] in H. rewrite Tr in H.
    cbn [Replay.training_outputs].
    destruct (forward _ true _ data) as [out g'].
    destruct (Torch.view GazeNet.num_classes out) as [e|scores] eqn:V;
      cbn [Py.bind] in H; [discriminate|].
    apply TorchFacts.view_inv in V. subst scores.
    destruct (nll_loss _ targets) as [e|loss] eqn:N;
      cbn [Py.bind] in H; [discriminate|].
    destruct (Torch.eq _ targets) as [e|hits] eqn:E;
      cbn [Py.bind] in H; [discriminate|].
    cbn [GazeNet.netGaze GazeNet.optimizer GazeNet.emit GazeNet.set_rng] in H.
    destruct (sgd_step _ _ _ data targets) as [p' o'].
    unfold Py.mod_is_zero in H.
    destruct (GazeNet.log_schedule args =? 0); cbn [Py.bind Py.raise Py.ret] in H;
      [discriminate|].
    destruct (b_idx mod GazeNet.log_schedule args =? 0);
      apply IH in H; try exact Tr; cbn in H;
      destruct H as (losses & Hel & Hl);
      exists (loss :: losses);
      (split; [rewrite Hel, <- app_assoc; reflexivity|]);
      cbn [map snd combine]; (constructor; [exact N|exact Hl]).
Qed.

(** On well-formed batches with one row of scores per example, it counts
    the positions at which the arg-max class of these scores agrees with
    the target, at most one per example. *)
Lemma train_loop_count (epoch : Z) (batches : list (list X * list Z)) :
  Obs.one_row_per_example forward ->
  Forall Obs.well_formed batches ->
  forall (b_idx : Z) (w : World) (c : Z) (el : list Q) w' c' el',
    GazeNet.training w = true ->
    train_loop epoch batches b_idx w c el = inr (w', c', el') ->
    let preds :=
      Replay.predictions
        (Replay.training_outputs forward sgd_step batches
           (GazeNet.netGaze w) (GazeNet.optimizer w) (GazeNet.rng w)) in
    length preds = length (concat (map snd batches)) /\
    c' = c + Reading.agreements preds (concat (map snd batches)) /\
    c <= c' <= c + Z.of_nat (length (concat (map snd batches))).
Proof.
  intros Hrows W. induction W as [|[data targets] batches [Hlen Hne] W IH];
    intros b_idx w c el w' c' el' Tr H.
  - cbn in H. injection H as <- <- <-. cbn. repeat split; lia.
  - cbn [fst snd] in Hlen, Hne. cbn [GazeNet.train_loop] in H. rewrite Tr in H.
    cbv zeta. cbn [Replay.training_outputs].
    pose proof (Hrows (GazeNet.netGaze w) true (GazeNet.rng w) data) as Hout.
    destruct (forward _ true _ data) as [out g']. cbn [fst] in Hout.
    destruct (TorchFacts.view_rows GazeNet.num_classes (length data) out)
      as (V & Hscores & Hcols);
      [unfold GazeNet.num_classes; lia
      |destruct data; [congruence|simpl; lia]
      |exact Hout|].
    rewrite V in H. cbn [Py.bind] in H.
    set (scores := Torch.batched GazeNet.num_classes out) in *.
    destruct (nll_loss scores targets) as [e|loss] eqn:N;
      cbn [Py.bind] in H; [discriminate|].
    assert (Hp : length (map Torch.argmax scores) = length targets)
      by (rewrite length_map; congruence).
    destruct (TorchFacts.eq_same_size (map Torch.argmax scores) targets Hp)
      as (hits & E & Hhits).
    rewrite E in H. cbn [Py.bind] in H.
    cbn [GazeNet.netGaze GazeNet.optimizer GazeNet.emit GazeNet.set_rng] in H.
    destruct (sgd_step _ _ _ data targets) as [p' o'].
    unfold Py.mod_is_zero in H.
    destruct (GazeNet.log_schedule args =? 0); cbn [Py.bind Py.raise Py.ret] in H;
      [discriminate|].
    pose proof (TorchFacts.sum_bounds hits) as Hs.
    rewrite (ReadingFacts.sum_eq_agreements _ _ _ Hp E) in *.
    destruct (b_idx mod GazeNet.log_schedule args =? 0);
      apply IH in H; try exact Tr; cbn in H;
      destruct H as (Hl & Hc & Hb);
      unfold Replay.predictions, Replay.score_rows in *;
      cbn [map flat_map snd concat];
      fold scores;
      rewrite !length_app, ReadingFacts.agreements_app by exact Hp;
      rewrite Hl, Hp; repeat split; lia.
Qed.

(** On well-formed batches, with one row of scores per example, targets
    that are classes, a loss for such batches and a non-zero logging
    period, the loop completes. *)
Lemma train_loop_returns (epoch : Z) (batches : list (list X * list Z)) :
  Obs.one_row_per_example forward ->
  Obs.loss_defined nll_loss ->
  GazeNet.log_schedule args <> 0 ->
  Forall Obs.well_formed batches ->
  Forall (fun b => Forall Obs.is_class (snd b)) batches ->
  forall (b_idx : Z) (w : World) (c : Z) (el : list Q),
  exists w' c' el', train_loop epoch batches b_idx w c el = inr (w', c', el').
Proof.
  intros Hrows Hloss Hlog W. induction W as [|[data targets] batches [Hlen Hne] W IH];
    intros Hcl b_idx w c el.
  - do 3 eexists. reflexivity.
  - cbn [fst snd] in Hlen, Hne. cbn [GazeNet.train_loop].
    inversion Hcl as [|? ? Ht Hcl']; subst. cbn [snd] in Ht.
    pose proof (Hrows (GazeNet.netGaze w) (GazeNet.training w)
                  (GazeNet.rng w) data) as Hout.
    destruct (forward _ _ _ data) as [out g']. cbn [fst] in Hout.
    destruct (TorchFacts.view_rows GazeNet.num_classes (length data) out)
      as (-> & Hscores & Hcols);
      [unfold GazeNet.num_classes; lia
      |destruct data; [congruence|simpl; lia]
      |exact Hout|].
    cbn [Py.bind].
    set (scores := Torch.batched GazeNet.num_classes out) in *.
    destruct (Hloss scores targets) as (loss & ->);
      [intros E; rewrite E in Hscores; destruct data; [congruence|discriminate]
      |congruence|exact Hcols|exact Ht|].
    cbn [Py.bind].
    destruct (TorchFacts.eq_same_size (map Torch.argmax scores) targets)
      as (hits & -> & Hhits);
      [rewrite length_map; congruence|].
    cbn [Py.bind].
    destruct (sgd_step _ _ _ data targets) as [p' o'].
    unfold Py.mod_is_zero.
    rewrite (proj2 (Z.eqb_neq _ _) Hlog). cbn [Py.bind Py.ret].
    now apply IH.
Qed.

(** *** The two passes as a whole *)

(** [100.0 * float(correct) / float(size)] *)
Local Abbreviation percent correct size :=
  (Py.truediv (Py.mul 100 (Py.float correct)) (Py.float (Z.of_nat size))).

(** What a completed call of [val] did, step by step. *)
Lemma val_inv (w w' : World) (acc : Q) :
  val w = inr (w', acc) ->
  let start :=
    GazeNet.set_rng (snd (iterate val_loader (GazeNet.rng w)))
      (GazeNet.set_training false (GazeNet.emit (GazeNet.Call_val (GazeNet.netGaze w)) w)) in
  exists w1 correct pred_all target_all,
    val_loop (fst (iterate val_loader (GazeNet.rng w))) start 0 [] []
      = inr (w1, correct, pred_all, target_all) /\
    percent correct (length val_set) = inr acc /\
    let logged := GazeNet.emit (GazeNet.Log_val correct (length val_set) acc) w1 in
    ((Py.gt acc (GazeNet.best_accuracy w1) = true /\
      exists fig,
        GazeNet.plot_confusion_matrix target_all pred_all
          Startup.activity_classes true = inr fig /\
        w' = GazeNet.emit (GazeNet.Return_val (GazeNet.netGaze w1) acc)
               (GazeNet.emit (GazeNet.Savefig_confusion_matrix fig)
                  (GazeNet.emit (GazeNet.Torch_save (GazeNet.netGaze w1))
                     (GazeNet.set_best acc logged))))
     \/
     (Py.gt acc (GazeNet.best_accuracy w1) = false /\
      w' = GazeNet.emit (GazeNet.Return_val (GazeNet.netGaze w1) acc) logged)).
Proof.
  unfold GazeNet.val. cbn [GazeNet.rng GazeNet.set_training GazeNet.emit].
  destruct (iterate val_loader (GazeNet.rng w)) as [batches g]. cbn [fst snd].
  intro H.
  match type of H with
  | Py.bind ?loop _ = _ => destruct loop as [e|[[[w1 correct] pred_all] target_all]] eqn:L
  end; cbn [Py.bind] in H; [discriminate|].
  destruct (percent correct (length val_set)) as [e|a] eqn:D;
    cbn [Py.bind] in H; [discriminate|].
  exists w1, correct, pred_all, target_all.
  split; [reflexivity|].
  change (GazeNet.best_accuracy
            (GazeNet.emit (GazeNet.Log_val correct (length val_set) a) w1))
    with (GazeNet.best_accuracy w1) in H.
  destruct (Py.gt a (GazeNet.best_accuracy w1)) eqn:G.
  - destruct (GazeNet.plot_confusion_matrix target_all pred_all
                Startup.activity_classes true)
      as [e|fig] eqn:P; cbn [Py.bind] in H; [discriminate|].
    injection H as <- <-. split; [exact D|].
    left. split; [exact G|]. exists fig. split; reflexivity.
  - injection H as <- <-. split; [exact D|].
    right. split; [exact G|reflexivity].
Qed.

(** The prediction log of a validation pass, under the contracts of the
    network and the sampler: the loop completes, the targets are those of
    the batches, the predictions are the arg-max classes of the scores of
    the network in evaluation mode, and the count is the number of
    positions at which the two agree. *)
Lemma val_log (w : World) :
  Obs.one_row_per_example forward -> Obs.permutes randperm ->
  let batches := fst (iterate val_loader (GazeNet.rng w)) in
  let start :=
    GazeNet.set_rng (snd (iterate val_loader (GazeNet.rng w)))
      (GazeNet.set_training false (GazeNet.emit (GazeNet.Call_val (GazeNet.netGaze w)) w)) in
  exists w1 correct preds,
    val_loop batches start 0 [] []
      = inr (w1, correct, preds, concat (map snd batches)) /\
    preds = Replay.predictions
              (Replay.eval_outputs forward batches (GazeNet.netGaze w)
                 (snd (iterate val_loader (GazeNet.rng w)))) /\
    correct = Reading.agreements preds (concat (map snd batches)) /\
    0 <= correct <= Z.of_nat (length val_set) /\
    length preds = length val_set /\
    length (concat (map snd batches)) = length val_set /\
    Forall Obs.is_class preds /\
    GazeNet.best_accuracy w1 = GazeNet.best_accuracy w.
Proof.
  intros Hrows Hperm batches start.
  destruct (val_loop_returns batches Hrows (iterate_well_formed val_loader _)
              start 0 [] [])
    as (w1 & c & preds & L & Hc & Hb & Hl & Hcl).
  cbn [app] in L.
  pose proof (iterate_size val_loader (GazeNet.rng w) Hperm) as Hs.
  fold batches in Hs.
  exists w1, c, preds. split; [exact L|].
  split.
  { apply (val_loop_predictions batches start 0 [] [] w1 c preds _ eq_refl L). }
  split; [lia|]. split; [lia|]. split; [congruence|]. split; [exact Hs|].
  split; [exact Hcl|].
  now pose proof (val_loop_frame _ _ _ _ _ _ _ _ _ L) as (_ & _ & _ & Hbest & _).
Qed.

(** Summary of a completed call of [val]: the network and the optimizer
    are as before, the trace grows by [Obs.val_trace], and the checkpoint and
    the figure are written exactly when the accuracy beats the best one. *)
Lemma val_spec (w w' : World) (acc : Q) :
  val w = inr (w', acc) ->
  let p := GazeNet.netGaze w in
  let batches := fst (iterate val_loader (GazeNet.rng w)) in
  GazeNet.netGaze w' = p /\
  GazeNet.optimizer w' = GazeNet.optimizer w /\
  GazeNet.training w' = false /\
  exists correct pred_all saved,
    percent correct (length val_set) = inr acc /\
    GazeNet.trace w' =
      GazeNet.trace w ++ Obs.val_trace p batches correct (length val_set) acc saved /\
    ((Py.gt acc (GazeNet.best_accuracy w) = true /\
      GazeNet.best_accuracy w' = acc /\
      exists fig,
        GazeNet.plot_confusion_matrix (concat (map snd batches)) pred_all
          Startup.activity_classes true = inr fig /\
        saved = [GazeNet.Torch_save p; GazeNet.Savefig_confusion_matrix fig])
     \/
     (Py.gt acc (GazeNet.best_accuracy w) = false /\
      GazeNet.best_accuracy w' = GazeNet.best_accuracy w /\
      saved = [])) /\
    (Obs.one_row_per_example forward -> Obs.permutes randperm ->
     0 <= correct <= Z.of_nat (length val_set) /\
     length pred_all = length val_set /\
     correct = Reading.agreements pred_all (concat (map snd batches)) /\
     pred_all = Replay.predictions
                  (Replay.eval_outputs forward batches p
                     (snd (iterate val_loader (GazeNet.rng w))))).
Proof.
  intro H. apply val_inv in H.
  destruct H as (w1 & correct & pred_all & target_all & L & D & H).
  pose proof (val_loop_frame _ _ _ _ _ _ _ _ _ L) as (Hn & Ht & Ho & Hb & Htr & Hta).
  cbn in Hn, Ht, Ho, Hb, Htr, Hta. cbn zeta in H.
  assert (Bound : Obs.one_row_per_example forward -> Obs.permutes randperm ->
                  0 <= correct <= Z.of_nat (length val_set) /\
                  length pred_all = length val_set /\
                  correct = Reading.agreements pred_all
                              (concat (map snd (fst (iterate val_loader (GazeNet.rng w))))) /\
                  pred_all = Replay.predictions
                               (Replay.eval_outputs forward
                                  (fst (iterate val_loader (GazeNet.rng w)))
                                  (GazeNet.netGaze w)
                                  (snd (iterate val_loader (GazeNet.rng w))))).
  { intros Hrows Hperm.
    destruct (val_log w Hrows Hperm)
      as (w2 & c2 & preds & L2 & Hp & Hc & Hcb & Hl & _).
    cbv zeta in L2. rewrite L in L2. injection L2 as <- <- -> _.
    repeat split; assumption || lia. }
  destruct H as [(G & fig & P & ->)|(G & ->)]; cbv zeta;
    cbn [GazeNet.netGaze GazeNet.optimizer GazeNet.training GazeNet.emit
         GazeNet.set_best GazeNet.best_accuracy GazeNet.trace];
    (split; [exact Hn|split; [exact Ho|split; [exact Ht|]]]).
  - exists correct, pred_all,
      [GazeNet.Torch_save (GazeNet.netGaze w); GazeNet.Savefig_confusion_matrix fig].
    split; [exact D|]. split; [|split; [|exact Bound]].
    + rewrite Htr, Hn. unfold Obs.val_trace. cbn [app].
      rewrite <- !app_assoc. reflexivity.
    + left. rewrite <- Hb. split; [exact G|]. split; [reflexivity|].
      exists fig. rewrite <- Hta. split; [exact P|reflexivity].
  - exists correct, pred_all, [].
    split; [exact D|]. split; [|split; [|exact Bound]].
    + rewrite Htr, Hn. unfold Obs.val_trace. cbn [app].
      rewrite <- !app_assoc. reflexivity.
    + right. rewrite <- Hb. repeat split. exact G.
Qed.

(** How a call of [val] ends, under the contracts of the network and the
    sampler: the loop and the accuracy are always computed; the call
    returns unless the accuracy beats the best one and the labels that
    occur in the log are not as many as the classes, in which case the
    tick labels of the figure are refused. *)
Lemma val_outcome (w : World) :
  Obs.one_row_per_example forward -> Obs.permutes randperm ->
  let batches := fst (iterate val_loader (GazeNet.rng w)) in
  let preds :=
    Replay.predictions
      (Replay.eval_outputs forward batches (GazeNet.netGaze w)
         (snd (iterate val_loader (GazeNet.rng w)))) in
  let labels := Sklearn.unique_labels (concat (map snd batches)) preds in
  exists acc,
    percent (Reading.agreements preds (concat (map snd batches))) (length val_set)
      = inr acc /\
    (Py.gt acc (GazeNet.best_accuracy w) = false ->
     exists w', val w = inr (w', acc)) /\
    (Py.gt acc (GazeNet.best_accuracy w) = true ->
     length labels = length Startup.activity_classes ->
     exists w', val w = inr (w', acc)) /\
    (Py.gt acc (GazeNet.best_accuracy w) = true ->
     length labels <> length Startup.activity_classes ->
     exists e, val w = inl e /\ Py.exn_class e = "ValueError"%string).
Proof.
  intros Hrows Hperm batches preds labels.
  destruct (val_log w Hrows Hperm)
    as (w1 & c & preds' & L & Hp & Hc & Hcb & Hl & Hs & _ & Hbest).
  cbv zeta in L, Hp. fold batches in L, Hp, Hc, Hs. fold preds in Hp.
  subst preds'. rewrite <- Hc.
  destruct (PyFacts.percentage_returns c (length val_set) (loader_size val_loader))
    as (acc & D).
  exists acc. split; [exact D|].
  assert (Hne : concat (map snd batches) <> []).
  { intro E. rewrite E in Hs. pose proof (loader_size val_loader). simpl in Hs. lia. }
  assert (Hlen : length (concat (map snd batches)) = length preds) by congruence.
  assert (U : forall k : World * Z * list Z * list Z -> Py.result (World * Q),
             val w =
             Py.bind (val_loop batches
                        (GazeNet.set_rng (snd (iterate val_loader (GazeNet.rng w)))
                           (GazeNet.set_training false
                              (GazeNet.emit (GazeNet.Call_val (GazeNet.netGaze w)) w)))
                        0 [] []) k -> val w = k (w1, c, preds, concat (map snd batches))).
  { intros k E. rewrite E, L. reflexivity. }
  split; [|split].
  - intro G. unfold GazeNet.val.
    cbn [GazeNet.rng GazeNet.set_training GazeNet.emit].
    subst batches.
    destruct (iterate val_loader (GazeNet.rng w)) as [bs g]. cbn [fst snd] in *.
    rewrite L. cbn [Py.bind]. rewrite D. cbn [Py.bind].
    change (GazeNet.best_accuracy
              (GazeNet.emit (GazeNet.Log_val c (length val_set) acc) w1))
      with (GazeNet.best_accuracy w1).
    rewrite Hbest, G. eexists. reflexivity.
  - intros G Hlab. unfold GazeNet.val.
    cbn [GazeNet.rng GazeNet.set_training GazeNet.emit].
    destruct (PlotFacts.plot_returns (concat (map snd batches)) preds
                Startup.activity_classes Hlen Hne Hlab) as (fig & P).
    subst batches.
    destruct (iterate val_loader (GazeNet.rng w)) as [bs g]. cbn [fst snd] in *.
    rewrite L. cbn [Py.bind]. rewrite D. cbn [Py.bind].
    change (GazeNet.best_accuracy
              (GazeNet.emit (GazeNet.Log_val c (length val_set) acc) w1))
      with (GazeNet.best_accuracy w1).
    rewrite Hbest, G, P. cbn [Py.bind]. eexists. reflexivity.
  - intros G Hlab. unfold GazeNet.val.
    cbn [GazeNet.rng GazeNet.set_training GazeNet.emit].
    destruct (PlotFacts.plot_raises (concat (map snd batches)) preds
                Startup.activity_classes Hlen Hne Hlab) as (e & P & He).
    subst batches.
    destruct (iterate val_loader (GazeNet.rng w)) as [bs g]. cbn [fst snd] in *.
    rewrite L. cbn [Py.bind]. rewrite D. cbn [Py.bind].
    change (GazeNet.best_accuracy
              (GazeNet.emit (GazeNet.Log_val c (length val_set) acc) w1))
      with (GazeNet.best_accuracy w1).
    rewrite Hbest, G, P. cbn [Py.bind]. exists e. split; [reflexivity|exact He].
Qed.

(** What a completed call of [train] did, step by step. *)
Lemma train_inv (w w' : World) (epoch : Z) (avg acc : Q) :
  train w epoch = inr (w', avg, acc) ->
  let start :=
    GazeNet.set_rng (snd (iterate train_loader (GazeNet.rng w)))
      (GazeNet.set_training true
         (GazeNet.emit (GazeNet.Call_train epoch (GazeNet.netGaze w)) w)) in
  exists w1 correct losses,
    train_loop epoch (fst (iterate train_loader (GazeNet.rng w))) 0 start 0 []
      = inr (w1, correct, losses) /\
    Statistics.mean losses = inr avg /\
    percent correct (length train_set) = inr acc /\
    w' = GazeNet.emit (GazeNet.Return_train (GazeNet.netGaze w1) avg acc)
           (GazeNet.emit (GazeNet.Log_accuracy acc)
              (GazeNet.emit (GazeNet.Log_avg_loss avg) w1)).
Proof.
  unfold GazeNet.train. cbn [GazeNet.rng GazeNet.set_training GazeNet.emit].
  destruct (iterate train_loader (GazeNet.rng w)) as [batches g]. cbn [fst snd].
  intro H.
  match type of H with
  | Py.bind ?loop _ = _ => destruct loop as [e|[[w1 correct] losses]] eqn:L
  end; cbn [Py.bind] in H; [discriminate|].
  destruct (Statistics.mean losses) as [e|m] eqn:M;
    cbn [Py.bind] in H; [discriminate|].
  destruct (percent correct (length train_set)) as [e|a] eqn:D;
    cbn [Py.bind] in H; [discriminate|].
  injection H as <- <- <-.
  exists w1, correct, losses. repeat split; solve [eassumption|reflexivity].
Qed.

(** Once the loop of [train] is through, neither the mean nor the
    division can fail: there is a loss for every batch, the loader yields
    at least one batch, and the dataset is not empty. *)
Lemma train_after_loop (w : World) (epoch : Z) w1 correct losses :
  Obs.permutes randperm ->
  train_loop epoch (fst (iterate train_loader (GazeNet.rng w))) 0
    (GazeNet.set_rng (snd (iterate train_loader (GazeNet.rng w)))
       (GazeNet.set_training true
          (GazeNet.emit (GazeNet.Call_train epoch (GazeNet.netGaze w)) w)))
    0 []
    = inr (w1, correct, losses) ->
  losses <> [] /\ exists w' avg acc, train w epoch = inr (w', avg, acc).
Proof.
  intros Hperm L.
  pose proof (iterate_nonempty train_loader (GazeNet.rng w) Hperm) as N.
  pose proof (train_loop_frame _ _ _ _ _ _ _ _ _ L)
    as (_ & _ & steps & losses' & _ & _ & Hel & Hl).
  cbn [app] in Hel. subst losses'.
  assert (Hne : losses <> []).
  { intros ->. cbn in Hl. symmetry in Hl. apply length_zero_iff_nil in Hl.
    contradiction. }
  split; [exact Hne|].
  unfold GazeNet.train. cbn [GazeNet.rng GazeNet.set_training GazeNet.emit].
  destruct (iterate train_loader (GazeNet.rng w)) as [batches g]. cbn [fst snd] in *.
  rewrite L. cbn [Py.bind].
  rewrite (StatisticsFacts.mean_value losses Hne). cbn [Py.bind].
  destruct (PyFacts.percentage_returns correct (length train_set)
              (loader_size train_loader)) as (acc & ->).
  cbn [Py.bind]. do 3 eexists. reflexivity.
Qed.

(** Summary of a completed call of [train]: [best_accuracy] is untouched,
    the network is left in training mode, the trace grows by
    [Obs.train_trace], the losses are one per batch and the average is their
    mean. *)
Lemma train_spec (w w' : World) (epoch : Z) (avg acc : Q) :
  train w epoch = inr (w', avg, acc) ->
  let batches := fst (iterate train_loader (GazeNet.rng w)) in
  let outs :=
    Replay.training_outputs forward sgd_step batches (GazeNet.netGaze w)
      (GazeNet.optimizer w) (snd (iterate train_loader (GazeNet.rng w))) in
  GazeNet.best_accuracy w' = GazeNet.best_accuracy w /\
  GazeNet.training w' = true /\
  exists steps correct losses,
    GazeNet.trace w' =
      GazeNet.trace w
      ++ Obs.train_trace epoch (GazeNet.netGaze w) (GazeNet.netGaze w') steps avg acc /\
    Forall (fun e => Obs.is_batch_event e = true) steps /\
    Forall2 (fun loss ot =>
               nll_loss (Torch.batched GazeNet.num_classes (fst ot)) (snd ot)
               = inr loss)
            losses (combine outs (map snd batches)) /\
    Statistics.mean losses = inr avg /\
    percent correct (length train_set) = inr acc /\
    (Obs.one_row_per_example forward -> Obs.permutes randperm ->
     0 <= correct <= Z.of_nat (length train_set) /\
     length (Replay.predictions outs) = length train_set /\
     correct = Reading.agreements (Replay.predictions outs)
                                  (concat (map snd batches))).
Proof.
  intro H. apply train_inv in H.
  destruct H as (w1 & correct & losses & L & M & D & ->).
  pose proof (train_loop_frame _ _ _ _ _ _ _ _ _ L)
    as (Ht & Hb & steps & losses' & Htr & Hst & Hel & _).
  pose proof (fun T => train_loop_losses _ _ _ _ _ _ _ _ _ T L) as HL.
  destruct (HL eq_refl) as (losses2 & Hel2 & Hl). clear HL.
  cbn in Ht, Hb, Htr, Hel, Hel2, Hl. subst losses' losses2.
  cbv zeta.
  cbn [GazeNet.netGaze GazeNet.training GazeNet.emit GazeNet.best_accuracy
       GazeNet.trace].
  split; [exact Hb|]. split; [exact Ht|].
  exists steps, correct, losses.
  split; [|split; [exact Hst|split; [exact Hl|split; [exact M|split; [exact D|]]]]].
  - rewrite Htr. unfold Obs.train_trace. cbn [app].
    rewrite <- !app_assoc. reflexivity.
  - intros Hrows Hperm.
    pose proof (fun T => train_loop_count epoch _ Hrows
                            (iterate_well_formed train_loader (GazeNet.rng w))
                            _ _ _ _ _ _ _ T L) as HC.
    destruct (HC eq_refl) as (Hl' & Hc & Hcb). clear HC.
    cbn in Hl', Hc, Hcb.
    rewrite (iterate_size train_loader _ Hperm) in *.
    repeat split; assumption || lia.
Qed.

(** With training labels that are classes, a loss for such batches, a
    non-zero logging period (and the contracts of the network and the
    sampler) [train] completes. *)
Lemma train_returns (w : World) (epoch : Z) :
  Obs.one_row_per_example forward -> Obs.permutes randperm ->
  Obs.loss_defined nll_loss ->
  Obs.labelled_with_classes train_set ->
  GazeNet.log_schedule args <> 0 ->
  exists w' avg acc, train w epoch = inr (w', avg, acc).
Proof.
  intros Hrows Hperm Hloss Hcl Hlog.
  destruct (train_loop_returns epoch (fst (iterate train_loader (GazeNet.rng w)))
              Hrows Hloss Hlog
              (iterate_well_formed train_loader (GazeNet.rng w))
              (iterate_targets train_loader (GazeNet.rng w) Hperm Hcl)
              0
              (GazeNet.set_rng (snd (iterate train_loader (GazeNet.rng w)))
                 (GazeNet.set_training true
                    (GazeNet.emit (GazeNet.Call_train epoch (GazeNet.netGaze w)) w)))
              0 [])
    as (w1 & c & el & L).
  exact (proj2 (train_after_loop w epoch w1 c el Hperm L)).
Qed.

(** When every class, and no other label, occurs among the targets, and
    the predictions are classes, the labels that occur are as many as the
    classes. *)
Lemma labels_all_classes (targets preds : list Z) :
  Forall Obs.is_class targets -> Forall Obs.is_class preds ->
  (forall t, Obs.is_class t -> In t targets) ->
  length (Sklearn.unique_labels targets preds) = length Startup.activity_classes.
Proof.
  intros Ht Hp Hall.
  assert (P : Permutation (Sklearn.unique_labels targets preds)
                          (map Z.of_nat (seq 0 GazeNet.num_classes))).
  { apply NoDup_Permutation.
    - apply SklearnFacts.unique_labels_NoDup.
    - apply Finite.Injective_map_NoDup; [exact Nat2Z.inj|apply seq_NoDup].
    - intro l. rewrite SklearnFacts.unique_labels_in, in_map_iff.
      rewrite Forall_forall in Ht, Hp. split.
      + intro H. assert (C : Obs.is_class l) by (destruct H; auto).
        unfold Obs.is_class in C. exists (Z.to_nat l).
        split; [lia|]. apply in_seq. lia.
      + intros (k & <- & Hk). apply in_seq in Hk. left. apply Hall.
        unfold Obs.is_class. lia. }
  rewrite (Permutation_length P), length_map, length_seq. reflexivity.
Qed.

(** On a validation set in which every class and no other label occurs,
    [val] completes (under the contracts of the network and the sampler). *)
Lemma val_returns_all_classes (w : World) :
  Obs.one_row_per_example forward -> Obs.permutes randperm ->
  Obs.labelled_with_classes val_set -> Obs.every_class_occurs val_set ->
  exists w' acc, val w = inr (w', acc).
Proof.
  intros Hrows Hperm Hcl Hall.
  destruct (val_outcome w Hrows Hperm) as (acc & _ & Hle & Hgt & _).
  destruct (Py.gt acc (GazeNet.best_accuracy w)) eqn:G.
  - destruct (val_log w Hrows Hperm)
      as (w1 & c & preds & _ & Hp & _ & _ & _ & _ & Hpc & _).
    cbv zeta in Hp. subst preds.
    destruct (iterate_permutation val_loader (GazeNet.rng w) Hperm) as (_ & Pt).
    destruct Hgt as (w' & H); [reflexivity| |now exists w', acc].
    apply labels_all_classes; [|exact Hpc|].
    + apply Forall_forall. intros t Hin.
      apply (Permutation_in _ Pt), in_map_iff in Hin.
      destruct Hin as (e & <- & He).
      unfold Obs.labelled_with_classes in Hcl. rewrite Forall_forall in Hcl.
      now apply Hcl.
    + intros t Ht. apply (Permutation_in _ (Permutation_sym Pt)).
      now apply Hall.
  - destruct (Hle eq_refl) as (w' & H). now exists w', acc.
Qed.

(** *** Reading the trace *)

Lemma filter_none {A : Type} (f : A -> bool) (l : list A) :
  Forall (fun e => f e = false) l -> filter f l = [].
Proof.
  induction 1 as [|e l He F IH]; [reflexivity|].
  cbn [filter]. now rewrite He.
Qed.

Lemma batch_events_only (steps : list Event) :
  Forall (fun e => Obs.is_batch_event e = true) steps ->
  filter Obs.is_call steps = [] /\
  filter Obs.is_checkpoint steps = [] /\
  filter Obs.is_render steps = [].
Proof.
  intro F. repeat split; apply filter_none;
    (eapply Forall_impl; [|exact F]); intros e He; destruct e;
    solve [reflexivity|discriminate].
Qed.

Lemma filter_forwards (f : Event -> bool) (b : bool) (p : Params)
    (batches : list (list X * list Z)) (keep : bool) :
  (forall data, f (GazeNet.Forward b p data) = keep) ->
  filter f (map (fun x => GazeNet.Forward b p (fst x)) batches) =
  if keep then map (fun x => GazeNet.Forward b p (fst x)) batches else [].
Proof.
  intro H. induction batches as [|x batches IH].
  - now destruct keep.
  - cbn [map filter]. rewrite H, IH. now destruct keep.
Qed.

Lemma train_trace_calls (epoch : Z) (p p' : Params) (steps : list Event)
    (avg acc : Q) :
  Forall (fun e => Obs.is_batch_event e = true) steps ->
  filter Obs.is_call (Obs.train_trace epoch p p' steps avg acc) =
    [GazeNet.Call_train epoch p; GazeNet.Return_train p' avg acc] /\
  filter Obs.is_checkpoint (Obs.train_trace epoch p p' steps avg acc) = [] /\
  filter Obs.is_render (Obs.train_trace epoch p p' steps avg acc) = [].
Proof.
  intro F. destruct (batch_events_only steps F) as (E1 & E2 & E3).
  unfold Obs.train_trace. rewrite !filter_app, E1, E2, E3. repeat split.
Qed.

Lemma val_trace_filter (f : Event -> bool) (keep : bool) (p : Params)
    (batches : list (list X * list Z)) (correct : Z) (size : nat) (acc : Q)
    (saved : list Event) :
  (forall data, f (GazeNet.Forward false p data) = keep) ->
  filter f (Obs.val_trace p batches correct size acc saved) =
  filter f [GazeNet.Call_val p]
  ++ (if keep then map (fun x => GazeNet.Forward false p (fst x)) batches else [])
  ++ filter f [GazeNet.Log_val correct size acc]
  ++ filter f saved
  ++ filter f [GazeNet.Return_val p acc].
Proof.
  intro H. unfold Obs.val_trace.
  now rewrite !filter_app, (filter_forwards f false p batches keep H).
Qed.

Lemma firstn_exact {A : Type} (l r : list A) (n : nat) :
  n = length l -> firstn n (l ++ r) = l.
Proof.
  intros ->. rewrite firstn_app, Nat.sub_diag, firstn_all. cbn.
  apply app_nil_r.
Qed.

Lemma curves_step (c' : GazeNet.Curves) (n1 n2 n3 m : nat) :
  flat_map (@Reading.curves_after X Params n1 n2 n3 c') (seq 1 (S m))
  = Reading.curves_after n1 n2 n3 c' 1
    ++ flat_map (Reading.curves_after (n1 + 1) (n2 + 1) (n3 + 1) c') (seq 1 m).
Proof.
  cbn [seq flat_map]. f_equal. rewrite <- seq_shift.
  induction (seq 1 m) as [|k l IH]; [reflexivity|].
  cbn [map flat_map]. rewrite IH. f_equal.
  unfold Reading.curves_after.
  replace (n1 + S k)%nat with (n1 + 1 + k)%nat by lia.
  replace (n2 + S k)%nat with (n2 + 1 + k)%nat by lia.
  replace (n3 + S k)%nat with (n3 + 1 + k)%nat by lia.
  reflexivity.
Qed.

Lemma train_trace_curves (epoch : Z) (p p' : Params) (steps : list Event)
    (avg acc : Q) :
  Forall (fun e => Obs.is_batch_event e = true) steps ->
  filter Reading.is_curve_render (Obs.train_trace epoch p p' steps avg acc) = [].
Proof.
  intro F. unfold Obs.train_trace. rewrite !filter_app.
  rewrite (filter_none Reading.is_curve_render steps); [reflexivity|].
  eapply Forall_impl; [|exact F]. intros e He. destruct e;
    solve [reflexivity|discriminate].
Qed.

(** *** The main loop *)

Lemma best_after_le (accs : list Q) : forall best : Q,
  (best <= Obs.best_after best accs)%Q.
Proof.
  induction accs as [|a accs IH]; intro best; cbn [Obs.best_after].
  - apply Qle_refl.
  - destruct (Py.gt a best) eqn:G; [|apply IH].
    apply PyFacts.gt_true_iff in G.
    eapply Qle_trans; [apply Qlt_le_weak; exact G|apply IH].
Qed.

(** A completed run of the loop over [indices], seen from outside: one
    epoch per index, each a call of [train] followed by a call of [val] on
    the parameters that [train] returned; the curves grow by one point per
    epoch; the checkpoints are those of the epochs that improve on the best
    accuracy; the figures of the curves are saved once per epoch. *)
Lemma main_loop_saves (indices : list Z) :
  forall (w : World) (c : GazeNet.Curves) w' c',
    main_loop indices w c = inr (w', c') ->
    exists (es : list (Obs.Epoch Params)) (new : list Event),
      GazeNet.trace w' = GazeNet.trace w ++ new /\
      filter Obs.is_call new = flat_map Obs.calls_of es /\
      map Obs.index es = indices /\
      Obs.chained (GazeNet.netGaze w) es /\
      GazeNet.train_loss c' = GazeNet.train_loss c ++ map Obs.avg_loss es /\
      GazeNet.train_acc c' = GazeNet.train_acc c ++ map Obs.train_accuracy es /\
      GazeNet.val_acc c' = GazeNet.val_acc c ++ map Obs.val_accuracy es /\
      GazeNet.best_accuracy w' =
        Obs.best_after (GazeNet.best_accuracy w) (map Obs.val_accuracy es) /\
      filter Obs.is_checkpoint new =
        map (fun e => GazeNet.Torch_save (Obs.trained e))
            (Reading.improving (GazeNet.best_accuracy w) es) /\
      filter Reading.is_curve_render new =
        flat_map (Reading.curves_after (length (GazeNet.train_loss c))
                    (length (GazeNet.train_acc c)) (length (GazeNet.val_acc c)) c')
                 (seq 1 (length indices)).
Proof.
  induction indices as [|i indices IH]; intros w c w' c' H.
  - cbn in H. injection H as <- <-.
    exists [], []. cbn. rewrite !app_nil_r. repeat split.
  - cbn [GazeNet.main_loop] in H.
    destruct (train w i) as [e|[[w1 avg] acc]] eqn:T;
      cbn [Py.bind] in H; [discriminate|].
    match type of H with
    | Py.bind (val ?w2) _ = _ => destruct (val w2) as [e|[w3 va]] eqn:V
    end; cbn [Py.bind] in H; [discriminate|].
    apply IH in H.
    destruct H as (es & new & Htr & Hcalls & Hidx & Hch & Hl & Ha & Hv
                   & Hbest & Hck & Hcr).
    apply train_spec in T.
    destruct T as (Tb & _ & steps & _ & _ & Ttr & Tst & _).
    apply val_spec in V. cbv zeta in V.
    cbn [GazeNet.best_accuracy GazeNet.emit GazeNet.netGaze GazeNet.trace
         GazeNet.rng GazeNet.optimizer] in V.
    destruct V as (Vn & _ & _ & vc & vp & saved & _ & Vtr & Vcase & _).
    cbn in Htr, Hch, Hl, Ha, Hv, Hbest, Hck, Hcr.
    rewrite !length_app in Hcr. cbn [length] in Hcr.
    rewrite Vn in Hch. rewrite Tb in Vcase.
    destruct (train_trace_calls i (GazeNet.netGaze w) (GazeNet.netGaze w1)
                steps avg acc Tst) as (C1 & C2 & _).
    pose proof (train_trace_curves i (GazeNet.netGaze w) (GazeNet.netGaze w1)
                  steps avg acc Tst) as C3.
    exists ({| Obs.index := i; Obs.before := GazeNet.netGaze w;
               Obs.trained := GazeNet.netGaze w1; Obs.avg_loss := avg;
               Obs.train_accuracy := acc; Obs.val_accuracy := va |} :: es).
    eexists.
    split.
    { rewrite Htr, Vtr, Ttr. rewrite <- !app_assoc. reflexivity. }
    assert (Hsaved : filter Obs.is_call saved = [] /\
                     filter Reading.is_curve_render saved = []).
    { destruct Vcase as [(_ & _ & fig & _ & ->)|(_ & _ & ->)]; split; reflexivity. }
    destruct Hsaved as (S1 & S3).
    cbn [map Obs.index Obs.avg_loss Obs.train_accuracy Obs.val_accuracy
         Obs.trained Obs.before Obs.chained flat_map Obs.calls_of Obs.best_after
         Reading.improving].
    split.
    { rewrite !filter_app, C1.
      rewrite (val_trace_filter Obs.is_call false) by reflexivity.
      rewrite S1, Hcalls. reflexivity. }
    split; [now rewrite Hidx|].
    split; [split; [reflexivity|exact Hch]|].
    split; [rewrite Hl, <- app_assoc; reflexivity|].
    split; [rewrite Ha, <- app_assoc; reflexivity|].
    split; [rewrite Hv, <- app_assoc; reflexivity|].
    split.
    { rewrite Hbest.
      destruct Vcase as [(G & Hb & _)|(G & Hb & _)]; now rewrite G, Hb. }
    split.
    { rewrite !filter_app, C2.
      rewrite (val_trace_filter Obs.is_checkpoint false) by reflexivity.
      rewrite Hck.
      destruct Vcase as [(G & Hb & fig & _ & ->)|(G & Hb & ->)];
        rewrite G, Hb; cbn; now rewrite ?Vn. }
    change (length (i :: indices)) with (S (length indices)).
    rewrite curves_step.
    unfold Reading.curves_after at 1.
    rewrite Hl, Ha, Hv.
    rewrite (firstn_exact (GazeNet.train_loss c ++ [avg]))
      by (rewrite length_app; reflexivity).
    rewrite (firstn_exact (GazeNet.train_acc c ++ [acc]))
      by (rewrite length_app; reflexivity).
    rewrite (firstn_exact (GazeNet.val_acc c ++ [va]))
      by (rewrite length_app; reflexivity).
    rewrite !filter_app, C3.
    rewrite (val_trace_filter Reading.is_curve_render false) by reflexivity.
    rewrite S3, Hcr. reflexivity.
Qed.

Lemma improving_writes (es : list (Obs.Epoch Params)) : forall best : Q,
  length (Reading.improving best es)
  = Obs.writes_expected best (map Obs.val_accuracy es).
Proof.
  induction es as [|e es IH]; intro best; [reflexivity|].
  cbn [Reading.improving map Obs.writes_expected].
  destruct (Py.gt (Obs.val_accuracy e) best); cbn [length]; now rewrite IH.
Qed.

(** The renders of the confusion matrix go with the checkpoints. *)
Lemma main_loop_renders (indices : list Z) :
  forall (w : World) (c : GazeNet.Curves) w' c',
    main_loop indices w c = inr (w', c') ->
    exists new : list Event,
      GazeNet.trace w' = GazeNet.trace w ++ new /\
      Obs.renders new = Obs.checkpoint_writes new.
Proof.
  induction indices as [|i indices IH]; intros w c w' c' H.
  - cbn in H. injection H as <- <-. exists []. now rewrite app_nil_r.
  - cbn [GazeNet.main_loop] in H.
    destruct (train w i) as [e|[[w1 avg] acc]] eqn:T;
      cbn [Py.bind] in H; [discriminate|].
    match type of H with
    | Py.bind (val ?w2) _ = _ => destruct (val w2) as [e|[w3 va]] eqn:V
    end; cbn [Py.bind] in H; [discriminate|].
    apply IH in H. destruct H as (new & Htr & Hr).
    apply train_spec in T.
    destruct T as (_ & _ & steps & _ & _ & Ttr & Tst & _).
    apply val_spec in V. cbv zeta in V.
    cbn [GazeNet.best_accuracy GazeNet.emit GazeNet.netGaze GazeNet.trace
         GazeNet.rng GazeNet.optimizer] in V.
    destruct V as (_ & _ & _ & vc & vp & saved & _ & Vtr & Vcase & _).
    cbn in Htr.
    destruct (train_trace_calls i (GazeNet.netGaze w) (GazeNet.netGaze w1)
                steps avg acc Tst) as (_ & C2 & C3).
    eexists. split.
    { rewrite Htr, Vtr, Ttr. rewrite <- !app_assoc. reflexivity. }
    unfold Obs.checkpoint_writes, Obs.renders in *.
    rewrite !filter_app, C2, C3.
    rewrite (val_trace_filter Obs.is_checkpoint false) by reflexivity.
    rewrite (val_trace_filter Obs.is_render false) by reflexivity.
    rewrite !length_app, Hr.
    destruct Vcase as [(_ & _ & fig & _ & ->)|(_ & _ & ->)]; reflexivity.
Qed.

Lemma improving_nil (es : list (Obs.Epoch Params)) : forall best : Q,
  Reading.improving best es = [] ->
  Obs.best_after best (map Obs.val_accuracy es) = best /\
  Forall (fun e => (Obs.val_accuracy e <= best)%Q) es.
Proof.
  induction es as [|x es IH]; intros best H; [now split|].
  cbn [Reading.improving] in H. cbn [map Obs.best_after].
  destruct (Py.gt (Obs.val_accuracy x) best) eqn:G; [discriminate|].
  destruct (IH _ H) as (Hb & Hf). split; [exact Hb|].
  constructor; [now apply PyFacts.gt_false_iff|exact Hf].
Qed.

Lemma improving_last (es : list (Obs.Epoch Params)) :
  forall (best : Q) (l : list (Obs.Epoch Params)) (e : Obs.Epoch Params),
    Reading.improving best es = l ++ [e] ->
    exists l1 l2,
      es = l1 ++ e :: l2 /\
      Obs.best_after best (map Obs.val_accuracy es) = Obs.val_accuracy e /\
      (best < Obs.val_accuracy e)%Q /\
      Forall (fun x => (Obs.val_accuracy x < Obs.val_accuracy e)%Q) l1 /\
      Forall (fun x => (Obs.val_accuracy x <= Obs.val_accuracy e)%Q) l2.
Proof.
  induction es as [|x es IH]; intros best l e H.
  - destruct l; discriminate.
  - cbn [Reading.improving] in H. cbn [map Obs.best_after].
    destruct (Py.gt (Obs.val_accuracy x) best) eqn:G.
    + pose proof (proj1 (PyFacts.gt_true_iff _ _) G) as Hlt.
      destruct l as [|y l]; cbn [app] in H; injection H as -> H.
      * destruct (improving_nil _ _ H) as (Hb & Hf).
        exists [], es. repeat split; try assumption. constructor.
      * destruct (IH _ _ _ H) as (l1 & l2 & -> & Hb & Hlt' & F1 & F2).
        exists (y :: l1), l2. repeat split; try assumption.
        -- eapply Qlt_trans; eassumption.
        -- constructor; assumption.
    + pose proof (proj1 (PyFacts.gt_false_iff _ _) G) as Hle.
      destruct (IH _ _ _ H) as (l1 & l2 & -> & Hb & Hlt & F1 & F2).
      exists (x :: l1), l2. repeat split; try assumption.
      constructor; [|exact F1]. eapply Qle_lt_trans; eassumption.
Qed.

(** *** The best-model policy *)

Lemma writes_two_equal (best a1 a2 : Q) :
  a1 == a2 ->
  Obs.writes_expected best [a1; a2] = if Py.gt a1 best then 1%nat else 0%nat.
Proof.
  intro E. cbn [Obs.writes_expected].
  destruct (Py.gt a1 best) eqn:G1.
  - assert (G2 : Py.gt a2 a1 = false).
    { apply PyFacts.gt_false_iff. rewrite E. apply Qle_refl. }
    now rewrite G2.
  - assert (G2 : Py.gt a2 best = false).
    { apply PyFacts.gt_false_iff. apply PyFacts.gt_false_iff in G1.
      now rewrite <- E. }
    now rewrite G2.
Qed.

(** With training labels that are classes, a loss for such batches, a
    non-zero logging period, and a validation set in which every class and
    no other label occurs, every epoch completes. *)
Lemma main_loop_returns (indices : list Z) :
  Obs.one_row_per_example forward -> Obs.permutes randperm ->
  Obs.loss_defined nll_loss ->
  Obs.labelled_with_classes train_set ->
  Obs.labelled_with_classes val_set -> Obs.every_class_occurs val_set ->
  GazeNet.log_schedule args <> 0 ->
  forall (w : World) (c : GazeNet.Curves),
  exists w' c', main_loop indices w c = inr (w', c').
Proof.
  intros Hrows Hperm Hloss Ht Hv Hall Hlog.
  induction indices as [|i indices IH]; intros w c.
  - do 2 eexists. reflexivity.
  - cbn [GazeNet.main_loop].
    destruct (train_returns w i Hrows Hperm Hloss Ht Hlog) as (w1 & avg & acc & ->).
    cbn [Py.bind].
    match goal with
    | |- context [val ?w2] =>
        destruct (val_returns_all_classes w2 Hrows Hperm Hv Hall) as (w3 & va & ->)
    end.
    cbn [Py.bind]. apply IH.
Qed.


(** *** Order of the passes *)

(** C7.  A completed run calls, for each [i] of [range(1, epochs+1)] in
    order, [train] and then [val]; [val] is called with the parameters that
    this epoch's [train] returned and the next epoch starts from them; the
    run completes only with all of these epochs done, and the three curves
    hold their results. *)
Theorem train_then_val_each_epoch (w w' : World) (c' : GazeNet.Curves) :
  main w = inr (w', c') ->
  exists (es : list (Obs.Epoch Params)) (new : list Event),
    GazeNet.trace w' = GazeNet.trace w ++ new /\
    filter Obs.is_call new = flat_map Obs.calls_of es /\
    map Obs.index es = Py.range 1 (GazeNet.epochs args + 1) /\
    length es = Z.to_nat (GazeNet.epochs args) /\
    Obs.chained (GazeNet.netGaze w) es /\
    GazeNet.train_loss c' = map Obs.avg_loss es /\
    GazeNet.train_acc c' = map Obs.train_accuracy es /\
    GazeNet.val_acc c' = map Obs.val_accuracy es.
Proof.
  unfold GazeNet.main. intro H. apply main_loop_saves in H.
  destruct H as (es & new & Htr & Hcalls & Hidx & Hch & Hl & Ha & Hv & _).
  exists es, new. repeat split; try assumption.
  rewrite <- (length_map Obs.index), Hidx, PyFacts.range_length.
  f_equal. lia.
Qed.

(** *** The validation pass and the parameters *)

(** C8.  A completed validation pass leaves the parameters and the
    optimizer state as they were and the network in evaluation mode; the
    only events that touch the network are one forward pass per batch of the
    validation loader, in stream order, each in evaluation mode and on the
    unchanged parameters, and no optimizer step; the batches of the pass
    hold every validation example exactly once. *)
Theorem val_leaves_parameters (w w' : World) (acc : Q) :
  val w = inr (w', acc) ->
  let batches := fst (iterate val_loader (GazeNet.rng w)) in
  GazeNet.netGaze w' = GazeNet.netGaze w /\
  GazeNet.optimizer w' = GazeNet.optimizer w /\
  GazeNet.training w' = false /\
  (exists new,
      GazeNet.trace w' = GazeNet.trace w ++ new /\
      filter Obs.is_model_event new =
        map (fun b => GazeNet.Forward false (GazeNet.netGaze w) (fst b)) batches) /\
  (Obs.permutes randperm ->
   Permutation (concat (map fst batches)) (map fst val_set)).
Proof.
  intro H. apply val_spec in H. cbv zeta in *.
  destruct H as (Hn & Ho & Ht & correct & pred_all & saved & _ & Htr & Hcase & _).
  split; [exact Hn|]. split; [exact Ho|]. split; [exact Ht|]. split.
  - eexists. split; [exact Htr|].
    rewrite (val_trace_filter Obs.is_model_event true) by reflexivity.
    destruct Hcase as [(_ & _ & fig & _ & ->)|(_ & _ & ->)];
      cbn; now rewrite app_nil_r.
  - intro P. apply (iterate_permutation val_loader (GazeNet.rng w) P).
Qed.

(** *** Statistics of a pass *)

(** C2.  The average loss that a completed training pass returns is the
    arithmetic mean of the losses of its batches, as a float: there is one
    loss per batch of the loader, in stream order, each the [nll_loss] of
    the scores that the network gave for that batch (as the steps on the
    batches before it had left it) against the targets of the batch; the
    pass had at least one batch; the average is the double nearest to the
    exact sum of these losses over their number, within half a unit in the
    last place of it; and taking the mean of the same losses in any other
    order gives the same value. *)
Theorem average_loss_is_mean (w w' : World) (epoch : Z) (avg acc : Q) :
  train w epoch = inr (w', avg, acc) ->
  let batches := fst (iterate train_loader (GazeNet.rng w)) in
  let outs :=
    Replay.training_outputs forward sgd_step batches (GazeNet.netGaze w)
      (GazeNet.optimizer w) (snd (iterate train_loader (GazeNet.rng w))) in
  exists losses : list Q,
    losses <> [] /\
    length losses = length batches /\
    Forall2 (fun loss ot =>
               nll_loss (Torch.batched GazeNet.num_classes (fst ot)) (snd ot)
               = inr loss)
            losses (combine outs (map snd batches)) /\
    let exact := (Statistics.Qsum losses / inject_Z (Z.of_nat (length losses)))%Q in
    avg = Float.round exact /\
    (Qabs (avg - exact) <= Float.pow2 (Float.exponent (Qred exact)) * (1 # 2))%Q /\
    forall losses', Permutation losses losses' ->
                    Statistics.mean losses' = inr avg.
Proof.
  intro H. apply train_spec in H. cbv zeta in H.
  destruct H as (_ & _ & steps & correct & losses & _ & _ & Hl & M & _).
  cbv zeta. exists losses.
  destruct (StatisticsFacts.mean_inv losses avg M) as (Hne & Havg).
  split; [exact Hne|]. split.
  { rewrite (Forall2_length Hl), length_combine, length_map.
    rewrite ReplayFacts.training_outputs_length. apply Nat.min_id. }
  split; [exact Hl|]. split; [exact Havg|].
  split.
  - rewrite Havg. apply FloatFacts.round_error.
  - intros losses' P. now rewrite <- (StatisticsFacts.mean_perm _ _ P).
Qed.

(** C3 (as amended).  A training stream never yields zero batches, and
    the script has no [EmptyDatasetError]: an empty split makes the
    construction of its shuffling loader raise [ValueError], before any
    epoch starts, so that nothing is averaged and nothing is divided; the
    main block runs only with both splits non-empty; a loader that was
    constructed yields at least one batch in every pass; and once the loop
    of [train] is through, there is at least one loss, and neither the mean
    nor the division by the dataset size fails. *)
Theorem empty_split_raises_ValueError :
  (forall (val_examples : list (X * Z)) (p0 : Params) (o0 : OptState) (g0 : Rng),
      script [] val_examples p0 o0 g0
      = inl {| Py.exn_class := "ValueError";
               Py.exn_msg := "num_samples should be a positive integer value, but got num_samples=0" |}) /\
  (forall (train_examples : list (X * Z)) (p0 : Params) (o0 : OptState) (g0 : Rng),
      train_examples <> [] ->
      script train_examples [] p0 o0 g0
      = inl {| Py.exn_class := "ValueError";
               Py.exn_msg := "num_samples should be a positive integer value, but got num_samples=0" |}) /\
  (forall (train_examples val_examples : list (X * Z))
          (p0 : Params) (o0 : OptState) (g0 : Rng) r,
      script train_examples val_examples p0 o0 g0 = inr r ->
      train_examples <> [] /\ val_examples <> []) /\
  (Obs.permutes randperm ->
   forall (loader : Torch.DataLoader (X * Z)) (g : Rng),
     fst (iterate loader g) <> []) /\
  (Obs.permutes randperm ->
   forall (w : World) (epoch : Z) w1 correct losses,
     train_loop epoch (fst (iterate train_loader (GazeNet.rng w))) 0
       (GazeNet.set_rng (snd (iterate train_loader (GazeNet.rng w)))
          (GazeNet.set_training true
             (GazeNet.emit (GazeNet.Call_train epoch (GazeNet.netGaze w)) w)))
       0 []
       = inr (w1, correct, losses) ->
     losses <> [] /\ exists w' avg acc, train w epoch = inr (w', avg, acc)).
Proof.
  split; [reflexivity|]. split; [|split; [|split]].
  - intros [|x l] p0 o0 g0 H; [congruence|reflexivity].
  - intros tr vs p0 o0 g0 r H. unfold GazeNet.script in H.
    destruct tr; [discriminate|]. destruct vs; [discriminate|].
    split; discriminate.
  - intros P loader g. now apply iterate_nonempty.
  - intros P w epoch w1 correct losses H.
    exact (train_after_loop w epoch w1 correct losses P H).
Qed.

(** C6.  With one row of scores per example and a sampler that draws a
    permutation: in a completed pass over either split the count of correct
    predictions is the number of examples for which the arg-max class of
    the scores of the network agrees with the label (the scores of the
    network in evaluation mode for [val], of the network as it stands at
    each batch for [train]); it lies between 0 and the size of the split's
    dataset; the reported accuracy is the float computed as 100 times the
    count over the size, and, for sizes whose hundredfold fits in 53 bits,
    it is the double nearest to the exact percentage, within [2^-47] of it,
    and lies between 0 and 100.  The count and the accuracy are the ones
    written to the log. *)
Theorem accuracy_is_percentage :
  Obs.one_row_per_example forward -> Obs.permutes randperm ->
  (forall (w w' : World) (acc : Q),
      val w = inr (w', acc) ->
      let batches := fst (iterate val_loader (GazeNet.rng w)) in
      let preds :=
        Replay.predictions
          (Replay.eval_outputs forward batches (GazeNet.netGaze w)
             (snd (iterate val_loader (GazeNet.rng w)))) in
      let size := length (Torch.dataset val_loader) in
      exists correct : Z,
        correct = Reading.agreements preds (concat (map snd batches)) /\
        length preds = size /\
        Permutation (concat (map snd batches)) (map snd (Torch.dataset val_loader)) /\
        In (GazeNet.Log_val correct size acc) (GazeNet.trace w') /\
        0 <= correct <= Z.of_nat size /\
        Py.truediv (Py.mul 100 (Py.float correct)) (Py.float (Z.of_nat size))
          = inr acc /\
        (100 * Z.of_nat size < 2 ^ 53 ->
         let exact := (100 * inject_Z correct / inject_Z (Z.of_nat size))%Q in
         acc = Float.round exact /\
         (Qabs (acc - exact) <= Float.pow2 (-47))%Q /\
         (0 <= acc)%Q /\ (acc <= 100)%Q)) /\
  (forall (w w' : World) (epoch : Z) (avg acc : Q),
      train w epoch = inr (w', avg, acc) ->
      let batches := fst (iterate train_loader (GazeNet.rng w)) in
      let preds :=
        Replay.predictions
          (Replay.training_outputs forward sgd_step batches (GazeNet.netGaze w)
             (GazeNet.optimizer w) (snd (iterate train_loader (GazeNet.rng w)))) in
      let size := length (Torch.dataset train_loader) in
      exists correct : Z,
        correct = Reading.agreements preds (concat (map snd batches)) /\
        length preds = size /\
        Permutation (concat (map snd batches)) (map snd (Torch.dataset train_loader)) /\
        In (GazeNet.Log_accuracy acc) (GazeNet.trace w') /\
        0 <= correct <= Z.of_nat size /\
        Py.truediv (Py.mul 100 (Py.float correct)) (Py.float (Z.of_nat size))
          = inr acc /\
        (100 * Z.of_nat size < 2 ^ 53 ->
         let exact := (100 * inject_Z correct / inject_Z (Z.of_nat size))%Q in
         acc = Float.round exact /\
         (Qabs (acc - exact) <= Float.pow2 (-47))%Q /\
         (0 <= acc)%Q /\ (acc <= 100)%Q)).
Proof.
  intros Hrows Hperm.
  assert (Num : forall (c : Z) (n : nat) (acc : Q),
             (0 < n)%nat -> 0 <= c <= Z.of_nat n ->
             Py.truediv (Py.mul 100 (Py.float c)) (Py.float (Z.of_nat n)) = inr acc ->
             100 * Z.of_nat n < 2 ^ 53 ->
             let exact := (100 * inject_Z c / inject_Z (Z.of_nat n))%Q in
             acc = Float.round exact /\
             (Qabs (acc - exact) <= Float.pow2 (-47))%Q /\
             (0 <= acc)%Q /\ (acc <= 100)%Q).
  { intros c n acc Hn Hc D Hb. cbv zeta.
    rewrite (PyFacts.percentage_value c n Hn Hc Hb) in D. injection D as <-.
    destruct (PyFacts.percentage_bounds c n Hn Hc) as (H0 & H100 & He).
    repeat split; assumption. }
  split.
  - intros w w' acc H. cbv zeta.
    apply val_spec in H. cbv zeta in H.
    destruct H as (_ & _ & _ & correct & pred_all & saved & D & Htr & _ & Hb).
    destruct (Hb Hrows Hperm) as (Hc & Hl & Hag & Hp). subst pred_all.
    exists correct.
    split; [exact Hag|]. split; [exact Hl|].
    split; [apply (iterate_permutation val_loader _ Hperm)|].
    split.
    { rewrite Htr. unfold Obs.val_trace. rewrite !in_app_iff. cbn. tauto. }
    split; [exact Hc|]. split; [exact D|].
    apply Num; [apply loader_size|exact Hc|exact D].
  - intros w w' epoch avg acc H. cbv zeta.
    apply train_spec in H. cbv zeta in H.
    destruct H as (_ & _ & steps & correct & losses & Htr & _ & _ & _ & D & Hb).
    destruct (Hb Hrows Hperm) as (Hc & Hl & Hag).
    exists correct.
    split; [exact Hag|]. split; [exact Hl|].
    split; [apply (iterate_permutation train_loader _ Hperm)|].
    split.
    { rewrite Htr. unfold Obs.train_trace. rewrite !in_app_iff. cbn. tauto. }
    split; [exact Hc|]. split; [exact D|].
    apply Num; [apply loader_size|exact Hc|exact D].
Qed.

(** *** The labels of the confusion matrix *)

Lemma fewer_labels (y_true y_pred : list Z) (c : Z) :
  Forall Obs.is_class y_true -> Forall Obs.is_class y_pred ->
  Obs.is_class c -> ~ In c y_true -> ~ In c y_pred ->
  (length (Sklearn.unique_labels y_true y_pred) < length Startup.activity_classes)%nat.
Proof.
  intros Ht Hp Hc Nt Np.
  set (all := map Z.of_nat (seq 0 GazeNet.num_classes)).
  assert (Hall : forall l, In l all <-> Obs.is_class l).
  { intro l. unfold all, Obs.is_class. rewrite in_map_iff. split.
    - intros (k & <- & Hk). apply in_seq in Hk. lia.
    - intro H. exists (Z.to_nat l). split; [lia|]. apply in_seq. lia. }
  apply (Nat.le_lt_trans _ (length (remove Z.eq_dec c all))).
  - apply NoDup_incl_length; [apply SklearnFacts.unique_labels_NoDup|].
    intros l Hl. apply SklearnFacts.unique_labels_in in Hl.
    rewrite Forall_forall in Ht, Hp.
    apply in_in_remove.
    + intros ->. tauto.
    + apply Hall. destruct Hl; auto.
  - change (length Startup.activity_classes) with (length all).
    apply remove_length_lt. now apply Hall.
Qed.

(** C10.  The confusion matrix of [plot_confusion_matrix] is computed over
    the labels that occur in the prediction log and no others: they are the
    sorted union of the true and the predicted labels; a figure that is
    drawn has one row and one column per such label, the row of a label
    holding the counts of its examples per predicted label, each divided
    by the sum of the row, which is the number of examples of that true
    class; so a row sums to zero only for a label that is predicted but
    never true.  A class that is neither true nor predicted gets no row
    and no column: the figure is drawn exactly when the labels that occur
    are as many as the class names, and with classes as labels a class that
    does not occur makes the tick labels fail with [ValueError].  The
    figure that an improving validation pass saves is the one of its
    prediction log (the targets of its batches against the arg-max classes
    of the network's scores), whose labels are then as many as the
    classes. *)
Theorem confusion_matrix_over_occurring_labels :
  (forall (y_true y_pred : list Z) (classes : list string),
      length y_true = length y_pred -> y_true <> [] ->
      let labels := Sklearn.unique_labels y_true y_pred in
      StronglySorted Z.lt labels /\
      (forall l, In l labels <-> In l y_true \/ In l y_pred) /\
      ((exists fig,
           GazeNet.plot_confusion_matrix y_true y_pred classes true = inr fig)
       <-> length labels = length classes) /\
      (length labels <> length classes ->
       exists e,
         GazeNet.plot_confusion_matrix y_true y_pred classes true = inl e /\
         Py.exn_class e = "ValueError"%string) /\
      (forall fig,
          GazeNet.plot_confusion_matrix y_true y_pred classes true = inr fig ->
          length (GazeNet.im fig) = length labels /\
          Forall (fun row => length row = length labels) (GazeNet.im fig) /\
          GazeNet.ticklabels fig = classes /\
          forall i l,
            nth_error labels i = Some l ->
            let row :=
              map (fun p => Sklearn.count_pair l p (combine y_true y_pred)) labels in
            nth_error (GazeNet.im fig) i
              = Some (map (fun x => Np.true_divide x (Np.row_sum row)) row) /\
            Np.row_sum row = Obs.true_count l y_true /\
            (Np.row_sum row = 0 -> ~ In l y_true /\ In l y_pred))) /\
  (forall (y_true y_pred : list Z) (c : Z),
      length y_true = length y_pred -> y_true <> [] ->
      Forall Obs.is_class y_true -> Forall Obs.is_class y_pred ->
      Obs.is_class c -> ~ In c y_true -> ~ In c y_pred ->
      ~ In c (Sklearn.unique_labels y_true y_pred) /\
      exists e,
        GazeNet.plot_confusion_matrix y_true y_pred Startup.activity_classes true
          = inl e /\
        Py.exn_class e = "ValueError"%string) /\
  (forall (w w' : World) (acc : Q),
      val w = inr (w', acc) ->
      (GazeNet.best_accuracy w < acc)%Q ->
      exists (pred_all : list Z) (fig : GazeNet.Figure) (new : list Event),
        let target_all := concat (map snd (fst (iterate val_loader (GazeNet.rng w)))) in
        GazeNet.trace w' = GazeNet.trace w ++ new /\
        filter Obs.is_render new = [GazeNet.Savefig_confusion_matrix fig] /\
        GazeNet.plot_confusion_matrix target_all pred_all
          Startup.activity_classes true = inr fig /\
        length (Sklearn.unique_labels target_all pred_all)
        = length Startup.activity_classes /\
        (Obs.one_row_per_example forward -> Obs.permutes randperm ->
         pred_all
         = Replay.predictions
             (Replay.eval_outputs forward (fst (iterate val_loader (GazeNet.rng w)))
                (GazeNet.netGaze w) (snd (iterate val_loader (GazeNet.rng w)))))).
Proof.
  split; [|split].
  - intros y_true y_pred classes Hlen Hne labels.
    split; [apply SklearnFacts.unique_sorted|].
    split; [intro l; apply SklearnFacts.unique_labels_in|].
    split; [|split].
    + split.
      * intros (fig & H). apply PlotFacts.plot_inv in H.
        destruct H as (cm & top & _ & Hl & _). exact Hl.
      * now apply PlotFacts.plot_returns.
    + now apply PlotFacts.plot_raises.
    + intros fig H. apply PlotFacts.plot_inv in H.
      destruct H as (cm & top & Hcm & Hl & _ & Him & Htk & _).
      pose proof (SklearnFacts.confusion_matrix_inv _ _ _ Hcm) as (_ & _ & Ecm).
      fold labels in Ecm.
      split; [rewrite Him, Ecm; unfold Np.normalize_rows; now rewrite !length_map|].
      split.
      { rewrite Him, Ecm. unfold Np.normalize_rows.
        apply Forall_map, Forall_map, Forall_forall. intros l _.
        now rewrite !length_map. }
      split; [exact Htk|].
      intros i l Hi row.
      assert (Hrow : nth_error cm i = Some row).
      { rewrite Ecm, nth_error_map, Hi. reflexivity. }
      destruct (SklearnFacts.confusion_row_sum _ _ _ _ _ _ Hcm Hi Hrow)
        as (Hs & _ & _).
      split; [|split; [exact Hs|]].
      * rewrite Him. unfold Np.normalize_rows.
        now rewrite nth_error_map, Hrow.
      * intro Z0. rewrite Hs in Z0.
        assert (Hnot : ~ In l y_true).
        { intro Hin. apply SklearnFacts.true_count_pos in Hin. lia. }
        split; [exact Hnot|].
        apply nth_error_In in Hi. apply SklearnFacts.unique_labels_in in Hi. tauto.
  - intros y_true y_pred c Hlen Hne Ht Hp Hc Nt Np.
    split; [rewrite SklearnFacts.unique_labels_in; tauto|].
    apply PlotFacts.plot_raises; [exact Hlen|exact Hne|].
    pose proof (fewer_labels y_true y_pred c Ht Hp Hc Nt Np). lia.
  - intros w w' acc H Hlt. apply val_spec in H. cbv zeta in H.
    destruct H as (_ & _ & _ & correct & pred_all & saved & _ & Htr & Hcase & Hrep).
    destruct Hcase as [(G & _ & fig & P & ->)|(G & _)].
    + exists pred_all, fig. eexists. cbv zeta.
      split; [exact Htr|]. split.
      * rewrite (val_trace_filter Obs.is_render false) by reflexivity.
        reflexivity.
      * split; [exact P|]. split.
        -- apply PlotFacts.plot_inv in P.
           destruct P as (cm & top & _ & Hl & _). exact Hl.
        -- intros R Pm. now destruct (Hrep R Pm) as (_ & _ & _ & Hp).
    + apply PyFacts.gt_false_iff in G. exfalso.
      exact (Qlt_not_le _ _ Hlt G).
Qed.

(** *** When the passes complete *)


Lemma train_zero_period (w : World) (epoch : Z) :
  Obs.one_row_per_example forward -> Obs.permutes randperm ->
  Obs.loss_defined nll_loss ->
  Obs.labelled_with_classes train_set ->
  GazeNet.log_schedule args = 0 ->
  train w epoch
    = inl {| Py.exn_class := "ZeroDivisionError";
             Py.exn_msg := "integer modulo by zero" |}.
Proof.
  intros Hrows Hperm Hloss Hcl Hz. unfold GazeNet.train.
  cbn [GazeNet.rng GazeNet.set_training GazeNet.emit].
  pose proof (iterate_well_formed train_loader (GazeNet.rng w)) as W.
  pose proof (iterate_nonempty train_loader (GazeNet.rng w) Hperm) as N.
  pose proof (iterate_targets train_loader (GazeNet.rng w) Hperm Hcl) as T.
  destruct (iterate train_loader (GazeNet.rng w)) as [batches g]. cbn [fst] in W, N, T.
  destruct batches as [|[data targets] batches]; [congruence|].
  inversion W as [|? ? [Hlen Hd] _]; subst. cbn [fst snd] in Hlen, Hd.
  inversion T as [|? ? Ht _]; subst. cbn [snd] in Ht.
  cbn [GazeNet.train_loop GazeNet.netGaze GazeNet.training GazeNet.rng
       GazeNet.set_rng].
  match goal with
  | |- context [forward ?p ?b ?r data] =>
      pose proof (Hrows p b r data) as Hout; destruct (forward p b r data) as [out g']
  end.
  cbn [fst] in Hout.
  destruct (TorchFacts.view_rows GazeNet.num_classes (length data) out)
    as (-> & Hscores & Hcols);
    [unfold GazeNet.num_classes; lia
    |destruct data; [congruence|simpl; lia]
    |exact Hout|].
  cbn [Py.bind].
  set (scores := Torch.batched GazeNet.num_classes out) in *.
  destruct (Hloss scores targets) as (loss & ->);
    [intros E; rewrite E in Hscores; destruct data; [congruence|discriminate]
    |congruence|exact Hcols|exact Ht|].
  cbn [Py.bind].
  destruct (TorchFacts.eq_same_size (map Torch.argmax scores) targets)
    as (hits & -> & _);
    [rewrite length_map; congruence|].
  cbn [Py.bind].
  match goal with
  | |- context [sgd_step ?p ?o ?r data targets] =>
      destruct (sgd_step p o r data targets) as [p' o']
  end.
  unfold Py.mod_is_zero. rewrite Hz. reflexivity.
Qed.


(** X3.  The run as a whole.  With a zero or negative epoch count the
    main loop does nothing and returns empty curves.  With the contracts
    of the network, the sampler and the loss, a training set labelled with
    classes, a validation set in which every class and no other label
    occurs, and a non-zero logging period, the run completes, whatever the
    epoch count.  With a positive epoch count and a zero logging period it
    raises [ZeroDivisionError] in the first training pass. *)
Theorem main_completes (w : World) :
  (GazeNet.epochs args <= 0 ->
   main w = inr (w, {| GazeNet.train_loss := []; GazeNet.train_acc := [];
                       GazeNet.val_acc := [] |})) /\
  (Obs.one_row_per_example forward -> Obs.permutes randperm ->
   Obs.loss_defined nll_loss ->
   Obs.labelled_with_classes (Torch.dataset train_loader) ->
   Obs.labelled_with_classes (Torch.dataset val_loader) ->
   Obs.every_class_occurs (Torch.dataset val_loader) ->
   GazeNet.log_schedule args <> 0 ->
   exists w' c', main w = inr (w', c')) /\
  (Obs.one_row_per_example forward -> Obs.permutes randperm ->
   Obs.loss_defined nll_loss ->
   Obs.labelled_with_classes (Torch.dataset train_loader) ->
   0 < GazeNet.epochs args -> GazeNet.log_schedule args = 0 ->
   main w
   = inl {| Py.exn_class := "ZeroDivisionError";
            Py.exn_msg := "integer modulo by zero" |}).
Proof.
  unfold GazeNet.main, Py.range. split; [|split].
  - intro Hn.
    replace (Z.to_nat (GazeNet.epochs args + 1 - 1)) with 0%nat by lia.
    reflexivity.
  - intros Hrows Hperm Hloss Ht Hv Hall Hlog. now apply main_loop_returns.
  - intros Hrows Hperm Hloss Ht Hn Hz.
    destruct (Z.to_nat (GazeNet.epochs args + 1 - 1)) as [|k] eqn:E; [lia|].
    cbn [seq map GazeNet.main_loop].
    rewrite (train_zero_period _ _ Hrows Hperm Hloss Ht Hz).
    reflexivity.
Qed.

(** *** What a training pass does, batch by batch *)

Lemma last_cons {A : Type} (l : list A) : forall a d : A, last (a :: l) d = last l a.
Proof.
  induction l as [|b l IH]; intros a d; [reflexivity|].
  change (last (a :: b :: l) d) with (last (b :: l) d).
  now rewrite !IH.
Qed.

Lemma train_loop_trace (epoch : Z) (batches : list (list X * list Z)) :
  forall (b_idx : Z) (w : World) (c : Z) (el : list Q) w' c' el',
    GazeNet.training w = true ->
    train_loop epoch batches b_idx w c el = inr (w', c', el') ->
    exists (new : list Event) (losses : list Q) (ps : list Params),
      GazeNet.trace w' = GazeNet.trace w ++ new /\
      el' = el ++ losses /\
      length losses = length batches /\
      length ps = length batches /\
      filter Obs.is_model_event new
        = Reading.training_events (GazeNet.netGaze w) (combine (map fst batches) ps) /\
      GazeNet.netGaze w' = last ps (GazeNet.netGaze w) /\
      filter Reading.is_log_batch new
        = Reading.log_lines epoch (GazeNet.log_schedule args) b_idx losses.
Proof.
  induction batches as [|[data targets] batches IH];
    intros b_idx w c el w' c' el' Tr H.
  - cbn in H. injection H as <- <- <-.
    exists [], [], []. rewrite !app_nil_r. repeat split.
  - cbn [GazeNet.train_loop] in H.
    destruct (forward _ _ _ data) as [out g'].
    destruct (Torch.view GazeNet.num_classes out) as [e|scores];
      cbn [Py.bind] in H; [discriminate|].
    destruct (nll_loss scores targets) as [e|loss];
      cbn [Py.bind] in H; [discriminate|].
    destruct (Torch.eq (map Torch.argmax scores) targets) as [e|hits];
      cbn [Py.bind] in H; [discriminate|].
    destruct (sgd_step _ _ _ data targets) as [p' o'].
    unfold Py.mod_is_zero in H.
    destruct (GazeNet.log_schedule args =? 0); cbn [Py.bind Py.raise Py.ret] in H;
      [discriminate|].
    destruct (b_idx mod GazeNet.log_schedule args =? 0) eqn:M;
      apply IH in H; try exact Tr; cbn in H;
      destruct H as (new & losses & ps & Htr & Hel & Hl & Hp & Hm & Hn & Hlog);
      eexists; exists (loss :: losses), (p' :: ps);
      (split; [rewrite Htr, <- !app_assoc; cbn [app]; reflexivity|]);
      (split; [rewrite Hel, <- app_assoc; reflexivity|]);
      (split; [cbn [length]; now rewrite Hl|]);
      (split; [cbn [length]; now rewrite Hp|]);
      cbn [filter Obs.is_model_event Reading.is_log_batch map fst combine
           Reading.training_events Reading.log_lines app];
      rewrite M, Hm, Hlog, Tr, last_cons; cbn [app]; repeat split; exact Hn.
Qed.

(** X4.  A completed training pass makes, for each batch of the loader in
    stream order, one forward pass in training mode followed by one
    optimizer step; each forward pass runs on the parameters that the
    previous step left (the first on those [train] was called with), and
    the parameters of the returned network are those of the last step. *)
Theorem train_steps_once_per_batch (w w' : World) (epoch : Z) (avg acc : Q) :
  train w epoch = inr (w', avg, acc) ->
  let batches := fst (iterate train_loader (GazeNet.rng w)) in
  exists (new : list Event) (ps : list Params),
    GazeNet.trace w' = GazeNet.trace w ++ new /\
    length ps = length batches /\
    filter Obs.is_model_event new
      = Reading.training_events (GazeNet.netGaze w) (combine (map fst batches) ps) /\
    GazeNet.netGaze w' = last ps (GazeNet.netGaze w).
Proof.
  intro H. apply train_inv in H. cbv zeta in *.
  destruct H as (w1 & correct & losses & L & _ & _ & ->).
  apply train_loop_trace in L; [|reflexivity].
  destruct L as (new & losses' & ps & Htr & _ & _ & Hp & Hm & Hn & _).
  cbn in Htr, Hm, Hn.
  eexists. exists ps.
  split; [cbn; rewrite Htr, <- !app_assoc; reflexivity|].
  split; [exact Hp|]. split; [|exact Hn].
  cbn [filter Obs.is_model_event app]. rewrite !filter_app, Hm. cbn.
  now rewrite app_nil_r.
Qed.

Lemma log_lines_in (epoch period : Z) (losses : list Q) :
  forall (b_idx : Z) (e k : Z) (l : Q),
    In (GazeNet.Log_batch (X := X) (Params := Params) e k l)
       (Reading.log_lines epoch period b_idx losses)
    <-> e = epoch /\ b_idx <= k /\ k mod period = 0 /\
        nth_error losses (Z.to_nat (k - b_idx)) = Some l.
Proof.
  induction losses as [|loss losses IH]; intros b_idx e k l.
  - cbn. split; [tauto|]. intros (_ & _ & _ & H).
    destruct (Z.to_nat (k - b_idx)); discriminate.
  - cbn [Reading.log_lines]. rewrite in_app_iff, IH. split.
    + intros [H|(-> & Hk & Hm & Hn)].
      * destruct (b_idx mod period =? 0) eqn:M; [|destruct H].
        destruct H as [H|[]]. injection H as <- <- <-.
        apply Z.eqb_eq in M. rewrite Z.sub_diag. repeat split; [lia|exact M].
      * repeat split; [lia|exact Hm|].
        replace (Z.to_nat (k - b_idx)) with (S (Z.to_nat (k - (b_idx + 1)))) by lia.
        exact Hn.
    + intros (-> & Hk & Hm & Hn).
      destruct (Z.eq_dec k b_idx) as [->|Hne].
      * left. rewrite Z.sub_diag in Hn. cbn in Hn. injection Hn as ->.
        rewrite (proj2 (Z.eqb_eq _ _) Hm). now left.
      * right. repeat split; [lia|exact Hm|].
        replace (Z.to_nat (k - b_idx)) with (S (Z.to_nat (k - (b_idx + 1)))) in Hn
          by lia.
        exact Hn.
Qed.

(** X5.  A completed training pass writes a line for batch [k] with loss
    [l] to the log exactly when [k] is the index of a batch, [k] is a
    multiple of [args.log_schedule], and [l] is the loss of that batch (one
    of the losses whose mean is the returned average); the first batch is
    always logged. *)
Theorem train_logs_every_kth_batch (w w' : World) (epoch : Z) (avg acc : Q) :
  train w epoch = inr (w', avg, acc) ->
  exists (new : list Event) (losses : list Q),
    GazeNet.trace w' = GazeNet.trace w ++ new /\
    Statistics.mean losses = inr avg /\
    length losses = length (fst (iterate train_loader (GazeNet.rng w))) /\
    (forall e k l,
        In (GazeNet.Log_batch e k l) new
        <-> e = epoch /\ 0 <= k /\ k mod GazeNet.log_schedule args = 0 /\
            nth_error losses (Z.to_nat k) = Some l) /\
    (exists l0, In (GazeNet.Log_batch epoch 0 l0) new).
Proof.
  intro H. apply train_inv in H. cbv zeta in *.
  destruct H as (w1 & correct & losses & L & M & _ & ->).
  apply train_loop_trace in L; [|reflexivity].
  destruct L as (new & losses' & ps & Htr & Hel & Hl & _ & _ & _ & Hlog).
  cbn in Htr, Hel. subst losses'.
  assert (Hin : forall e k l,
             In (GazeNet.Log_batch e k l)
                ([GazeNet.Call_train epoch (GazeNet.netGaze w)] ++ new
                 ++ [GazeNet.Log_avg_loss avg; GazeNet.Log_accuracy acc;
                     GazeNet.Return_train (GazeNet.netGaze w1) avg acc])
             <-> In (GazeNet.Log_batch e k l)
                    (@Reading.log_lines X Params epoch (GazeNet.log_schedule args)
                       0 losses)).
  { intros e k l. rewrite <- Hlog, filter_In, !in_app_iff. cbn.
    split; [intros [[H|[]]|[H|[H|[H|[H|[]]]]]]; try discriminate; tauto|tauto]. }
  eexists. exists losses.
  split; [cbn; rewrite Htr, <- !app_assoc; reflexivity|].
  split; [exact M|]. split; [exact Hl|]. split.
  - intros e k l. rewrite Hin, log_lines_in, Z.sub_0_r. tauto.
  - destruct losses as [|l0 losses].
    + cbn in M. discriminate.
    + exists l0. apply Hin, log_lines_in.
      split; [reflexivity|]. split; [lia|]. split; reflexivity.
Qed.

(** *** The prediction log *)

(** X6.  With one row of scores per example and a sampler that draws a
    permutation, the prediction log of a completed validation pass is two
    parallel sequences with one entry per validation example, the targets
    being the validation labels in sampler order; the count of correct
    predictions is the number of positions at which the two agree, which is
    the diagonal of the confusion matrix of the log, whose entries add up
    to the size of the validation set. *)
Theorem prediction_log_is_parallel (w w' : World) (acc : Q) :
  Obs.one_row_per_example forward -> Obs.permutes randperm ->
  val w = inr (w', acc) ->
  exists w1 correct pred_all target_all cm,
    val_loop (fst (iterate val_loader (GazeNet.rng w)))
      (GazeNet.set_rng (snd (iterate val_loader (GazeNet.rng w)))
         (GazeNet.set_training false
            (GazeNet.emit (GazeNet.Call_val (GazeNet.netGaze w)) w)))
      0 [] []
      = inr (w1, correct, pred_all, target_all) /\
    length pred_all = length (Torch.dataset val_loader) /\
    length target_all = length (Torch.dataset val_loader) /\
    Permutation target_all (map snd (Torch.dataset val_loader)) /\
    correct = Reading.agreements pred_all target_all /\
    Sklearn.confusion_matrix target_all pred_all = inr cm /\
    Reading.diagonal cm = correct /\
    Reading.total cm = Z.of_nat (length (Torch.dataset val_loader)).
Proof.
  intros Hrows Hperm _.
  destruct (val_log w Hrows Hperm)
    as (w1 & correct & preds & L & _ & Hc & _ & Hl & Hs & _).
  cbv zeta in L, Hc, Hs.
  set (targets := concat (map snd (fst (iterate val_loader (GazeNet.rng w))))) in *.
  assert (Hne : targets <> []).
  { intro E. rewrite E in Hs. pose proof (loader_size val_loader). simpl in Hs. lia. }
  pose proof (SklearnFacts.confusion_matrix_returns targets preds
                ltac:(congruence) Hne) as Hcm.
  eexists w1, correct, preds, targets, _.
  split; [exact L|]. split; [exact Hl|]. split; [exact Hs|].
  split; [apply (iterate_permutation val_loader _ Hperm)|].
  split; [exact Hc|]. split; [exact Hcm|]. split.
  - rewrite (ReadingFacts.matrix_diagonal _ _ _ Hcm),
      ReadingFacts.agreements_comm. now rewrite Hc.
  - now rewrite (ReadingFacts.matrix_total _ _ _ Hcm), Hs.
Qed.

(** *** The progress lines *)

Lemma consumed_chunks (chunks : list (list (X * Z))) (idx : nat) :
  Progress.consumed (map (@split X Z) chunks) idx
  = length (concat (firstn (S idx) chunks)).
Proof.
  unfold Progress.consumed.
  rewrite firstn_map, concat_map_split_fst. apply length_map.
Qed.

(** X9.  The count in the line that [val] prints after batch [idx],
    [min(batch_size * (idx + 1), len(dataset))], is the number of
    validation examples consumed so far. *)
Theorem val_progress_is_exact (g : Rng) (idx : nat) :
  Obs.permutes randperm ->
  (idx < length (fst (iterate val_loader g)))%nat ->
  Progress.val_done (GazeNet.batch_size args) idx (length (Torch.dataset val_loader))
  = Progress.consumed (fst (iterate val_loader g)) idx.
Proof.
  intros Hperm Hi. rewrite iterate_unfold in *.
  rewrite length_map in Hi. rewrite consumed_chunks.
  unfold Torch.batched in *.
  rewrite ProgressFacts.chunk_prefix_length; [|lia|apply Nat.le_refl|exact Hi].
  rewrite (Permutation_length (TorchFacts.take_permutation (Torch.dataset val_loader) _
                                 (Hperm g (length (Torch.dataset val_loader))))).
  unfold Progress.val_done. f_equal. lia.
Qed.

(** X10.  The count in the line that [train] logs for batch [b_idx],
    [(b_idx + 1) * len(data)], never exceeds the number of training
    examples consumed so far, hence never the size of the dataset; it is
    that number whenever the batch is full, so it can fall short only on a
    last batch that is not full. *)
Theorem train_progress_never_overstates
    (g : Rng) (b_idx : nat) (data : list X) (targets : list Z) :
  Obs.permutes randperm ->
  nth_error (fst (iterate train_loader g)) b_idx = Some (data, targets) ->
  (Progress.train_done b_idx data
   <= Progress.consumed (fst (iterate train_loader g)) b_idx)%nat /\
  (Progress.consumed (fst (iterate train_loader g)) b_idx <= length (Torch.dataset train_loader))%nat /\
  (length data = Pos.to_nat (GazeNet.batch_size args) ->
   Progress.train_done b_idx data
   = Progress.consumed (fst (iterate train_loader g)) b_idx).
Proof.
  intros Hperm Hb. rewrite iterate_unfold in *.
  apply nth_error_map_inv in Hb. destruct Hb as (chunk & Hc & Hsplit).
  assert (Hd : length data = length chunk).
  { replace data with (fst (split chunk)) by now rewrite <- Hsplit.
    apply length_fst_split. }
  rewrite consumed_chunks. unfold Torch.batched in *.
  pose proof (Permutation_length (TorchFacts.take_permutation (Torch.dataset train_loader) _
                                    (Hperm g (length (Torch.dataset train_loader))))) as Hlen.
  assert (Hi : (b_idx < length (Torch.chunk
                                  (length (Torch.take (Torch.dataset train_loader)
                                             (fst (randperm g (length (Torch.dataset train_loader))))))
                                  (Pos.to_nat (GazeNet.batch_size args))
                                  (Torch.take (Torch.dataset train_loader)
                                     (fst (randperm g (length (Torch.dataset train_loader)))))))%nat).
  { apply nth_error_Some. congruence. }
  rewrite ProgressFacts.chunk_prefix_length; [|lia|apply Nat.le_refl|exact Hi].
  apply ProgressFacts.chunk_nth_length in Hc; [|lia|apply Nat.le_refl].
  rewrite Hlen in *. unfold Progress.train_done. rewrite Hd, Hc.
  assert (0 < Pos.to_nat (GazeNet.batch_size args))%nat by lia.
  repeat split; nia.
Qed.

(** *** The figures of the curves and the checkpoints of a run *)

(** X11.  In a completed run the two curve figures are written once per
    epoch, in epoch order, and after epoch [k] they show exactly the first
    [k] points of the final curves (losses; training and validation
    accuracies), each of which ends with one point per epoch. *)
Theorem curves_rerendered_each_epoch (w w' : World) (c' : GazeNet.Curves) :
  main w = inr (w', c') ->
  exists new : list Event,
    GazeNet.trace w' = GazeNet.trace w ++ new /\
    filter Reading.is_curve_render new
      = flat_map (Reading.curves_after 0 0 0 c')
                 (seq 1 (Z.to_nat (GazeNet.epochs args))) /\
    length (GazeNet.train_loss c') = Z.to_nat (GazeNet.epochs args) /\
    length (GazeNet.train_acc c') = Z.to_nat (GazeNet.epochs args) /\
    length (GazeNet.val_acc c') = Z.to_nat (GazeNet.epochs args).
Proof.
  unfold GazeNet.main. intro H. apply main_loop_saves in H.
  destruct H as (es & new & Htr & _ & Hidx & _ & Hl & Ha & Hv & _ & _ & Hcr).
  cbn in Hl, Ha, Hv, Hcr.
  assert (Hn : length es = Z.to_nat (GazeNet.epochs args)).
  { rewrite <- (length_map Obs.index), Hidx, PyFacts.range_length. f_equal. lia. }
  rewrite PyFacts.range_length in Hcr.
  replace (Z.to_nat (GazeNet.epochs args + 1 - 1))
    with (Z.to_nat (GazeNet.epochs args)) in Hcr by (f_equal; lia).
  exists new. split; [exact Htr|]. split; [exact Hcr|].
  rewrite Hl, Ha, Hv, !length_map. repeat split; exact Hn.
Qed.

(** X12.  In a completed run the checkpoints written are those of the
    epochs whose validation accuracy strictly exceeded the best one before
    them, each holding the parameters that this epoch's [train] returned.
    So the checkpoint left on disk (the last one written) is that of the
    earliest epoch that reached the final [best_accuracy]: every earlier
    epoch validated strictly lower and no later epoch higher.  When no
    checkpoint is written, no epoch exceeded the initial [best_accuracy]. *)
Theorem last_checkpoint_is_earliest_best
    (indices : list Z) (w w' : World) (c c' : GazeNet.Curves) :
  main_loop indices w c = inr (w', c') ->
  exists (es : list (Obs.Epoch Params)) (new : list Event),
    GazeNet.trace w' = GazeNet.trace w ++ new /\
    filter Obs.is_call new = flat_map Obs.calls_of es /\
    map Obs.index es = indices /\
    GazeNet.val_acc c' = GazeNet.val_acc c ++ map Obs.val_accuracy es /\
    filter Obs.is_checkpoint new =
      map (fun e => GazeNet.Torch_save (Obs.trained e))
          (Reading.improving (GazeNet.best_accuracy w) es) /\
    (forall earlier p,
        filter Obs.is_checkpoint new = earlier ++ [GazeNet.Torch_save p] ->
        exists l1 e l2,
          es = l1 ++ e :: l2 /\
          p = Obs.trained e /\
          GazeNet.best_accuracy w' = Obs.val_accuracy e /\
          (GazeNet.best_accuracy w < Obs.val_accuracy e)%Q /\
          Forall (fun x => (Obs.val_accuracy x < Obs.val_accuracy e)%Q) l1 /\
          Forall (fun x => (Obs.val_accuracy x <= Obs.val_accuracy e)%Q) l2) /\
    (filter Obs.is_checkpoint new = [] ->
     GazeNet.best_accuracy w' = GazeNet.best_accuracy w /\
     Forall (fun x => (Obs.val_accuracy x <= GazeNet.best_accuracy w)%Q) es).
Proof.
  intro H. apply main_loop_saves in H.
  destruct H as (es & new & Htr & Hcalls & Hidx & _ & _ & _ & Hv & Hbest & Hck & _).
  exists es, new.
  split; [exact Htr|]. split; [exact Hcalls|]. split; [exact Hidx|].
  split; [exact Hv|]. split; [exact Hck|]. split.
  - intros earlier p Hlast. rewrite Hck in Hlast.
    destruct (Reading.improving (GazeNet.best_accuracy w) es) as [|x imp] eqn:E.
    + destruct earlier; discriminate.
    + destruct (@exists_last _ (x :: imp)) as (l & e & El); [discriminate|].
      rewrite El in Hlast, E. rewrite map_app in Hlast. cbn [map] in Hlast.
      apply app_inj_tail in Hlast. destruct Hlast as (_ & Hp).
      injection Hp as <-.
      destruct (improving_last _ _ _ _ E) as (l1 & l2 & Hes & Hb & Hlt & F1 & F2).
      exists l1, e, l2. rewrite Hbest. repeat split; assumption.
  - intro Hnil. rewrite Hck in Hnil. apply map_eq_nil in Hnil.
    destruct (improving_nil _ _ Hnil) as (Hb & Hf).
    rewrite Hbest. split; assumption.
Qed.

End ScriptFacts.

(* ------------------------------------------------------------------ *)
(** ** The confusion matrix *)

Lemma true_count_le (l : Z) (y_true : list Z) :
  Obs.true_count l y_true <= Z.of_nat (length y_true).
Proof. unfold Obs.true_count. apply Nat2Z.inj_le, filter_length_le. Qed.

(** The row of a label that has a true example, in the matrix that
    [plot_confusion_matrix] computes: finite entries between 0 and 1, each
    the double nearest to the exact quotient, adding up to 1 within
    [2^-53] per entry. *)
Lemma normalized_row_of_label (y_true y_pred : list Z) (cm : list (list Z))
    (i : nat) (l : Z) :
  Sklearn.confusion_matrix y_true y_pred = inr cm ->
  nth_error (Sklearn.unique_labels y_true y_pred) i = Some l ->
  In l y_true -> Z.of_nat (length y_true) < 2 ^ 53 ->
  exists row,
    nth_error cm i = Some row /\
    let qs := map (fun x => Float.round (inject_Z x / inject_Z (Np.row_sum row))) row in
    nth_error (Np.normalize_rows cm) i = Some (map Np.Fin qs) /\
    Forall (fun q => (0 <= q)%Q /\ (q <= 1)%Q) qs /\
    (Qabs (Statistics.Qsum qs - 1)
     <= inject_Z (Z.of_nat (length qs)) * Float.pow2 (-53))%Q.
Proof.
  intros Hcm Hl Hin Hb.
  pose proof (SklearnFacts.confusion_matrix_inv _ _ _ Hcm) as (_ & _ & Ecm).
  assert (Hrow : exists row, nth_error cm i = Some row).
  { rewrite Ecm, nth_error_map, Hl. eexists. reflexivity. }
  destruct Hrow as (row & Hrow).
  destruct (SklearnFacts.confusion_row_sum _ _ _ _ _ _ Hcm Hl Hrow) as (Hs & _ & Hnn).
  apply SklearnFacts.true_count_pos in Hin.
  pose proof (true_count_le l y_true).
  destruct (NpFacts.normalized_row row Hnn) as (Hq & Hu & Hsum); [lia|lia|].
  exists row. split; [exact Hrow|]. cbv zeta.
  split; [|split; [exact Hu|exact Hsum]].
  unfold Np.normalize_rows. rewrite nth_error_map, Hrow.
  cbn [option_map]. now rewrite Hq.
Qed.

(** The same row in a figure that was drawn. *)
Lemma figure_row (y_true y_pred : list Z) (classes : list string)
    (fig : GazeNet.Figure) (cm : list (list Z)) (i : nat) (l : Z) :
  GazeNet.plot_confusion_matrix y_true y_pred classes true = inr fig ->
  Sklearn.confusion_matrix y_true y_pred = inr cm ->
  nth_error (Sklearn.unique_labels y_true y_pred) i = Some l ->
  In l y_true -> Z.of_nat (length y_true) < 2 ^ 53 ->
  exists row,
    nth_error cm i = Some row /\
    let qs := map (fun x => Float.round (inject_Z x / inject_Z (Np.row_sum row))) row in
    nth_error (GazeNet.im fig) i = Some (map Np.Fin qs) /\
    Forall (fun q => (0 <= q)%Q /\ (q <= 1)%Q) qs /\
    (Qabs (Statistics.Qsum qs - 1)
     <= inject_Z (Z.of_nat (length qs)) * Float.pow2 (-53))%Q.
Proof.
  intros H Hcm Hl Hin Hb.
  destruct (PlotFacts.plot_inv _ _ _ _ H) as (cm' & top & Hcm' & _ & _ & Him & _).
  rewrite Hcm in Hcm'. injection Hcm' as <-.
  rewrite Him.
  exact (normalized_row_of_label y_true y_pred cm i l Hcm Hl Hin Hb).
Qed.

(** C4.  The matrix that [plot_confusion_matrix] computes at line 84 and
    hands to the renderer is the confusion matrix with every entry divided
    by the sum of its row, and it is the matrix of every figure that is
    drawn: the row of a class with at least one true example (in a log of
    fewer than 2^53 examples) holds the doubles nearest to the exact
    quotients, each between 0 and 1, and they add up to 1 within [2^-53]
    per entry.  In the scenario of ten examples, five of class 0 and five
    of class 1, all predicted as class 0, the counts are [5, 0] and [5, 0]
    and both normalised rows are [1, 0]: this is the figure drawn for two
    class names; with the nine class names of the script only two of nine
    labels occur, and after the matrix is computed the tick labels are
    refused with [ValueError]. *)
Theorem confusion_matrix_rows_normalized :
  (forall (y_true y_pred : list Z) (cm : list (list Z)),
      Sklearn.confusion_matrix y_true y_pred = inr cm ->
      (forall (classes : list string) (fig : GazeNet.Figure),
          GazeNet.plot_confusion_matrix y_true y_pred classes true = inr fig ->
          GazeNet.im fig = Np.normalize_rows cm) /\
      forall i l,
        nth_error (Sklearn.unique_labels y_true y_pred) i = Some l ->
        In l y_true -> Z.of_nat (length y_true) < 2 ^ 53 ->
        exists row,
          nth_error cm i = Some row /\
          let qs :=
            map (fun x => Float.round (inject_Z x / inject_Z (Np.row_sum row))) row in
          nth_error (Np.normalize_rows cm) i = Some (map Np.Fin qs) /\
          Forall (fun q => (0 <= q)%Q /\ (q <= 1)%Q) qs /\
          (Qabs (Statistics.Qsum qs - 1)
           <= inject_Z (Z.of_nat (length qs)) * Float.pow2 (-53))%Q) /\
  Sklearn.confusion_matrix [0; 0; 0; 0; 0; 1; 1; 1; 1; 1]
                           [0; 0; 0; 0; 0; 0; 0; 0; 0; 0]
    = inr [[5; 0]; [5; 0]] /\
  Np.normalize_rows [[5; 0]; [5; 0]] = [[Np.Fin 1; Np.Fin 0]; [Np.Fin 1; Np.Fin 0]] /\
  GazeNet.plot_confusion_matrix [0; 0; 0; 0; 0; 1; 1; 1; 1; 1]
                                [0; 0; 0; 0; 0; 0; 0; 0; 0; 0]
                                ["class 0"; "class 1"]%string true
    = inr {| GazeNet.im := [[Np.Fin 1; Np.Fin 0]; [Np.Fin 1; Np.Fin 0]];
             GazeNet.ticklabels := ["class 0"; "class 1"]%string;
             GazeNet.white_text := [[true; false]; [true; false]] |} /\
  (exists e,
      GazeNet.plot_confusion_matrix [0; 0; 0; 0; 0; 1; 1; 1; 1; 1]
                                    [0; 0; 0; 0; 0; 0; 0; 0; 0; 0]
                                    Startup.activity_classes true
      = inl e /\
      Py.exn_class e = "ValueError"%string).
Proof.
  split; [|split; [vm_compute; reflexivity|];
           split; [vm_compute; reflexivity|];
           split; [vm_compute; reflexivity|eexists; split; vm_compute; reflexivity]].
  intros y_true y_pred cm Hcm. split.
  - intros classes fig H.
    destruct (PlotFacts.plot_inv _ _ _ _ H) as (cm' & top & Hcm' & _ & _ & Him & _).
    rewrite Hcm in Hcm'. injection Hcm' as <-. exact Him.
  - intros i l Hl Hin Hb.
    exact (normalized_row_of_label y_true y_pred cm i l Hcm Hl Hin Hb).
Qed.

(** C5 (as amended).  The normalisation has no guard: in a figure that is
    drawn (the labels that occur are then as many as the class names), a
    row of the confusion matrix that sums to zero has been divided by zero
    cell by cell, so the row handed to the renderer is [nan] in every cell
    (and it has at least one cell), and the [nan] reaches the annotation
    threshold [cm.max() / 2], so that no cell of the figure compares above
    it. *)
Theorem zero_sum_row_is_all_nan
    (y_true y_pred : list Z) (classes : list string) (fig : GazeNet.Figure)
    (cm : list (list Z)) (i : nat) (row : list Z) :
  GazeNet.plot_confusion_matrix y_true y_pred classes true = inr fig ->
  Sklearn.confusion_matrix y_true y_pred = inr cm ->
  nth_error cm i = Some row ->
  Np.row_sum row = 0 ->
  length (Sklearn.unique_labels y_true y_pred) = length classes /\
  nth_error (GazeNet.im fig) i = Some (repeat Np.NaN (length row)) /\
  length row = length classes /\
  row <> [] /\
  Np.amax (concat (GazeNet.im fig)) = inr Np.NaN /\
  Forall (Forall (fun white => white = false)) (GazeNet.white_text fig).
Proof.
  intros H Hcm Hrow Hz.
  destruct (PlotFacts.plot_inv _ _ _ _ H)
    as (cm' & top & Hcm' & Hcls & Htop & Him & _ & Hwt).
  rewrite Hcm in Hcm'. injection Hcm' as <-.
  pose proof (SklearnFacts.confusion_matrix_inv _ _ _ Hcm) as (_ & _ & Ecm).
  assert (Hl : exists l, nth_error (Sklearn.unique_labels y_true y_pred) i = Some l).
  { rewrite Ecm in Hrow. apply nth_error_map_inv in Hrow.
    destruct Hrow as (l & Hl & _). now exists l. }
  destruct Hl as (l & Hl).
  destruct (SklearnFacts.confusion_row_sum _ _ _ _ _ _ Hcm Hl Hrow)
    as (_ & Hlen & Hnn).
  assert (Hnan : nth_error (GazeNet.im fig) i = Some (repeat Np.NaN (length row))).
  { rewrite Him. unfold Np.normalize_rows. rewrite nth_error_map, Hrow.
    cbn [option_map]. now rewrite NpFacts.zero_sum_row_is_nan. }
  assert (Hne : row <> []).
  { intros ->. cbn in Hlen. apply nth_error_In in Hl.
    destruct (Sklearn.unique_labels y_true y_pred); [destruct Hl|discriminate]. }
  assert (Hmax : Np.amax (concat (GazeNet.im fig)) = inr Np.NaN).
  { apply NpFacts.amax_nan. apply in_concat.
    exists (repeat Np.NaN (length row)). split.
    - eapply nth_error_In. exact Hnan.
    - destruct row; [congruence|]. now left. }
  split; [exact Hcls|]. split; [exact Hnan|]. split; [congruence|].
  split; [exact Hne|]. split; [exact Hmax|].
  rewrite Him in Hmax. rewrite Htop in Hmax. injection Hmax as ->.
  rewrite Hwt. apply Forall_map, Forall_forall. intros r _.
  apply Forall_map, Forall_forall. intros c _.
  apply NpFacts.greater_nan_r.
Qed.

(** X7.  The entries of the confusion matrix add up to the number of
    examples, and its diagonal adds up to the number of positions at which
    the true and the predicted label agree. *)
Theorem confusion_matrix_total_and_diagonal
    (y_true y_pred : list Z) (cm : list (list Z)) :
  Sklearn.confusion_matrix y_true y_pred = inr cm ->
  Reading.total cm = Z.of_nat (length y_true) /\
  Reading.diagonal cm = Reading.agreements y_true y_pred.
Proof.
  intro H. split.
  - exact (ReadingFacts.matrix_total _ _ _ H).
  - exact (ReadingFacts.matrix_diagonal _ _ _ H).
Qed.

(** X8.  When every predicted label also occurs as a true label (in a log
    of fewer than 2^53 examples), no row of the matrix sums to zero: every
    row of a figure that is drawn consists of finite values between 0 and
    1, and they add up to 1 within [2^-53] per entry, so the figure holds
    no [nan]. *)
Theorem figure_finite_when_predictions_covered
    (y_true y_pred : list Z) (classes : list string) (fig : GazeNet.Figure) :
  GazeNet.plot_confusion_matrix y_true y_pred classes true = inr fig ->
  (forall l, In l y_pred -> In l y_true) ->
  Z.of_nat (length y_true) < 2 ^ 53 ->
  Forall (fun row =>
            exists qs, row = map Np.Fin qs /\
                       Forall (fun q => (0 <= q)%Q /\ (q <= 1)%Q) qs /\
                       (Qabs (Statistics.Qsum qs - 1)
                        <= inject_Z (Z.of_nat (length qs)) * Float.pow2 (-53))%Q)
         (GazeNet.im fig).
Proof.
  intros H Hcov Hb.
  destruct (PlotFacts.plot_inv _ _ _ _ H) as (cm & top & Hcm & _ & _ & Him & _).
  apply Forall_forall. intros frow Hfrow.
  apply In_nth_error in Hfrow. destruct Hfrow as (i & Hfrow).
  pose proof (SklearnFacts.confusion_matrix_inv _ _ _ Hcm) as (_ & _ & Ecm).
  assert (Hl : exists l, nth_error (Sklearn.unique_labels y_true y_pred) i = Some l).
  { rewrite Him in Hfrow. unfold Np.normalize_rows in Hfrow.
    apply nth_error_map_inv in Hfrow. destruct Hfrow as (row & Hrow & _).
    rewrite Ecm in Hrow. apply nth_error_map_inv in Hrow.
    destruct Hrow as (l & Hl & _). now exists l. }
  destruct Hl as (l & Hl).
  assert (Hin : In l y_true).
  { pose proof (nth_error_In _ _ Hl) as Hi.
    apply SklearnFacts.unique_labels_in in Hi. destruct Hi; auto. }
  destruct (figure_row _ _ _ _ _ _ _ H Hcm Hl Hin Hb)
    as (row & _ & Hq & Hu & Hsum).
  rewrite Hq in Hfrow. injection Hfrow as <-.
  eexists. split; [reflexivity|]. split; [exact Hu|exact Hsum].
Qed.

(* ------------------------------------------------------------------ *)
(** ** Start-up *)

Section StartupFacts.

Variable FS : Type.
Variable path_exists : FS -> string -> bool.
Variable makedirs : FS -> string -> FS * Py.result unit.
Variable write_text : FS -> string -> string -> FS * Py.result unit.
Variable json_dump : Startup.Namespace -> string.

Local Abbreviation setup :=
  (Startup.setup path_exists makedirs write_text json_dump).

Lemma default_output_dir (now : string) (a : Startup.Namespace) :
  String.prefix "/" now = false ->
  Startup.output_dir a = None ->
  Startup.chosen_output_dir now a = ("./experiments/gazenet/" ++ now)%string.
Proof.
  intros Hn Ha. unfold Startup.chosen_output_dir. rewrite Ha.
  unfold Startup.path_join at 1. rewrite Hn. reflexivity.
Qed.

(** X13.  The start-up code accepts the arguments only when a dataset
    path is given, the version is 1_0 or 1_1 and the output directory does
    not exist yet; it then records that directory (the default one is
    [./experiments/gazenet/<start time>]), the nine classes and the cuda
    flag in the arguments.  When one of the three checks fails it raises
    [AssertionError] with the message of the first failing check, in this
    order, and the file system is as before: nothing is created and an
    existing directory is never written to. *)
Theorem setup_checks_before_touching_disk
    (now : string) (cuda_available : bool) (fs : FS) (a : Startup.Namespace) :
  (forall fs' a',
      setup now cuda_available fs a = (fs', inr a') ->
      (exists d, Startup.dataset_root_path a = Some d) /\
      (Startup.version a = Some "1_0"%string \/
       Startup.version a = Some "1_1"%string) /\
      path_exists fs (Startup.chosen_output_dir now a) = false /\
      Startup.output_dir a' = Some (Startup.chosen_output_dir now a) /\
      (String.prefix "/" now = false -> Startup.output_dir a = None ->
       Startup.output_dir a' = Some ("./experiments/gazenet/" ++ now)%string) /\
      Startup.num_classes a' = Some 9 /\
      Startup.cuda a' = Some (negb (Startup.no_cuda a) && cuda_available) /\
      Startup.dataset_root_path a' = Startup.dataset_root_path a /\
      Startup.version a' = Startup.version a /\
      Startup.seed a' = Startup.seed a) /\
  (Startup.dataset_root_path a = None ->
   setup now cuda_available fs a
     = (fs, inl {| Py.exn_class := "AssertionError";
                   Py.exn_msg := "Path to dataset not provided!" |})) /\
  (Startup.dataset_root_path a <> None ->
   Startup.version_recognized (Startup.version a) = false ->
   setup now cuda_available fs a
     = (fs, inl {| Py.exn_class := "AssertionError";
                   Py.exn_msg := "Model version not recognized!" |})) /\
  (Startup.dataset_root_path a <> None ->
   Startup.version_recognized (Startup.version a) = true ->
   path_exists fs (Startup.chosen_output_dir now a) = true ->
   setup now cuda_available fs a
     = (fs, inl {| Py.exn_class := "AssertionError";
                   Py.exn_msg := "Output directory already exists!" |})).
Proof.
  unfold Startup.setup.
  change (Startup.chosen_output_dir now
            (Startup.set_cuda (negb (Startup.no_cuda
                                 (Startup.set_num_classes
                                    (Z.of_nat (length Startup.activity_classes)) a))
                               && cuda_available)
               (Startup.set_num_classes
                  (Z.of_nat (length Startup.activity_classes)) a)))
    with (Startup.chosen_output_dir now a).
  split; [|split; [|split]].
  - intros fs' a' H.
    destruct (Startup.dataset_root_path a) as [d|] eqn:D; [|discriminate].
    destruct (Startup.version_recognized (Startup.version a)) eqn:V;
      [|discriminate].
    destruct (path_exists fs (Startup.chosen_output_dir now a)) eqn:P;
      [discriminate|].
    destruct (makedirs fs (Startup.chosen_output_dir now a)) as [fs1 [e|u]];
      [discriminate|].
    destruct (write_text fs1 _ _) as [fs2 [e|u']]; [discriminate|].
    injection H as <- <-.
    split; [now exists d|]. split.
    { unfold Startup.version_recognized in V.
      destruct (Startup.version a) as [v|]; [|discriminate].
      apply orb_true_iff in V. destruct V as [V|V]; apply String.eqb_eq in V;
        subst; auto. }
    split; [reflexivity|]. split; [reflexivity|]. split.
    { intros Hn Ha. cbn. f_equal. now apply default_output_dir. }
    repeat split. exact D.
  - intros ->. reflexivity.
  - intros D V. destruct (Startup.dataset_root_path a); [|congruence].
    now rewrite V.
  - intros D V P. destruct (Startup.dataset_root_path a); [|congruence].
    now rewrite V, P.
Qed.

(** X14.  On a file system where a created directory exists afterwards
    and writing a file removes nothing: once the start-up has succeeded, a
    second start-up that settles on the same output directory (the same
    [--output-dir], or the default within the same minute) fails with
    'Output directory already exists!' and leaves the file system, and so
    the first run's files, as they are. *)
Theorem second_run_on_same_directory_fails
    (now now2 : string) (cuda_available cuda_available2 : bool)
    (fs fs1 : FS) (a a1 a2 : Startup.Namespace) :
  (forall f p f', makedirs f p = (f', inr tt) -> path_exists f' p = true) ->
  (forall f q content f' p,
      write_text f q content = (f', inr tt) ->
      path_exists f p = true -> path_exists f' p = true) ->
  setup now cuda_available fs a = (fs1, inr a1) ->
  Startup.dataset_root_path a2 <> None ->
  Startup.version_recognized (Startup.version a2) = true ->
  Startup.chosen_output_dir now2 a2 = Startup.chosen_output_dir now a ->
  setup now2 cuda_available2 fs1 a2
    = (fs1, inl {| Py.exn_class := "AssertionError";
                   Py.exn_msg := "Output directory already exists!" |}).
Proof.
  intros Hmk Hwr H D2 V2 Hdir.
  assert (Hex : path_exists fs1 (Startup.chosen_output_dir now a) = true).
  { unfold Startup.setup in H.
    change (Startup.chosen_output_dir now
              (Startup.set_cuda (negb (Startup.no_cuda
                                   (Startup.set_num_classes
                                      (Z.of_nat (length Startup.activity_classes)) a))
                                 && cuda_available)
                 (Startup.set_num_classes
                    (Z.of_nat (length Startup.activity_classes)) a)))
      with (Startup.chosen_output_dir now a) in H.
    destruct (Startup.dataset_root_path a); [|discriminate].
    destruct (Startup.version_recognized (Startup.version a)); [|discriminate].
    destruct (path_exists fs (Startup.chosen_output_dir now a)); [discriminate|].
    destruct (makedirs fs (Startup.chosen_output_dir now a)) as [f1 [e|[]]] eqn:M;
      [discriminate|].
    destruct (write_text f1 _ _) as [f2 [e|[]]] eqn:W; [discriminate|].
    injection H as <- _.
    eapply Hwr; [exact W|]. eapply Hmk. exact M. }
  unfold Startup.setup.
  change (Startup.chosen_output_dir now2
            (Startup.set_cuda (negb (Startup.no_cuda
                                 (Startup.set_num_classes
                                    (Z.of_nat (length Startup.activity_classes)) a2))
                               && cuda_available2)
               (Startup.set_num_classes
                  (Z.of_nat (length Startup.activity_classes)) a2)))
    with (Startup.chosen_output_dir now2 a2).
  destruct (Startup.dataset_root_path a2); [|congruence].
  now rewrite V2, Hdir, Hex.
Qed.

End StartupFacts.
(* ------------------------------------------------------------------ *)
(** ** The small network meets the contracts *)

Lemma toy_one_row_per_example : Obs.one_row_per_example Toy.forward.
Proof.
  intros p b g data. unfold Toy.forward. cbn [fst].
  induction data as [|x data IH]; [reflexivity|].
  cbn [flat_map length]. rewrite length_app, IH.
  change (length (Toy.one_hot (Toy.classify p x))) with 9%nat.
  unfold GazeNet.num_classes. lia.
Qed.

Lemma toy_permutes : Obs.permutes Toy.randperm.
Proof. intros g n. apply Permutation_refl. Qed.

Lemma toy_loss_defined : Obs.loss_defined Toy.nll_loss.
Proof.
  intros scores targets _ Hlen _ Hc. unfold Toy.nll_loss.
  rewrite Hlen, Nat.eqb_refl. cbn [negb]. clear Hlen.
  assert (F : find (fun t => negb ((0 <=? t) && (t <? 9))) targets = None).
  { induction Hc as [|t l Ht _ IH]; [reflexivity|].
    cbn [find]. unfold Obs.is_class, GazeNet.num_classes in Ht.
    assert (E : negb ((0 <=? t) && (t <? 9)) = false).
    { apply negb_false_iff, andb_true_iff.
      split; [apply Z.leb_le|apply Z.ltb_lt]; lia. }
    now rewrite E. }
  rewrite F. eexists. reflexivity.
Qed.

Lemma is_class_cases (t : Z) :
  Obs.is_class t ->
  t = 0 \/ t = 1 \/ t = 2 \/ t = 3 \/ t = 4 \/ t = 5 \/ t = 6 \/ t = 7 \/ t = 8.
Proof. unfold Obs.is_class, GazeNet.num_classes. lia. Qed.

Lemma toy_train_labelled : Obs.labelled_with_classes (Torch.dataset Toy.train_loader).
Proof.
  repeat constructor; unfold Obs.is_class, GazeNet.num_classes; cbn; lia.
Qed.

Lemma toy_ten_labelled : Obs.labelled_with_classes (Torch.dataset Toy.ten).
Proof.
  repeat constructor; unfold Obs.is_class, GazeNet.num_classes; cbn; lia.
Qed.

Lemma toy_val_labelled : Obs.labelled_with_classes (Torch.dataset Toy.val_loader).
Proof.
  repeat constructor; unfold Obs.is_class, GazeNet.num_classes; cbn; lia.
Qed.

Lemma toy_val_every_class : Obs.every_class_occurs (Torch.dataset Toy.val_loader).
Proof.
  intros t Ht. apply is_class_cases in Ht.
  destruct Ht as [->|[->|[->|[->|[->|[->|[->|[->| ->]]]]]]]]; cbn; tauto.
Qed.

(* ------------------------------------------------------------------ *)
(** ** The passes on the small network *)


(** An epoch of three batches with losses 0, 3/4 and 1: the average is
    the double nearest to 7/12, in any order of the losses. *)
Lemma average_loss_is_mean_witness :
  exists (w' : Toy.World) (losses : list Q),
    Toy.train Toy.ten Toy.always_zero 1
      = inr (w', (5254199565265579 # 9007199254740992)%Q, 50%Q) /\
    length losses = 3%nat /\
    (5254199565265579 # 9007199254740992)%Q
      = Float.round (Statistics.Qsum losses / inject_Z 3) /\
    Statistics.mean (rev losses) = inr (5254199565265579 # 9007199254740992)%Q.
Proof.
  assert (H : exists w' : Toy.World,
             Toy.train Toy.ten Toy.always_zero 1
             = inr (w', (5254199565265579 # 9007199254740992)%Q, 50%Q))
    by (eexists; vm_compute; reflexivity).
  destruct H as (w' & H).
  destruct (average_loss_is_mean _ _ _ _ Toy.forward Toy.nll_loss Toy.sgd_step
              Toy.randperm (Toy.args 3) Toy.ten Toy.always_zero w' 1 _ _ H)
    as (losses & _ & Hlen & _ & Havg & _ & Hperm).
  assert (Hlen' : length losses = 3%nat) by exact Hlen.
  exists w', losses.
  split; [exact H|]. split; [exact Hlen'|]. split.
  - rewrite Hlen' in Havg. exact Havg.
  - apply Hperm, Permutation_rev.
Defined.

(** An empty training split, and an empty validation split: the loader
    cannot be constructed. *)
Lemma empty_split_raises_ValueError_witness :
  Toy.script 3 [] [(0, 0)] 0 tt tt
  = inl {| Py.exn_class := "ValueError";
           Py.exn_msg := "num_samples should be a positive integer value, but got num_samples=0" |} /\
  Toy.script 3 [(0, 0)] [] 0 tt tt
  = inl {| Py.exn_class := "ValueError";
           Py.exn_msg := "num_samples should be a positive integer value, but got num_samples=0" |}.
Proof.
  pose proof (empty_split_raises_ValueError _ _ _ _ Toy.forward Toy.nll_loss
                Toy.sgd_step Toy.randperm (Toy.args 3) Toy.train_loader)
    as (H1 & H2 & _).
  split; [apply H1|apply H2; discriminate].
Defined.

(** C3, as stated, fails on a run with an empty training split: the
    exception that ends it is not an [EmptyDatasetError]. *)
Lemma empty_split_not_EmptyDatasetError :
  exists e,
    Toy.script 3 [] (Torch.dataset Toy.val_loader) 0 tt tt = inl e /\
    Py.exn_class e = "ValueError"%string /\
    Py.exn_class e <> "EmptyDatasetError"%string.
Proof.
  eexists. split; [reflexivity|]. split; [reflexivity|discriminate].
Qed.

(** Validation of the network that always answers class 0 on one example
    of each class: one of nine is correct.  Training on ten examples, five
    of them of class 0: five of ten are correct. *)
Lemma accuracy_is_percentage_witness :
  (exists (w' : Toy.World) (correct : Z),
      Toy.val Toy.val_loader Toy.always_zero
        = inr (w', (3127499741229511 # 281474976710656)%Q) /\
      In (GazeNet.Log_val correct 9 (3127499741229511 # 281474976710656)%Q)
         (GazeNet.trace w') /\
      0 <= correct <= 9 /\
      (3127499741229511 # 281474976710656)%Q
        = Float.round (100 * inject_Z correct / inject_Z 9)) /\
  (exists (w' : Toy.World) (avg : Q) (correct : Z),
      Toy.train Toy.ten Toy.always_zero 1 = inr (w', avg, 50%Q) /\
      In (GazeNet.Log_accuracy 50%Q) (GazeNet.trace w') /\
      0 <= correct <= 10 /\
      50%Q = Float.round (100 * inject_Z correct / inject_Z 10)).
Proof.
  destruct (accuracy_is_percentage _ _ _ _ Toy.forward Toy.nll_loss Toy.sgd_step
              Toy.randperm (Toy.args 3) Toy.ten Toy.val_loader
              toy_one_row_per_example toy_permutes)
    as (HV & HT).
  split.
  - assert (H : exists w' : Toy.World,
               Toy.val Toy.val_loader Toy.always_zero
               = inr (w', (3127499741229511 # 281474976710656)%Q))
      by (eexists; vm_compute; reflexivity).
    destruct H as (w' & H).
    destruct (HV Toy.always_zero w' _ H)
      as (correct & _ & _ & _ & Hin & Hb & _ & Hex).
    destruct (Hex eq_refl) as (He & _).
    exists w', correct.
    split; [exact H|]. split; [exact Hin|]. split; [exact Hb|exact He].
  - assert (H : exists (w' : Toy.World) avg,
               Toy.train Toy.ten Toy.always_zero 1 = inr (w', avg, 50%Q))
      by (do 2 eexists; vm_compute; reflexivity).
    destruct H as (w' & avg & H).
    destruct (HT Toy.always_zero w' 1 avg _ H)
      as (correct & _ & _ & _ & Hin & Hb & _ & Hex).
    destruct (Hex eq_refl) as (He & _).
    exists w', avg, correct.
    split; [exact H|]. split; [exact Hin|]. split; [exact Hb|exact He].
Defined.

(** Three epochs: the calls are train 1, val, train 2, val, train 3, val,
    each [val] on the parameters its [train] returned. *)
Lemma train_then_val_each_epoch_witness :
  exists (w' : Toy.World) (c' : GazeNet.Curves) (es : list (Obs.Epoch Z)) new,
    Toy.main 3 Toy.start = inr (w', c') /\
    GazeNet.trace w' = GazeNet.trace Toy.start ++ new /\
    filter Obs.is_call new = flat_map Obs.calls_of es /\
    map Obs.index es = [1; 2; 3] /\
    Obs.chained 0 es /\
    GazeNet.val_acc c' = map Obs.val_accuracy es.
Proof.
  assert (H : exists w' c', Toy.main 3 Toy.start = inr (w', c'))
    by (do 2 eexists; vm_compute; reflexivity).
  destruct H as (w' & c' & H).
  destruct (train_then_val_each_epoch _ _ _ _ Toy.forward Toy.nll_loss Toy.sgd_step
              Toy.randperm (Toy.args 3) Toy.train_loader Toy.val_loader
              Toy.start w' c' H)
    as (es & new & Htr & Hcalls & Hidx & _ & Hch & _ & _ & Hv).
  exists w', c', es, new. repeat split; assumption.
Defined.

(** Validation of the network with parameters 2 on one example of each
    class: three forward passes in evaluation mode on parameters 2, which
    it keeps. *)
Lemma val_leaves_parameters_witness :
  exists (w' : Toy.World) (acc : Q) new,
    Toy.val Toy.val_loader Toy.always_zero = inr (w', acc) /\
    GazeNet.netGaze w' = 2 /\
    GazeNet.training w' = false /\
    GazeNet.trace w' = GazeNet.trace Toy.always_zero ++ new /\
    filter Obs.is_model_event new =
      [GazeNet.Forward false 2 [0; 1; 2; 3]; GazeNet.Forward false 2 [4; 5; 6; 7];
       GazeNet.Forward false 2 [8]].
Proof.
  assert (H : exists (w' : Toy.World) acc,
             Toy.val Toy.val_loader Toy.always_zero = inr (w', acc))
    by (do 2 eexists; vm_compute; reflexivity).
  destruct H as (w' & acc & H).
  destruct (val_leaves_parameters _ _ _ _ Toy.forward Toy.randperm (Toy.args 3)
              Toy.val_loader Toy.always_zero w' acc H)
    as (Hn & _ & Ht & (new & Htr & Hm) & _).
  exists w', acc, new. repeat split; assumption.
Defined.

(** A validation pass over fourteen examples, six of class 0 of which the
    network takes one for class 1 and one for class 2: the row of class 0
    in the saved figure holds the doubles nearest to 4/6, 1/6 and 1/6, and
    they add up to 1 within the tolerance (to [1 - 2^-54]). *)
Lemma confusion_matrix_rows_normalized_witness :
  exists (w' : Toy.World) (acc : Q) (fig : GazeNet.Figure) (qs : list Q),
    Toy.val Toy.mixed Toy.start = inr (w', acc) /\
    filter Obs.is_render (GazeNet.trace w') = [GazeNet.Savefig_confusion_matrix fig] /\
    nth_error (GazeNet.im fig) 0 = Some (map Np.Fin qs) /\
    qs = [(6004799503160661 # 9007199254740992)%Q;
          (6004799503160661 # 36028797018963968)%Q;
          (6004799503160661 # 36028797018963968)%Q; 0%Q; 0%Q; 0%Q; 0%Q; 0%Q; 0%Q] /\
    Forall (fun q => (0 <= q)%Q /\ (q <= 1)%Q) qs /\
    (Qabs (Statistics.Qsum qs - 1) <= inject_Z 9 * Float.pow2 (-53))%Q.
Proof.
  assert (H : exists (w' : Toy.World) acc fig cm,
             Toy.val Toy.mixed Toy.start = inr (w', acc) /\
             filter Obs.is_render (GazeNet.trace w')
             = [GazeNet.Savefig_confusion_matrix fig] /\
             GazeNet.plot_confusion_matrix
               [0; 0; 0; 0; 0; 0; 1; 2; 3; 4; 5; 6; 7; 8]
               [0; 0; 0; 0; 1; 2; 1; 2; 3; 4; 5; 6; 7; 8]
               Startup.activity_classes true = inr fig /\
             Sklearn.confusion_matrix
               [0; 0; 0; 0; 0; 0; 1; 2; 3; 4; 5; 6; 7; 8]
               [0; 0; 0; 0; 1; 2; 1; 2; 3; 4; 5; 6; 7; 8] = inr cm /\
             nth_error cm 0 = Some [4; 1; 1; 0; 0; 0; 0; 0; 0])
    by (do 4 eexists; split; [vm_compute; reflexivity|];
        split; [vm_compute; reflexivity|];
        split; [vm_compute; reflexivity|];
        split; vm_compute; reflexivity).
  destruct H as (w' & acc & fig & cm & H & Hf & Hp & Hcm & Hr0).
  destruct (proj1 confusion_matrix_rows_normalized _ _ cm Hcm) as (Him & Hrow).
  destruct (Hrow 0%nat 0 eq_refl (or_introl eq_refl) eq_refl)
    as (row & Hr & Hq & Hu & Hsum).
  rewrite Hr0 in Hr. injection Hr as <-.
  rewrite <- (Him _ fig Hp) in Hq.
  exists w', acc, fig. eexists.
  split; [exact H|]. split; [exact Hf|]. split; [exact Hq|].
  split; [vm_compute; reflexivity|]. split; [exact Hu|exact Hsum].
Defined.

(** A prediction log of nine examples in which class 0 is predicted once
    and never true, while all nine labels occur: the figure is drawn, and
    its row of class 0 is [nan] nine times. *)
Lemma zero_sum_row_is_all_nan_witness :
  exists fig : GazeNet.Figure,
    GazeNet.plot_confusion_matrix [1; 1; 2; 3; 4; 5; 6; 7; 8]
                                  [0; 1; 2; 3; 4; 5; 6; 7; 8]
                                  Startup.activity_classes true = inr fig /\
    nth_error (GazeNet.im fig) 0 = Some (repeat Np.NaN 9) /\
    Np.amax (concat (GazeNet.im fig)) = inr Np.NaN /\
    Forall (Forall (fun white => white = false)) (GazeNet.white_text fig).
Proof.
  assert (H : exists fig cm,
             GazeNet.plot_confusion_matrix [1; 1; 2; 3; 4; 5; 6; 7; 8]
                                           [0; 1; 2; 3; 4; 5; 6; 7; 8]
                                           Startup.activity_classes true = inr fig /\
             Sklearn.confusion_matrix [1; 1; 2; 3; 4; 5; 6; 7; 8]
                                      [0; 1; 2; 3; 4; 5; 6; 7; 8] = inr cm /\
             nth_error cm 0 = Some [0; 0; 0; 0; 0; 0; 0; 0; 0])
    by (do 2 eexists; split; [vm_compute; reflexivity|];
        split; vm_compute; reflexivity).
  destruct H as (fig & cm & Hp & Hcm & Hr).
  destruct (zero_sum_row_is_all_nan _ _ _ fig cm 0 _ Hp Hcm Hr eq_refl)
    as (_ & Hn & _ & _ & Hm & Hw).
  exists fig.
  split; [exact Hp|]. split; [exact Hn|]. split; [exact Hm|exact Hw].
Defined.

(** C5, as stated, fails on a validation pass over nine examples, none of
    class 0, in which one example of class 1 is taken for class 0: all nine
    labels occur in the log, the pass reaches a new best accuracy and saves
    the figure; the row of class 0 sums to zero, nothing guards it, and the
    renderer receives a row that is defined, is not all zero, and holds the
    [nan] of 0/0 in every cell; the [nan] is the maximum from which the
    annotation threshold is taken. *)
Lemma zero_sum_row_not_guarded :
  exists (w' : Toy.World) (acc : Q) (fig : GazeNet.Figure)
         (cm : list (list Z)) (row : list Z),
    Toy.val Toy.unseen Toy.start = inr (w', acc) /\
    filter Obs.is_render (GazeNet.trace w') = [GazeNet.Savefig_confusion_matrix fig] /\
    GazeNet.plot_confusion_matrix [1; 1; 2; 3; 4; 5; 6; 7; 8]
                                  [0; 1; 2; 3; 4; 5; 6; 7; 8]
                                  Startup.activity_classes true = inr fig /\
    Sklearn.confusion_matrix [1; 1; 2; 3; 4; 5; 6; 7; 8]
                             [0; 1; 2; 3; 4; 5; 6; 7; 8] = inr cm /\
    nth_error cm 0 = Some row /\
    Np.row_sum row = 0 /\
    nth_error (GazeNet.im fig) 0 = Some (repeat Np.NaN 9) /\
    ~ Obs.all_zero (repeat Np.NaN 9) /\
    Np.true_divide 0 (Np.row_sum row) = Np.NaN /\
    Np.amax (concat (GazeNet.im fig)) = inr Np.NaN.
Proof.
  do 5 eexists.
  split; [vm_compute; reflexivity|].
  split; [vm_compute; reflexivity|].
  split; [vm_compute; reflexivity|].
  split; [vm_compute; reflexivity|].
  split; [reflexivity|].
  split; [reflexivity|].
  split; [reflexivity|].
  split; [|split; reflexivity].
  intro H. inversion H as [|c r (q & Hq & _) _]. discriminate.
Qed.

(** The ten examples of the scenario, five of class 0 and five of class
    1, all predicted as class 0: the labels that occur are 0 and 1, class 2
    has neither row nor column, and with the nine class names the figure
    is refused. *)
Lemma confusion_matrix_over_occurring_labels_witness :
  Sklearn.unique_labels [0; 0; 0; 0; 0; 1; 1; 1; 1; 1] [0; 0; 0; 0; 0; 0; 0; 0; 0; 0]
    = [0; 1] /\
  ~ In 2 (Sklearn.unique_labels [0; 0; 0; 0; 0; 1; 1; 1; 1; 1]
                                [0; 0; 0; 0; 0; 0; 0; 0; 0; 0]) /\
  exists e,
    GazeNet.plot_confusion_matrix [0; 0; 0; 0; 0; 1; 1; 1; 1; 1]
                                  [0; 0; 0; 0; 0; 0; 0; 0; 0; 0]
                                  Startup.activity_classes true = inl e /\
    Py.exn_class e = "ValueError"%string.
Proof.
  assert (C : forall t, In t [0; 1] -> Obs.is_class t).
  { intros t [<-|[<-|[]]]; unfold Obs.is_class, GazeNet.num_classes; cbn; lia. }
  destruct (proj1 (proj2 (confusion_matrix_over_occurring_labels Z Z unit unit
                            Toy.forward Toy.randperm (Toy.args 3) Toy.val_loader))
              [0; 0; 0; 0; 0; 1; 1; 1; 1; 1] [0; 0; 0; 0; 0; 0; 0; 0; 0; 0] 2
              eq_refl)
    as (Hn & He).
  - discriminate.
  - apply Forall_forall. intros t Ht. apply C. cbn in Ht. cbn. tauto.
  - apply Forall_forall. intros t Ht. apply C. cbn in Ht. cbn. tauto.
  - unfold Obs.is_class, GazeNet.num_classes. cbn. lia.
  - cbn. intros [E|[E|[E|[E|[E|[E|[E|[E|[E|[E|[]]]]]]]]]]]; discriminate E.
  - cbn. intros [E|[E|[E|[E|[E|[E|[E|[E|[E|[E|[]]]]]]]]]]]; discriminate E.
  - split; [reflexivity|]. split; [exact Hn|exact He].
Defined.

(* ------------------------------------------------------------------ *)
(** ** The further properties on the small network and the small disk *)



Lemma main_completes_witness :
  exists (w' : Toy.World) (c' : GazeNet.Curves),
    Toy.main 3 Toy.start = inr (w', c').
Proof.
  apply (proj1 (proj2 (main_completes _ _ _ _ Toy.forward Toy.nll_loss
                         Toy.sgd_step Toy.randperm (Toy.args 3)
                         Toy.train_loader Toy.val_loader Toy.start))
           toy_one_row_per_example toy_permutes toy_loss_defined
           toy_train_labelled toy_val_labelled toy_val_every_class).
  discriminate.
Defined.

(** Three batches: three forward passes and three steps, from parameters
    2 to parameters 5. *)
Lemma train_steps_once_per_batch_witness :
  exists (w' : Toy.World) (avg : Q) new (ps : list Z),
    Toy.train Toy.ten Toy.always_zero 1 = inr (w', avg, 50%Q) /\
    GazeNet.trace w' = GazeNet.trace Toy.always_zero ++ new /\
    length ps = 3%nat /\
    filter Obs.is_model_event new
      = Reading.training_events 2
          (combine [[0; 0; 0; 0]; [0; 1; 1; 1]; [1; 1]] ps) /\
    GazeNet.netGaze w' = last ps 2.
Proof.
  assert (H : exists (w' : Toy.World) avg,
             Toy.train Toy.ten Toy.always_zero 1 = inr (w', avg, 50%Q))
    by (do 2 eexists; vm_compute; reflexivity).
  destruct H as (w' & avg & H).
  destruct (train_steps_once_per_batch _ _ _ _ Toy.forward Toy.nll_loss
              Toy.sgd_step Toy.randperm (Toy.args 3) Toy.ten
              Toy.always_zero w' 1 _ _ H)
    as (new & ps & Htr & Hp & Hm & Hn).
  exists w', avg, new, ps.
  split; [exact H|]. split; [exact Htr|]. split; [exact Hp|].
  split; [exact Hm|exact Hn].
Defined.

(** With a period of 10 only the first of the three batches is logged. *)
Lemma train_logs_every_kth_batch_witness :
  exists (w' : Toy.World) (avg : Q) new (losses : list Q),
    Toy.train Toy.ten Toy.always_zero 1 = inr (w', avg, 50%Q) /\
    GazeNet.trace w' = GazeNet.trace Toy.always_zero ++ new /\
    length losses = 3%nat /\
    (forall l, ~ In (GazeNet.Log_batch 1 1 l) new) /\
    (exists l0, In (GazeNet.Log_batch 1 0 l0) new).
Proof.
  assert (H : exists (w' : Toy.World) avg,
             Toy.train Toy.ten Toy.always_zero 1 = inr (w', avg, 50%Q))
    by (do 2 eexists; vm_compute; reflexivity).
  destruct H as (w' & avg & H).
  destruct (train_logs_every_kth_batch _ _ _ _ Toy.forward Toy.nll_loss
              Toy.sgd_step Toy.randperm (Toy.args 3) Toy.ten
              Toy.always_zero w' 1 _ _ H)
    as (new & losses & Htr & _ & Hl & Hin & H0).
  exists w', avg, new, losses.
  split; [exact H|]. split; [exact Htr|]. split; [exact Hl|].
  split; [|exact H0].
  intros l Hl1. apply Hin in Hl1. destruct Hl1 as (_ & _ & Hm & _).
  discriminate Hm.
Defined.

(** Nine validation examples, one of each class, one of them predicted
    correctly. *)
Lemma prediction_log_is_parallel_witness :
  exists (w' : Toy.World) (acc : Q) (correct : Z) (pred_all target_all : list Z) cm,
    Toy.val Toy.val_loader Toy.always_zero = inr (w', acc) /\
    length pred_all = 9%nat /\
    length target_all = 9%nat /\
    correct = Reading.agreements pred_all target_all /\
    Sklearn.confusion_matrix target_all pred_all = inr cm /\
    Reading.diagonal cm = correct /\
    Reading.total cm = 9.
Proof.
  assert (H : exists (w' : Toy.World) acc,
             Toy.val Toy.val_loader Toy.always_zero = inr (w', acc))
    by (do 2 eexists; vm_compute; reflexivity).
  destruct H as (w' & acc & H).
  destruct (prediction_log_is_parallel _ _ _ _ Toy.forward Toy.randperm
              (Toy.args 3) Toy.val_loader Toy.always_zero w' acc
              toy_one_row_per_example toy_permutes H)
    as (w1 & correct & pa & ta & cm & _ & Hp & Ht & _ & Hc & Hcm & Hd & Htot).
  exists w', acc, correct, pa, ta, cm.
  split; [exact H|]. split; [exact Hp|]. split; [exact Ht|].
  split; [exact Hc|]. split; [exact Hcm|]. split; [exact Hd|exact Htot].
Defined.

Lemma confusion_matrix_total_and_diagonal_witness :
  Reading.total [[1; 1]; [0; 0]] = 2 /\
  Reading.diagonal [[1; 1]; [0; 0]] = Reading.agreements [0; 0] [0; 1].
Proof.
  exact (confusion_matrix_total_and_diagonal [0; 0] [0; 1] [[1; 1]; [0; 0]] eq_refl).
Defined.

(** One example of each class, all but one predicted correctly, and the
    one taken for another class that occurs: the figure holds nine rows of
    finite values. *)
Lemma figure_finite_when_predictions_covered_witness :
  exists fig : GazeNet.Figure,
    GazeNet.plot_confusion_matrix [0; 1; 2; 3; 4; 5; 6; 7; 8]
                                  [0; 0; 2; 3; 4; 5; 6; 7; 8]
                                  Startup.activity_classes true = inr fig /\
    length (GazeNet.im fig) = 9%nat /\
    Forall (fun row =>
              exists qs, row = map Np.Fin qs /\
                         Forall (fun q => (0 <= q)%Q /\ (q <= 1)%Q) qs /\
                         (Qabs (Statistics.Qsum qs - 1)
                          <= inject_Z (Z.of_nat (length qs)) * Float.pow2 (-53))%Q)
           (GazeNet.im fig).
Proof.
  assert (H : exists fig,
             GazeNet.plot_confusion_matrix [0; 1; 2; 3; 4; 5; 6; 7; 8]
                                           [0; 0; 2; 3; 4; 5; 6; 7; 8]
                                           Startup.activity_classes true = inr fig /\
             length (GazeNet.im fig) = 9%nat)
    by (eexists; split; [vm_compute; reflexivity|reflexivity]).
  destruct H as (fig & H & Hl).
  exists fig. split; [exact H|]. split; [exact Hl|].
  apply (figure_finite_when_predictions_covered _ _ _ fig H).
  - intros l Hin. cbn in Hin. cbn. tauto.
  - reflexivity.
Defined.

(** Batches of 4 over ten examples: after the second batch 8 are done. *)
Lemma val_progress_is_exact_witness :
  Progress.val_done 4 1 10
  = Progress.consumed (fst (GazeNet.iterate Toy.randperm (Toy.args 3) Toy.ten tt)) 1.
Proof.
  apply (val_progress_is_exact _ _ Toy.randperm (Toy.args 3) Toy.ten tt 1
           toy_permutes).
  vm_compute. lia.
Defined.

(** The third batch has two examples: the logged count is 6 of the 10
    examples consumed. *)
Lemma train_progress_never_overstates_witness :
  (Progress.train_done 2 [1; 1]
   <= Progress.consumed
        (fst (GazeNet.iterate Toy.randperm (Toy.args 3) Toy.ten tt)) 2)%nat /\
  (Progress.consumed
     (fst (GazeNet.iterate Toy.randperm (Toy.args 3) Toy.ten tt)) 2 <= 10)%nat.
Proof.
  destruct (train_progress_never_overstates _ _ Toy.randperm (Toy.args 3) Toy.ten
              tt 2 [1; 1] [1; 1] toy_permutes eq_refl)
    as (H1 & H2 & _).
  split; [exact H1|exact H2].
Defined.

Lemma curves_rerendered_each_epoch_witness :
  exists (w' : Toy.World) (c' : GazeNet.Curves) new,
    Toy.main 3 Toy.start = inr (w', c') /\
    GazeNet.trace w' = GazeNet.trace Toy.start ++ new /\
    filter Reading.is_curve_render new
      = flat_map (Reading.curves_after 0 0 0 c') [1; 2; 3]%nat /\
    length (GazeNet.val_acc c') = 3%nat.
Proof.
  assert (H : exists w' c', Toy.main 3 Toy.start = inr (w', c'))
    by (do 2 eexists; vm_compute; reflexivity).
  destruct H as (w' & c' & H).
  destruct (curves_rerendered_each_epoch _ _ _ _ Toy.forward Toy.nll_loss
              Toy.sgd_step Toy.randperm (Toy.args 3) Toy.train_loader Toy.val_loader
              Toy.start w' c' H)
    as (new & Htr & Hcr & _ & _ & Hv).
  exists w', c', new.
  split; [exact H|]. split; [exact Htr|]. split; [exact Hcr|exact Hv].
Defined.

(** Validation accuracies 100 and then twice one in nine: the only
    checkpoint is that of the first epoch, and [best_accuracy] ends at its
    accuracy. *)
Lemma last_checkpoint_is_earliest_best_witness :
  exists (w' : Toy.World) (c' : GazeNet.Curves) (e : Obs.Epoch Z),
    Toy.main_loop [1; 2; 3] Toy.start Toy.no_curves = inr (w', c') /\
    Obs.trained e = 1 /\
    GazeNet.best_accuracy w' = Obs.val_accuracy e.
Proof.
  assert (H : exists w' c',
             Toy.main_loop [1; 2; 3] Toy.start Toy.no_curves = inr (w', c') /\
             filter Obs.is_checkpoint (GazeNet.trace w') = [GazeNet.Torch_save 1])
    by (do 2 eexists; split; vm_compute; reflexivity).
  destruct H as (w' & c' & H & Hf).
  destruct (last_checkpoint_is_earliest_best _ _ _ _ Toy.forward Toy.nll_loss
              Toy.sgd_step Toy.randperm (Toy.args 3) Toy.train_loader Toy.val_loader
              [1; 2; 3] Toy.start w' Toy.no_curves c' H)
    as (es & new & Htr & _ & _ & _ & _ & Hlast & _).
  cbn in Htr. rewrite <- Htr in Hlast.
  destruct (Hlast [] 1 Hf) as (l1 & e & l2 & _ & Hp & Hb & _).
  exists w', c', e. split; [exact H|]. split; [now symmetry|exact Hb].
Defined.

Lemma disk_makedirs_exists (f : Disk.FS) (p : string) (f' : Disk.FS) :
  Disk.makedirs f p = (f', inr tt) -> Disk.path_exists f' p = true.
Proof.
  intro H. injection H as <-. cbn. now rewrite String.eqb_refl.
Qed.

Lemma disk_write_keeps (f : Disk.FS) (q content : string) (f' : Disk.FS) (p : string) :
  Disk.write_text f q content = (f', inr tt) ->
  Disk.path_exists f p = true -> Disk.path_exists f' p = true.
Proof.
  intros H E. injection H as <-. unfold Disk.path_exists in *.
  cbn [existsb]. rewrite E. apply orb_true_r.
Qed.

(** On an empty disk the start-up succeeds and settles on the default
    directory of its start time. *)
Lemma setup_checks_before_touching_disk_witness :
  exists (fs' : Disk.FS) (a' : Startup.Namespace),
    Disk.setup "2020-01-31-10:15" [] Disk.args = (fs', inr a') /\
    Startup.output_dir a' = Some "./experiments/gazenet/2020-01-31-10:15"%string /\
    Startup.num_classes a' = Some 9.
Proof.
  assert (H : exists fs' a',
             Disk.setup "2020-01-31-10:15" [] Disk.args = (fs', inr a'))
    by (do 2 eexists; vm_compute; reflexivity).
  destruct H as (fs' & a' & H).
  destruct (proj1 (setup_checks_before_touching_disk _ Disk.path_exists
                     Disk.makedirs Disk.write_text Disk.json_dump
                     "2020-01-31-10:15" false [] Disk.args) fs' a' H)
    as (_ & _ & _ & _ & Hdir & Hn & _).
  exists fs', a'. split; [exact H|]. split; [|exact Hn].
  apply Hdir; reflexivity.
Defined.

(** A second start-up within the same minute fails. *)
Lemma second_run_on_same_directory_fails_witness :
  exists (fs1 : Disk.FS) (a1 : Startup.Namespace),
    Disk.setup "2020-01-31-10:15" [] Disk.args = (fs1, inr a1) /\
    Disk.setup "2020-01-31-10:15" fs1 Disk.args
      = (fs1, inl {| Py.exn_class := "AssertionError";
                     Py.exn_msg := "Output directory already exists!" |}).
Proof.
  assert (H : exists fs1 a1,
             Disk.setup "2020-01-31-10:15" [] Disk.args = (fs1, inr a1))
    by (do 2 eexists; vm_compute; reflexivity).
  destruct H as (fs1 & a1 & H).
  exists fs1, a1. split; [exact H|].
  apply (second_run_on_same_directory_fails _ Disk.path_exists Disk.makedirs
           Disk.write_text Disk.json_dump
           "2020-01-31-10:15" "2020-01-31-10:15" false false [] fs1
           Disk.args a1 Disk.args
           disk_makedirs_exists disk_write_keeps H).
  - discriminate.
  - reflexivity.
  - reflexivity.
Defined.
